(** * TTS/engine_wrapper.py: duration accounting and comment splitting

    A shallow embedding of [TTSEngine] (run, split_post, call_tts) and of the
    regular expression that [split_post] uses to cut a long comment.

    Modelling choices, fixed once for the whole development:
    - a Python [str] is a [string]; each [ascii] stands for one code point
      below 256;
    - clip durations, [self.length] and the other accumulators are Python
      floats: IEEE 754 binary64 numbers, here the primitive [float] with
      its own addition, subtraction and comparison, so that every sum is
      rounded as the source rounds it.  The integers of the source (the
      initial [0], a budget such as [50]) are the floats of the same
      value;
    - the run directory [self.path] is a finite map from file names
      (relative to that directory) to the duration that [AudioFileClip]
      reports for the file stored under the name. *)

From Stdlib Require Import ZArith Ascii.
From Stdlib Require Import Floats.PrimFloat.
From stdpp Require Import gmap strings list pretty.

#[local] Set Warnings "-inexact-float".

Local Open Scope string_scope.
Local Open Scope list_scope.

(** ** Characters and whitespace *)

Definition newline : ascii := Ascii.ascii_of_nat 10.
Definition space : ascii := Ascii.ascii_of_nat 32.
Definition full_stop : ascii := Ascii.ascii_of_nat 46.

(** [str.isspace] on one code point below 256: TAB..CR, FS..US, space,
    NEL (0x85) and NBSP (0xA0). *)
Definition is_whitespace (c : ascii) : bool :=
  let n := Ascii.nat_of_ascii c in
  (((9 <=? n) && (n <=? 13)) || ((28 <=? n) && (n <=? 32))
   || (n =? 133) || (n =? 160))%nat.

(** ** A backtracking matcher for the constructs of the splitting pattern

    Python's [re] is a backtracking engine: a greedy repetition tries the
    longest count first, an alternation tries its left branch first, and
    the first way that lets the rest of the pattern succeed wins.  The
    matcher is written in continuation-passing style: [k] is the rest of
    the pattern and returns the input left after the whole match. *)

Inductive regex : Type :=
| Lit (c : ascii)                (* one given character *)
| Dot                            (* [.]: any character except newline *)
| Eos                            (* [$]: at the end, or before a final newline *)
| Alt (r1 r2 : regex)            (* [r1|r2] *)
| Cat (r1 r2 : regex)            (* [r1r2] *)
| Star (r : regex)               (* [r*], greedy *)
| Upto (n : nat) (r : regex).    (* [r{0,n}], greedy *)

Definition cont := list ascii -> option (list ascii).

(** Greedy [r*]: one more iteration first, then the continuation.  An
    iteration that consumes nothing is not repeated. *)
Fixpoint star (f : list ascii -> cont -> option (list ascii))
    (fuel : nat) (s : list ascii) (k : cont) : option (list ascii) :=
  match fuel with
  | O => k s
  | S fuel' =>
      match f s (fun s' =>
                   if (List.length s' <? List.length s)%nat
                   then star f fuel' s' k else None) with
      | Some r => Some r
      | None => k s
      end
  end.

(** Greedy [r{0,n}]. *)
Fixpoint upto (f : list ascii -> cont -> option (list ascii))
    (n : nat) (s : list ascii) (k : cont) : option (list ascii) :=
  match n with
  | O => k s
  | S n' =>
      match f s (fun s' => upto f n' s' k) with
      | Some r => Some r
      | None => k s
      end
  end.

Fixpoint exec (r : regex) (s : list ascii) (k : cont) : option (list ascii) :=
  match r with
  | Lit c =>
      match s with
      | a :: t => if Ascii.eqb a c then k t else None
      | [] => None
      end
  | Dot =>
      match s with
      | a :: t => if Ascii.eqb a newline then None else k t
      | [] => None
      end
  | Eos =>
      match s with
      | [] => k s
      | [a] => if Ascii.eqb a newline then k s else None
      | _ => None
      end
  | Alt r1 r2 =>
      match exec r1 s k with
      | Some x => Some x
      | None => exec r2 s k
      end
  | Cat r1 r2 => exec r1 s (fun s' => exec r2 s' k)
  | Star r1 => star (exec r1) (List.length s) s k
  | Upto n r1 => upto (exec r1) n s k
  end.

(** The pattern of [split_post]:
    [" *(((.|\n){0," + str(max_chars) + "})(\.|.$))"]. *)
Definition split_regex (max_chars : nat) : regex :=
  Cat (Star (Lit space))
      (Cat (Upto max_chars (Alt Dot (Lit newline)))
           (Alt (Lit full_stop) (Cat Dot Eos))).

(** [re.match] at the start of [s]: the input left after the match. *)
Definition match_here (r : regex) (s : list ascii) : option (list ascii) :=
  exec r s Some.

(** [re.finditer]: the matched substrings, left to right.  A search starts
    where the previous match ended; where no match starts, the scan moves
    one character on.  [skip] counts the characters of the current match
    still to be passed over.  (An empty match is reported and the scan
    moves one character on; the splitting pattern never matches empty.) *)
Fixpoint scan (r : regex) (s : list ascii) (skip : nat) : list (list ascii) :=
  match skip with
  | S skip' =>
      match s with
      | [] => []
      | _ :: t => scan r t skip'
      end
  | O =>
      match match_here r s with
      | Some rest =>
          let n := (List.length s - List.length rest)%nat in
          take n s ::
            match s with
            | [] => []
            | _ :: t => scan r t (n - 1)
            end
      | None =>
          match s with
          | [] => []
          | _ :: t => scan r t 0
          end
      end
  end.

Definition finditer (r : regex) (s : list ascii) : list (list ascii) :=
  scan r s 0.

(** [str.strip()] *)
Fixpoint lstrip (s : list ascii) : list ascii :=
  match s with
  | c :: t => if is_whitespace c then lstrip t else s
  | [] => []
  end.

Definition rstrip (s : list ascii) : list ascii := rev (lstrip (rev s)).

Definition strip (s : list ascii) : list ascii := rstrip (lstrip s).

(** [str.isspace()]: at least one character, and all of them whitespace. *)
Definition isspace (s : string) : bool :=
  match String.list_ascii_of_string s with
  | [] => false
  | l => forallb is_whitespace l
  end.

(** The list comprehension at the head of [split_post]. *)
Definition split_text (max_chars : nat) (text : string) : list string :=
  map (fun m => String.string_of_list_ascii (strip m))
      (finditer (split_regex max_chars) (String.list_ascii_of_string text)).

(** ** Collaborators *)

(** The TTS module handed to the engine: its [max_chars] attribute and its
    [run(text, filepath)] method.  The method is external; what the engine
    can observe of it is whether a readable clip is at [filepath]
    afterwards and how long it is.  [Some d]: a readable clip has been
    written and [AudioFileClip(filepath).duration] is [d]; [None]: no
    readable clip is at that path (the later [AudioFileClip(...)] raises).
    The method itself is taken not to raise. *)
Module TTSModule.
Record t : Type := mk {
  max_chars : nat;
  run : string -> string -> option float;
}.
End TTSModule.

(** The entries of [reddit_object] that the engine reads. *)
Record comment : Type := { comment_body : string }.

Record reddit_object : Type := {
  thread_title : string;
  thread_post : string;
  comments : list comment;
}.

(** [not new_text or new_text.isspace()] *)
Definition blank (new_text : string) : bool :=
  String.eqb new_text String.EmptyString || isspace new_text.

(** The name [f"{idx}-{n}.part"] of the [n]-th part of comment [idx]. *)
Definition part_name (idx : nat) (n : Z) : string :=
  pretty idx +:+ "-" +:+ pretty n +:+ ".part".

(** [a > b] on floats. *)
Definition float_gt (a b : float) : bool := (b <? a)%float.

(** ** The engine *)

Module TTSEngine.

(** The mutable attributes of a [TTSEngine], the files under [self.path]
    and, as ghost state, the calls made to [tts_module.run] so far
    (file name and text, oldest first). *)
Record t : Type := mk {
  racked_up_split_length : float;
  max_length : float;
  length : float;
  last_clip_length : float;
  files : gmap string float;
  tts_calls : list (string * string);
}.

Definition set_racked_up_split_length (v : float) (self : t) : t :=
  mk v (max_length self) (length self) (last_clip_length self)
     (files self) (tts_calls self).

Definition set_length (v : float) (self : t) : t :=
  mk (racked_up_split_length self) (max_length self) v
     (last_clip_length self) (files self) (tts_calls self).

Definition set_last_clip_length (v : float) (self : t) : t :=
  mk (racked_up_split_length self) (max_length self) (length self) v
     (files self) (tts_calls self).

Definition set_files (v : gmap string float) (self : t) : t :=
  mk (racked_up_split_length self) (max_length self) (length self)
     (last_clip_length self) v (tts_calls self).

Definition log_call (filepath text : string) (self : t) : t :=
  mk (racked_up_split_length self) (max_length self) (length self)
     (last_clip_length self) (files self)
     (tts_calls self ++ [(filepath, text)]).

(** [__init__], on a run directory holding [dir]. *)
Definition init (dir : gmap string float) (max_length last_clip_length : float)
  : t :=
  mk 0 max_length 0 last_clip_length dir [].

Section Engine.

Variable tts_module : TTSModule.t.
(** [process_text]: sanitising and optional translation, both outside
    this file. *)
Variable process_text : string -> string.
(** [CompositeAudioClip([concatenate_audioclips(split_files)])
    .write_audiofile(...)]: the encoder is moviepy's.  [write_audiofile
    clips] is the duration that [AudioFileClip] would report for the file
    encoded from the clips [clips] (name and measured duration of each);
    nothing is assumed about it, in particular not that it is the sum of
    the durations of the parts. *)
Variable write_audiofile : list (string * float) -> float.
(** [settings.config["settings"]["storymode"]] *)
Variable storymode : bool.

(** [self.tts_module.run(text, filepath=...)] *)
Definition tts_run (filepath text : string) (self : t) : t :=
  let self := log_call filepath text self in
  match TTSModule.run tts_module text filepath with
  | Some d => set_files (<[filepath := d]> (files self)) self
  | None => set_files (delete filepath (files self)) self
  end.

Definition call_tts (self : t) (filename text : string) (split : bool)
  : t * bool :=
  let filepath := filename +:+ ".mp3" in
  let self := tts_run filepath text self in
  match files self !! filepath with
  | Some duration =>
      let self := set_last_clip_length duration self in
      let self := set_length (length self + duration)%float self in
      let self :=
        if split
        then set_racked_up_split_length
               (racked_up_split_length self + duration)%float self
        else self in
      (self, true)
  | None => (self, false)
  end.

(** The [for idy, text_cut in enumerate(split_text)] loop of
    [split_post].  [None] in the second component: the loop left the
    function through [return]; [Some split_files]: it ran to its end.
    The clip appended to [split_files] reopens the file that [call_tts]
    has just measured, so its duration is [last_clip_length]. *)
Fixpoint split_loop (self : t) (idx : nat) (idy offset : Z)
    (pieces : list string) (split_files : list (string * float))
  : t * option (list (string * float)) :=
  match pieces with
  | [] => (self, Some split_files)
  | text_cut :: rest =>
      let new_text := process_text text_cut in
      if blank new_text
      then split_loop self idx (idy + 1) (offset + 1) rest split_files
      else
        let filename := part_name idx (idy - offset) in
        match call_tts self filename new_text true with
        | (self, false) =>
            (set_length (length self - racked_up_split_length self)%float
               self,
             None)
        | (self, true) =>
            split_loop self idx (idy + 1) offset rest
              (split_files ++ [(filename +:+ ".mp3", last_clip_length self)])
        end
  end.

(** [split_post].  [None]: an exception leaves the function
    ([concatenate_audioclips] of no clip at all). *)
Definition split_post (self : t) (text : string) (idx : nat) : option t :=
  match split_loop self idx 0 0
          (split_text (TTSModule.max_chars tts_module) text) [] with
  | (self, None) => Some self
  | (self, Some split_files) =>
      let self := set_racked_up_split_length 0 self in
      match split_files with
      | [] => None
      | _ =>
          let written :=
            <[pretty idx +:+ ".mp3" := write_audiofile split_files]>
              (files self) in
          Some (set_files
                  (foldl (fun fs clip => delete (fst clip) fs)
                         written split_files)
                  self)
      end
  end.

(** The [for idx, comment in enumerate(...)] loop of [run]; [i] is the
    index of the head of [cs], [idx] the value of the variable [idx]
    when the iteration starts. *)
Fixpoint comments_loop (self : t) (i : nat) (cs : list comment)
    (idx : option Z) : option (t * option Z) :=
  match cs with
  | [] => Some (self, idx)
  | c :: rest =>
      if float_gt (length self) (max_length self)
      then Some (set_length (length self - last_clip_length self)%float self,
                 Some (Z.of_nat i - 1)%Z)
      else if (TTSModule.max_chars tts_module
                 <? String.length (comment_body c))%nat
      then
        match split_post self (comment_body c) i with
        | Some self => comments_loop self (S i) rest (Some (Z.of_nat i))
        | None => None
        end
      else
        let self :=
          fst (call_tts self (pretty i) (process_text (comment_body c))
                        false) in
        comments_loop self (S i) rest (Some (Z.of_nat i))
  end.

(** [run]: the final engine and the returned pair [(self.length, idx)];
    [None] if an exception leaves the method. *)
Definition run (self : t) (thread : reddit_object)
  : option (t * (float * option Z)) :=
  let self := set_files (delete "posttext.mp3" (files self)) self in
  let self :=
    fst (call_tts self "title" (process_text (thread_title thread)) false) in
  let processed_text := process_text (thread_post thread) in
  let self :=
    if negb (String.eqb processed_text String.EmptyString) && storymode
    then fst (call_tts self "posttext" processed_text false)
    else self in
  match comments_loop self 0 (comments thread) None with
  | Some (self, idx) => Some (self, (length self, idx))
  | None => None
  end.

End Engine.

End TTSEngine.
(** ** Vocabulary of the statements

    Pure functions used to state what the engine does; none of them is
    part of the engine. *)

(** A sub-pattern that consumes exactly one character, which satisfies [P]. *)
Definition one_char (P : ascii -> Prop)
    (f : list ascii -> cont -> option (list ascii)) : Prop :=
  forall s k r, f s k = Some r -> exists a t, s = a :: t /\ P a /\ k t = Some r.



(** The pieces that are synthesised: processed, and neither empty nor
    whitespace only. *)
Definition kept_texts (process_text : string -> string)
    (pieces : list string) : list string :=
  List.filter (fun t => negb (blank t)) (map process_text pieces).

(** File names and texts of consecutive parts of comment [idx], from
    number [n]. *)
Definition numbered_parts (idx : nat) (n : Z) (texts : list string)
  : list (string * string) :=
  imap (fun j text => (part_name idx (n + Z.of_nat j) +:+ ".mp3", text)) texts.

(** [self.length += d] for each duration of a list, in order: the float
    sum from the left, rounded at each step as the engine rounds it. *)
Definition add_all (acc : float) (ds : list float) : float :=
  foldl PrimFloat.add acc ds.

(** [self.length += clip.duration] if a clip came out, nothing if not. *)
Definition add_clip (acc : float) (clip : option float) : float :=
  match clip with
  | Some d => (acc + d)%float
  | None => acc
  end.

Section Contributions.

Variable tts_module : TTSModule.t.
Variable process_text : string -> string.
Variable storymode : bool.

(** The comment is longer than the module's [max_chars], so [run] hands
    it to [split_post]. *)
Definition chunked (c : comment) : bool :=
  (TTSModule.max_chars tts_module <? String.length (comment_body c))%nat.

(** The clip of a directly synthesised item, if one comes out. *)
Definition direct_clip (filename text : string) : option float :=
  TTSModule.run tts_module text (filename +:+ ".mp3").

(** The parts of a split comment that are synthesised before the first
    one that fails, and whether all are. *)
Fixpoint synthesized (parts : list (string * string)) : list float * bool :=
  match parts with
  | [] => ([], true)
  | (filepath, text) :: rest =>
      match TTSModule.run tts_module text filepath with
      | Some d => (d :: fst (synthesized rest), snd (synthesized rest))
      | None => ([], false)
      end
  end.

(** The durations of the parts of a split comment, if every part is
    synthesised. *)
Definition part_durations (parts : list (string * string))
  : option (list float) :=
  if snd (synthesized parts) then Some (fst (synthesized parts)) else None.

(** The parts that [split_post] would synthesise for comment [i]. *)
Definition parts_of (i : nat) (c : comment) : list (string * string) :=
  numbered_parts i 0
    (kept_texts process_text
       (split_text (TTSModule.max_chars tts_module) (comment_body c))).

(** The durations that the iteration of comment [i] adds to
    [self.length], one after the other: the clip of a direct synthesis
    (none if no clip comes out), or the parts of a split comment.
    Undefined for a split comment one of whose parts fails, or which has
    no part at all. *)
Definition comment_durations (i : nat) (c : comment) : option (list float) :=
  if chunked c then
    match part_durations (parts_of i c) with
    | Some (d :: ds) => Some (d :: ds)
    | _ => None
    end
  else Some (option_list
               (direct_clip (pretty i) (process_text (comment_body c)))).

(** The sum of what comment [i] adds. *)
Definition comment_contribution (i : nat) (c : comment) : option float :=
  option_map (add_all 0%float) (comment_durations i c).

Fixpoint contributions (i : nat) (cs : list comment)
  : option (list (list float)) :=
  match cs with
  | [] => Some []
  | c :: rest =>
      match comment_durations i c, contributions (S i) rest with
      | Some ds, Some dss => Some (ds :: dss)
      | _, _ => None
      end
  end.

(** What the iteration of a comment does, as far as the total goes. *)
Inductive outcome : Type :=
| Direct (clip : option float)  (* synthesised directly; the clip, if any *)
| Parts (ds : list float)       (* split, every part synthesised *)
| Failed (ds : list float).     (* split; the parts before the one that fails *)

(** Undefined for a split comment with no part at all:
    [concatenate_audioclips] raises. *)
Definition comment_outcome (i : nat) (c : comment) : option outcome :=
  if chunked c then
    if snd (synthesized (parts_of i c)) then
      match fst (synthesized (parts_of i c)) with
      | [] => None
      | ds => Some (Parts ds)
      end
    else Some (Failed (fst (synthesized (parts_of i c))))
  else Some (Direct (direct_clip (pretty i) (process_text (comment_body c)))).

Fixpoint outcomes (i : nat) (cs : list comment) : option (list outcome) :=
  match cs with
  | [] => Some []
  | c :: rest =>
      match comment_outcome i c, outcomes (S i) rest with
      | Some o, Some os => Some (o :: os)
      | _, _ => None
      end
  end.

(** [self.length] when the comment loop of a fresh engine starts: the
    title and the optional post text, added to the initial [0]. *)
Definition head_contribution (thread : reddit_object) : float :=
  let title :=
    add_clip 0%float
      (direct_clip "title" (process_text (thread_title thread))) in
  if negb (String.eqb (process_text (thread_post thread))
                      String.EmptyString) && storymode
  then add_clip title
         (direct_clip "posttext" (process_text (thread_post thread)))
  else title.

End Contributions.

(** [self.length] after an iteration with the given outcome, started at
    [acc]: durations are added one by one; a split comment that fails
    subtracts [racked_up_split_length], which holds the sum of the parts
    synthesised so far if it was at 0 when the comment started. *)
Definition account (acc : float) (o : outcome) : float :=
  match o with
  | Direct clip => add_clip acc clip
  | Parts ds => add_all acc ds
  | Failed ds => (add_all acc ds - add_all 0%float ds)%float
  end.



(** The budget test at the head of each iteration passes for every
    comment of the list: [acc] is [self.length] when the first of them
    starts, [dss] what each adds. *)
Fixpoint within (B acc : float) (dss : list (list float)) : bool :=
  match dss with
  | [] => true
  | ds :: rest => negb (float_gt acc B) && within B (add_all acc ds) rest
  end.

(** The index of the first comment with which the running total, started
    at [acc], exceeds the budget [B]. *)
Fixpoint first_over (B acc : float) (dss : list (list float)) : option nat :=
  match dss with
  | [] => None
  | ds :: rest =>
      if float_gt (add_all acc ds) B then Some 0%nat
      else option_map S (first_over B (add_all acc ds) rest)
  end.

(** The value of [idx] after a loop over [n] comments that ran to its
    end. *)
Definition last_index (n : nat) : option Z :=
  match n with
  | O => None
  | S m => Some (Z.of_nat m)
  end.

(** [run] returns the pair [(total, idx)]. *)
Definition returns (r : option (TTSEngine.t * (float * option Z)))
    (total : float) (idx : option Z) : Prop :=
  exists final t, r = Some (final, (t, idx)) /\ t = total.

(** ** Concrete threads and TTS modules used in the examples *)

(** A TTS module that knows the duration of the texts of a table and
    produces no clip for any other text. *)
Definition tts_table (max_chars : nat) (table : list (string * float))
  : TTSModule.t :=
  TTSModule.mk max_chars
    (fun text _ =>
       match List.find (fun e => String.eqb (fst e) text) table with
       | Some e => Some (snd e)
       | None => None
       end).

(** An encoder that makes the concatenation as long as its parts. *)
Definition exact_encoder (clips : list (string * float)) : float :=
  foldl PrimFloat.add 0%float (map snd clips).

(** An encoder that pads the file it writes. *)
Definition padding_encoder (clips : list (string * float)) : float :=
  (exact_encoder clips + 0.03)%float.

(** [process_text] with no translation and nothing to sanitise. *)
Definition plain_text (text : string) : string := text.

Definition thread_of (title : string) (bodies : list string) : reddit_object :=
  {| thread_title := title;
     thread_post := String.EmptyString;
     comments := map Build_comment bodies |}.

(** Title of 2.0 s, no post text, comments of 3.0 s each, budget 7.0 s. *)
Definition short_tts : TTSModule.t :=
  tts_table 100
    [("Title", 2.0%float); ("first", 3.0%float); ("second", 3.0%float); ("third", 3.0%float)].

Definition short_run (bodies : list string)
  : option (TTSEngine.t * (float * option Z)) :=
  TTSEngine.run short_tts plain_text exact_encoder false
    (TTSEngine.init ∅ 7.0%float 0%float) (thread_of "Title" bodies).




(** A module with [max_chars = 5]: sentences of 2.0 s, 1.0 s and 3.0 s,
    and no clip for ["bbbb."]. *)
Definition parts_tts : TTSModule.t :=
  tts_table 5
    [("Title", 4.0%float); ("aaaa.", 2.0%float); ("cccc.", 1.0%float); ("dddd.", 3.0%float);
     ("x", 1.0%float)].

Definition parts_run (budget : float) (bodies : list string)
  : option (TTSEngine.t * (float * option Z)) :=
  TTSEngine.run parts_tts plain_text padding_encoder false
    (TTSEngine.init ∅ budget 0%float) (thread_of "Title" bodies).

(** A module that never produces a clip. *)
Definition silent_tts : TTSModule.t := tts_table 5 [].

(** The engine as [run] leaves it. *)
Definition final_engine (r : option (TTSEngine.t * (float * option Z)))
  : option TTSEngine.t :=
  option_map fst r.


(** Title of 0.1 s, comments of 0.2 s, 0.3 s and 0.4 s, budget 0.3 s:
    durations whose sums are rounded. *)
Definition tenths_tts : TTSModule.t :=
  tts_table 100
    [("Title", 0.1%float); ("first", 0.2%float); ("second", 0.3%float);
     ("third", 0.4%float)].

Definition tenths_thread : reddit_object :=
  thread_of "Title" ["first"; "second"; "third"].

Definition tenths_run : option (TTSEngine.t * (float * option Z)) :=
  TTSEngine.run tenths_tts plain_text exact_encoder false
    (TTSEngine.init ∅ 0.3%float 0%float) tenths_thread.

(** A module with [max_chars = 5]: the title lasts 0.1 s, the part
    ["aaaa."] 0.2 s, and no clip comes out for ["bbbb."]. *)
Definition rounding_parts_tts : TTSModule.t :=
  tts_table 5 [("Title", 0.1%float); ("aaaa.", 0.2%float)].
(** ** Names of the files of a run *)

Definition is_digit (c : ascii) : bool :=
  let n := Ascii.nat_of_ascii c in ((48 <=? n) && (n <=? 57))%nat.

Fixpoint all_digits (s : string) : bool :=
  match s with
  | String.EmptyString => true
  | String c t => is_digit c && all_digits t
  end.

(** The files that the iteration of comment [j] can write or remove: the
    clip [j.mp3] and the parts [j-z.part.mp3]. *)
Definition comment_file (j : nat) (name : string) : Prop :=
  name = pretty j +:+ ".mp3" \/ exists z : Z, name = part_name j z +:+ ".mp3".

Section Clips.

Variable tts_module : TTSModule.t.
Variable process_text : string -> string.
Variable storymode : bool.

(** The post text is narrated: [processed_text != "" and storymode]. *)
Definition narrated (thread : reddit_object) : bool :=
  negb (String.eqb (process_text (thread_post thread)) String.EmptyString)
  && storymode.

(** [last_clip_length] when the comment loop starts: the duration of the
    last of title and post text that gave a clip, or the value the engine
    was built with. *)
Definition head_last_clip (last_clip_length : float) (thread : reddit_object) : float :=
  let title :=
    TTSModule.run tts_module (process_text (thread_title thread)) "title.mp3" in
  let post :=
    if narrated thread
    then TTSModule.run tts_module (process_text (thread_post thread))
           "posttext.mp3"
    else None in
  match post, title with
  | Some d, _ => d
  | None, Some d => d
  | None, None => last_clip_length
  end.

(** The iteration of comment [i] leaves a clip [i.mp3] in the run
    directory: the clip of a direct synthesis, or the concatenation of the
    parts of a split comment all of whose parts are synthesised. *)
Definition gives_clip (i : nat) (c : comment) : bool :=
  if chunked tts_module c then
    match part_durations tts_module (parts_of tts_module process_text i c) with
    | Some (_ :: _) => true
    | _ => false
    end
  else
    match direct_clip tts_module (pretty i) (process_text (comment_body c)) with
    | Some _ => true
    | None => false
    end.

End Clips.

(** ** video_creation/final_video.py: the timeline of [make_final_video]

    [make_final_video] gathers the clips and images of a run and overlays
    each image on the background for the time its clip plays.  File names
    are relative to the run's [mp3] and [png] directories (the [mp3]
    directory is the [self.path] of the engine).  The map [mp3] gives
    [MP3(i).info.length] for each file that [MP3] can read; [MP3] raises
    on the others.  It is an input of its own: what [MP3] reports for a
    file need not be what [AudioFileClip] reported to the engine.  [now]
    and the lengths are floats.  The ffmpeg filter graph is represented by the
    windows it is built from; rendering, renaming and clean-up are
    external. *)

Module FinalVideo.

(** One [overlay] filter: the image, shown [between(t, start, stop)], and
    the audio input created with it. *)
Record overlay : Type := {
  image : string;
  audio : string;
  start : float;
  stop : float;
}.

(** [range(number_of_clips)] *)
Definition clip_indices (number_of_clips : Z) : list nat :=
  seq 0 (Z.to_nat number_of_clips).

Definition audio_clips (number_of_clips : Z) : list string :=
  "title.mp3"
    :: map (fun i : nat => pretty i +:+ ".mp3") (clip_indices number_of_clips).

Definition image_clips (number_of_clips : Z) : list string :=
  "title.png"
    :: map (fun i : nat => "comment_" +:+ pretty i +:+ ".png")
         (clip_indices number_of_clips).

(** [for i in audio_clips: lengths.append(MP3(i).info.length)]; [None]
    when [MP3] raises. *)
Fixpoint read_lengths (mp3 : gmap string float) (clips : list string)
  : option (list float) :=
  match clips with
  | [] => Some []
  | a :: rest =>
      match mp3 !! a, read_lengths mp3 rest with
      | Some d, Some ds => Some (d :: ds)
      | _, _ => None
      end
  end.

(** The loop [for i in range(len(image_clips))]; [None] when an index is
    out of range. *)
Fixpoint overlay_loop (indices : list nat) (now : float)
    (images audios : list string) (lengths : list float)
  : option (list overlay) :=
  match indices with
  | [] => Some []
  | i :: rest =>
      match lengths !! i, images !! i, audios !! i with
      | Some len, Some ima, Some aud =>
          let nextnow := (len + now)%float in
          match overlay_loop rest nextnow images audios lengths with
          | Some ws => Some (Build_overlay ima aud now nextnow :: ws)
          | None => None
          end
      | _, _, _ => None
      end
  end.

Definition make_final_video (number_of_clips : Z) (mp3 : gmap string float)
  : option (list overlay) :=
  let audios := audio_clips number_of_clips in
  let images := image_clips number_of_clips in
  match read_lengths mp3 audios with
  | Some lengths =>
      overlay_loop (seq 0 (List.length images)) 0%float images audios lengths
  | None => None
  end.

End FinalVideo.

(** Each window starts where the one before it stops. *)
Fixpoint contiguous (from : float) (ws : list FinalVideo.overlay) : Prop :=
  match ws with
  | [] => True
  | w :: rest => FinalVideo.start w = from /\ contiguous (FinalVideo.stop w) rest
  end.

(** ** utils/subreddit.py: choosing a submission that has not been done

    A submission is known by the attributes the code reads; [str] of a
    submission is its id.  [videos.json] holds a list of objects whose
    values are strings.  [subreddit.top(time_filter=..., limit=...)] is
    external and given by [top]. *)

Module Subreddit.

Record submission : Type := {
  id : string;
  over_18 : bool;
  stickied : bool;
  num_comments : Z;
}.

(** One entry of [videos.json]. *)
Definition video : Type := gmap string string.

(** What a call produces: a value, or one of the two exceptions that can
    leave these functions. *)
Inductive result (A : Type) : Type :=
| Return (a : A)
| KeyError
| IndexError.
Arguments Return {A} a.
Arguments KeyError {A}.
Arguments IndexError {A}.

(** [already_done]: [video["id"]] raises [KeyError] on an entry without
    that key. *)
Fixpoint already_done (done_videos : list video) (s : submission)
  : result bool :=
  match done_videos with
  | [] => Return false
  | v :: rest =>
      match v !! "id" with
      | None => KeyError
      | Some i => if String.eqb i (id s) then Return true
                  else already_done rest s
      end
  end.

Definition VALID_TIME_FILTERS : list string :=
  ["day"; "hour"; "month"; "week"; "year"; "all"].

(** [l[i]] on a Python list: a negative index counts from the end. *)
Definition py_index {A} (l : list A) (i : Z) : option A :=
  if (0 <=? i)%Z then l !! Z.to_nat i
  else if (- Z.of_nat (List.length l) <=? i)%Z
       then l !! Z.to_nat (Z.of_nat (List.length l) + i)
       else None.

Section Undone.

(** [int(settings.config["reddit"]["thread"]["min_comments"])] *)
Variable min_comments : Z.
(** [subreddit.top(time_filter, limit)] *)
Variable top : string -> Z -> list submission.

(** The [for submission in submissions] loop: [Some r] when the loop
    leaves the function (a submission is returned, or [already_done]
    raises), [None] when it runs to its end. *)
Fixpoint first_undone (done_videos : list video) (submissions : list submission)
  : option (result submission) :=
  match submissions with
  | [] => None
  | s :: rest =>
      match already_done done_videos s with
      | KeyError => Some KeyError
      | IndexError => Some IndexError
      | Return true => first_undone done_videos rest
      | Return false =>
          if over_18 s then first_undone done_videos rest
          else if stickied s then first_undone done_videos rest
          else if (num_comments s <=? min_comments)%Z
               then first_undone done_videos rest
               else Some (Return s)
      end
  end.

(** [get_subreddit_undone], with the number of recursive calls bounded by
    [fuel] ([None] when the bound is hit).  [file] is the content of
    [videos.json], if the file exists; [queries] are the calls made to
    [top] so far.  Returns the outcome, the queries and the file. *)
Fixpoint get_subreddit_undone_from (fuel : nat) (file : option (list video))
    (queries : list (string * Z)) (submissions : list submission)
    (times_checked : Z)
  : option (result submission * list (string * Z) * option (list video)) :=
  let done_videos := default [] file in
  let file := Some done_videos in
  match first_undone done_videos submissions with
  | Some r => Some (r, queries, file)
  | None =>
      let index := (times_checked + 1)%Z in
      match py_index VALID_TIME_FILTERS index with
      | None => Some (IndexError, queries, file)
      | Some time_filter =>
          let limit := if (index =? 0)%Z then 50%Z else (index + 1 * 50)%Z in
          match fuel with
          | O => None
          | S fuel' =>
              get_subreddit_undone_from fuel' file
                (queries ++ [(time_filter, limit)])
                (top time_filter limit) index
          end
      end
  end.

(** Each recursive call moves [times_checked] one step towards the end of
    [VALID_TIME_FILTERS], where indexing raises; this many calls are
    enough. *)
Definition get_subreddit_undone (file : option (list video))
    (submissions : list submission) (times_checked : Z)
  : option (result submission * list (string * Z) * option (list video)) :=
  get_subreddit_undone_from (Z.to_nat (6 - times_checked)) file []
    submissions times_checked.

(** A submission that the loop returns rather than skips. *)
Definition acceptable (done_videos : list video) (s : submission) : Prop :=
  already_done done_videos s = Return false /\
  over_18 s = false /\ stickied s = false /\
  (min_comments < num_comments s)%Z.

(** A submission that the loop skips without raising. *)
Definition skipped (done_videos : list video) (s : submission) : Prop :=
  already_done done_videos s = Return true \/
  (already_done done_videos s = Return false /\
   (over_18 s = true \/ stickied s = true \/
    (num_comments s <= min_comments)%Z)).

End Undone.

End Subreddit.

(** An entry of [videos.json] with an id other than that of [s]. *)
Definition other_id (s : Subreddit.submission) (v : Subreddit.video) : Prop :=
  exists i, v !! "id" = Some i /\ i <> Subreddit.id s.

(** ** Further concrete inputs used in the examples *)

Definition split_fail_comment : comment := Build_comment "aaaa. bbbb. cccc.".
Definition split_ok_comment : comment := Build_comment "aaaa. cccc.".

(** A run directory that still holds a post text clip of an earlier run. *)
Definition stale_directory : gmap string float := {["posttext.mp3" := 9.0%float]}.


Definition fresh_submission : Subreddit.submission :=
  Subreddit.Build_submission "abc" false false 40.
Definition nsfw_submission : Subreddit.submission :=
  Subreddit.Build_submission "xyz" true false 40.
Definition no_listing (time_filter : string) (limit : Z)
  : list Subreddit.submission := [].

(** ** Sanitising identifiers and file names

    [re.sub(r"[^\w\s-]", "", s)], used for [redditid] in
    [TTSEngine.__init__] and for [id] and [title] in [make_final_video],
    deletes every character that is not a word character, whitespace or a
    hyphen. *)

(** [\w] on one code point below 256: letters, digits and the underscore,
    with the letters and numerals of Latin-1. *)
Definition is_word (c : ascii) : bool :=
  let n := Ascii.nat_of_ascii c in
  (((48 <=? n) && (n <=? 57)) || ((65 <=? n) && (n <=? 90)) || (n =? 95)
   || ((97 <=? n) && (n <=? 122)) || (n =? 170) || (n =? 178) || (n =? 179)
   || (n =? 181) || (n =? 185) || (n =? 186) || ((188 <=? n) && (n <=? 190))
   || ((192 <=? n) && (n <=? 214)) || ((216 <=? n) && (n <=? 246))
   || ((248 <=? n) && (n <=? 255)))%nat.

Definition hyphen : ascii := Ascii.ascii_of_nat 45.
Definition slash : ascii := Ascii.ascii_of_nat 47.

Definition kept_by_strip (c : ascii) : bool :=
  is_word c || is_whitespace c || Ascii.eqb c hyphen.

Definition strip_special (s : string) : string :=
  String.string_of_list_ascii
    (List.filter kept_by_strip (String.list_ascii_of_string s)).

(** [TTSEngine.__init__]: [self.redditid], the only part of [self.path]
    that comes from the thread. *)
Definition redditid (thread_id : string) : string := strip_special thread_id.

(** ** Substitution with a backtracking matcher

    The patterns of [name_normalize] have groups that the replacement
    refers to.  [Re.run r s caps] lists the ways in which [r] matches a
    prefix of [s], in the order in which Python's backtracking tries them
    (greedy repetitions: more iterations first); each way is the input
    left and the groups captured. *)

Module Re.

Inductive t : Type :=
| Lit (c : ascii)               (* one given character *)
| Class (p : ascii -> bool)     (* a character class, [\d], [\w], [\s] *)
| Seq (r1 r2 : t)
| Opt (r : t)                   (* [r?], greedy *)
| Plus (r : t)                  (* [r+], greedy *)
| Group (i : nat) (r : t).      (* the capturing group number [i] *)

Definition captures : Type := list (nat * list ascii).

Definition ways : Type := list (list ascii * captures).

(** [r+] for a matcher [f] of [r]: one iteration, then further iterations
    before stopping.  An iteration that consumes nothing is not
    repeated. *)
Fixpoint plus (f : list ascii -> captures -> ways) (fuel : nat)
    (s : list ascii) (caps : captures) : ways :=
  match fuel with
  | O => []
  | S fuel' =>
      flat_map
        (fun way : list ascii * captures =>
           (if (List.length (fst way) <? List.length s)%nat
            then plus f fuel' (fst way) (snd way) else [])
           ++ [way])
        (f s caps)
  end.

Fixpoint run (r : t) (s : list ascii) (caps : captures) : ways :=
  match r with
  | Lit c =>
      match s with
      | a :: rest => if Ascii.eqb a c then [(rest, caps)] else []
      | [] => []
      end
  | Class p =>
      match s with
      | a :: rest => if p a then [(rest, caps)] else []
      | [] => []
      end
  | Seq r1 r2 =>
      flat_map (fun way : list ascii * captures => run r2 (fst way) (snd way))
               (run r1 s caps)
  | Opt r1 => run r1 s caps ++ [(s, caps)]
  | Plus r1 => plus (run r1) (List.length s) s caps
  | Group i r1 =>
      map (fun way : list ascii * captures =>
             (fst way,
              (i, take (List.length s - List.length (fst way)) s) :: snd way))
          (run r1 s caps)
  end.

(** A piece of a replacement: literal text or [\i]. *)
Inductive piece : Type :=
| Text (s : list ascii)
| Ref (i : nat).

Definition group (caps : captures) (i : nat) : list ascii :=
  match List.find (fun cap : nat * list ascii => (fst cap =? i)%nat) caps with
  | Some cap => snd cap
  | None => []
  end.

Definition expand (repl : list piece) (caps : captures) : list ascii :=
  flat_map (fun p => match p with Text s => s | Ref i => group caps i end) repl.

(** [re.sub(r, repl, s)]: the matches are found left to right, each search
    starting where the previous match ended; [skip] counts the characters
    of the current match still to be passed over.  (A match of the empty
    string is treated as no match; the patterns used here consume at
    least one character.) *)
Fixpoint sub_scan (r : t) (repl : list piece) (s : list ascii) (skip : nat)
  : list ascii :=
  match skip with
  | S skip' =>
      match s with
      | [] => []
      | _ :: rest => sub_scan r repl rest skip'
      end
  | O =>
      match s with
      | [] => []
      | a :: rest =>
          match run r s [] with
          | (s', caps) :: _ =>
              let n := (List.length s - List.length s')%nat in
              match n with
              | O => a :: sub_scan r repl rest 0
              | S n' => expand repl caps ++ sub_scan r repl rest n'
              end
          | [] => a :: sub_scan r repl rest 0
          end
      end
  end.

Definition sub (r : t) (repl : list piece) (s : list ascii) : list ascii :=
  sub_scan r repl s 0.

End Re.

(** ** video_creation/final_video.py: [name_normalize] *)

Definition chars (s : string) : list ascii := String.list_ascii_of_string s.

(** The class of the first substitution: question mark, backslash, double
    quote, percent, asterisk, colon, bar, less-than and greater-than. *)
Definition forbidden_in_name (c : ascii) : bool :=
  let n := Ascii.nat_of_ascii c in
  ((n =? 63) || (n =? 92) || (n =? 34) || (n =? 37) || (n =? 42)
   || (n =? 58) || (n =? 124) || (n =? 60) || (n =? 62))%nat.

(** [[w,W]] and [[o,O,0]]: the comma is a member of the class. *)
Definition w_class (c : ascii) : bool :=
  let n := Ascii.nat_of_ascii c in ((n =? 119) || (n =? 44) || (n =? 87))%nat.

Definition o_class (c : ascii) : bool :=
  let n := Ascii.nat_of_ascii c in
  ((n =? 111) || (n =? 44) || (n =? 79) || (n =? 48))%nat.

(** [( [w,W]\s?\/\s?[o,O,0])] *)
Definition without_pattern : Re.t :=
  Re.Group 1
    (Re.Seq (Re.Lit space)
       (Re.Seq (Re.Class w_class)
          (Re.Seq (Re.Opt (Re.Class is_whitespace))
             (Re.Seq (Re.Lit slash)
                (Re.Seq (Re.Opt (Re.Class is_whitespace))
                   (Re.Class o_class)))))).

(** [( [w,W]\s?\/)] *)
Definition with_pattern : Re.t :=
  Re.Group 1
    (Re.Seq (Re.Lit space)
       (Re.Seq (Re.Class w_class)
          (Re.Seq (Re.Opt (Re.Class is_whitespace)) (Re.Lit slash)))).

(** [(\d+)\s?\/\s?(\d+)] and [(\w+)\s?\/\s?(\w+)] *)
Definition ratio_pattern (class : ascii -> bool) : Re.t :=
  Re.Seq (Re.Group 1 (Re.Plus (Re.Class class)))
    (Re.Seq (Re.Opt (Re.Class is_whitespace))
       (Re.Seq (Re.Lit slash)
          (Re.Seq (Re.Opt (Re.Class is_whitespace))
             (Re.Group 2 (Re.Plus (Re.Class class)))))).

Section NameNormalize.

(** [settings.config["reddit"]["thread"]["post_lang"]] is set, and
    [ts.google(name, to_language=lang)]. *)
Variable lang : bool.
Variable translate : string -> string.

(** [name_normalize].  The statement [name[:30]] computes a slice and
    drops it; it has no counterpart here. *)
Definition name_normalize (name : string) : string :=
  let name := Re.sub (Re.Class forbidden_in_name) [] (chars name) in
  let name := Re.sub without_pattern [Re.Text (chars " without")] name in
  let name := Re.sub with_pattern [Re.Text (chars " with")] name in
  let name :=
    Re.sub (ratio_pattern is_digit)
      [Re.Ref 1; Re.Text (chars " of "); Re.Ref 2] name in
  let name :=
    Re.sub (ratio_pattern is_word)
      [Re.Ref 1; Re.Text (chars " or "); Re.Ref 2] name in
  let name := Re.sub (Re.Lit slash) [] name in
  let name := String.string_of_list_ascii name in
  if lang then translate name else name.

(** [make_final_video]: the name of the result,
    [f"{name_normalize(title)[:251]}.mp4"] with [title] stripped of
    special characters. *)
Definition video_filename (thread_title : string) : string :=
  let title := strip_special thread_title in
  String.string_of_list_ascii (take 251 (chars (name_normalize title)))
  +:+ ".mp4".

End NameNormalize.

(** Every match of [r] consumes the character [c]. *)
Fixpoint needs (c : ascii) (r : Re.t) : bool :=
  match r with
  | Re.Lit c' => Ascii.eqb c' c
  | Re.Class _ => false
  | Re.Seq r1 r2 => needs c r1 || needs c r2
  | Re.Opt _ => false
  | Re.Plus r1 => needs c r1
  | Re.Group _ r1 => needs c r1
  end.

(** The literal text of a replacement. *)
Definition literal_chars (repl : list Re.piece) : list ascii :=
  flat_map (fun p => match p with Re.Text s => s | Re.Ref _ => [] end) repl.

(** All captured texts are made of characters that satisfy [p]. *)
Definition captures_within (p : ascii -> bool) (caps : Re.captures) : Prop :=
  Forall (fun cap => forallb p (snd cap) = true) caps.

(** A character that may stay in a file name. *)
Definition clean (c : ascii) : bool :=
  negb (forbidden_in_name c) && negb (Ascii.eqb c slash).


(** Every match of [r] consumes at least one character. *)
Fixpoint consumes (r : Re.t) : bool :=
  match r with
  | Re.Lit _ | Re.Class _ => true
  | Re.Seq r1 r2 => consumes r1 || consumes r2
  | Re.Opt _ => false
  | Re.Plus r1 => consumes r1
  | Re.Group _ r1 => consumes r1
  end.

(** ** video_creation/screenshot_downloader.py

    [download_screenshots_of_reddit_posts] drives a browser.  What the
    function itself decides is which screenshots are asked for, under
    which names, and what happens when one is not taken; the browser is a
    parameter.  [screenshot p idx] is what
    [page.locator(...).screenshot(path=...)] does for comment [idx] while
    the browser shows page [p]: it returns, and the file is written, or it
    raises and no file is written.  The calls [goto], [is_visible],
    [click] and [evaluate] are taken to return.  File names are relative
    to the run's [png] directory. *)

Module Screenshots.

Inductive page : Type :=
| ThreadPage                    (* [reddit_object["thread_url"]] *)
| CommentPage (idx : nat).      (* [comment["comment_url"]] of comment [idx] *)

Inductive exn : Type :=
| TimeoutError                  (* the builtin named by [except TimeoutError] *)
| KeyError
| OtherError.                   (* any other exception *)

Record state : Type := {
  written : list string;        (* the screenshots taken, in order *)
  screenshot_num : Z;
  has_comments : bool;          (* [reddit_object] has the key ["comments"] *)
  at_page : page;
}.

Inductive outcome : Type :=
| Returned (s : state)
| Raised (e : exn) (s : state).

Definition add_file (f : string) (s : state) : state :=
  {| written := written s ++ [f]; screenshot_num := screenshot_num s;
     has_comments := has_comments s; at_page := at_page s |}.

Definition goto (p : page) (s : state) : state :=
  {| written := written s; screenshot_num := screenshot_num s;
     has_comments := has_comments s; at_page := p |}.

(** [del reddit_object["comments"]; screenshot_num += 1], once the key is
    known to be there. *)
Definition skip_comment (s : state) : state :=
  {| written := written s; screenshot_num := (screenshot_num s + 1)%Z;
     has_comments := false; at_page := at_page s |}.

Definition comment_png (idx : nat) : string :=
  "comment_" +:+ pretty idx +:+ ".png".

(** The module constant. *)
Definition storymode : bool := false.

Section Browser.

Variable title_shot : option exn.
Variable story_shot : option exn.
Variable screenshot : page -> nat -> option exn.

(** [for idx, comment in enumerate(track(reddit_object["comments"], ...))].
    The list is read once, before the loop; deleting the key afterwards
    does not end the iteration. *)
Fixpoint comment_loop (comments : list comment) (idx : nat) (s : state)
  : outcome :=
  match comments with
  | [] => Returned s
  | _ :: rest =>
      if (screenshot_num s <=? Z.of_nat idx)%Z then Returned s
      else
        match screenshot (at_page s) idx with
        | None => comment_loop rest (S idx) (add_file (comment_png idx) s)
        | Some _ =>
            let s := goto (CommentPage idx) s in
            match screenshot (CommentPage idx) idx with
            | None =>
                comment_loop rest (S idx)
                  (goto ThreadPage (add_file (comment_png idx) s))
            | Some TimeoutError =>
                if has_comments s
                then comment_loop rest (S idx) (skip_comment s)
                else Raised KeyError s
            | Some e => Raised e s
            end
        end
  end.

Definition download_screenshots_of_reddit_posts
    (reddit_object : reddit_object) (screenshot_num : Z) : outcome :=
  let s :=
    {| written := []; screenshot_num := screenshot_num;
       has_comments := true; at_page := ThreadPage |} in
  match title_shot with
  | Some e => Raised e s
  | None =>
      let s := add_file "title.png" s in
      if storymode then
        match story_shot with
        | Some e => Raised e s
        | None => Returned (add_file "story_content.png" s)
        end
      else comment_loop (comments reddit_object) 0 s
  end.

(** Comment [idx] can be captured: where the browser is, or else on the
    comment's own page. *)
Definition capturable (idx : nat) : Prop :=
  forall p, screenshot p idx = None \/ screenshot (CommentPage idx) idx = None.

(** Comment [idx] is found on no page, and on its own page the screenshot
    raises [TimeoutError]. *)
Definition times_out (idx : nat) : Prop :=
  (forall p, screenshot p idx <> None) /\
  screenshot (CommentPage idx) idx = Some TimeoutError.

End Browser.

Definition add_files (fs : list string) (s : state) : state :=
  {| written := written s ++ fs; screenshot_num := screenshot_num s;
     has_comments := has_comments s; at_page := at_page s |}.

Definition final_state (o : outcome) : state :=
  match o with Returned s | Raised _ s => s end.

End Screenshots.

(** Browsers used in the examples: every comment is found on the thread's
    page; comment 1 is found nowhere. *)
Definition all_found (p : Screenshots.page) (idx : nat)
  : option Screenshots.exn := None.

Definition second_lost (p : Screenshots.page) (idx : nat)
  : option Screenshots.exn :=
  if (idx =? 1)%nat then Some Screenshots.TimeoutError else None.

Definition second_and_third_lost (p : Screenshots.page) (idx : nat)
  : option Screenshots.exn :=
  if ((idx =? 1) || (idx =? 2))%nat then Some Screenshots.TimeoutError
  else None.

Definition four_comments : reddit_object :=
  {| thread_title := "t"; thread_post := String.EmptyString;
     comments := [Build_comment "a"; Build_comment "b"; Build_comment "c";
                  Build_comment "d"] |}.

(** ** What the splitting pattern can reach

    A match of the splitting pattern that starts at the head of [s] ends
    at a full stop among the first [max_chars + 1] characters, or at the
    end of [s] when [s] has no more characters than that. *)
Definition reach (max_chars : nat) (s : list ascii) : bool :=
  (List.length s <=? max_chars + 1)%nat
  || existsb (fun c => Ascii.eqb c full_stop) (take (max_chars + 1) s).

(** A stop is within reach of every position of [s]. *)
Fixpoint dense (max_chars : nat) (s : list ascii) : bool :=
  match s with
  | [] => true
  | _ :: t => reach max_chars s && dense max_chars t
  end.


(** The way that a backtracking search takes: the first of the list. *)
Definition first_way (r : Re.t) (s : list ascii) (caps : Re.captures)
    (way : list ascii * Re.captures) : Prop :=
  exists ways, Re.run r s caps = way :: ways.

(** A word character that is not a digit. *)
Definition is_letter (c : ascii) : bool := is_word c && negb (is_digit c).
(** * Properties *)

(** ** The splitting pattern *)

(** Sanity checks of the matcher on small inputs. *)
Example split_text_two_sentences :
  split_text 10 "Hello world. This is it" = ["ello world."; "This is it"].
Proof. vm_compute. reflexivity. Qed.

Example split_text_backtracks_to_last_stop :
  split_text 5 "ab.cdefgh." = ["ab."; "defgh."].
Proof. vm_compute. reflexivity. Qed.

Example split_text_blank_piece :
  split_text 2 "a.   " = ["a."; String.EmptyString].
Proof. vm_compute. reflexivity. Qed.

Example split_text_final_newline :
  split_text 5 ("ab" +:+ String newline String.EmptyString) = ["ab"].
Proof. vm_compute. reflexivity. Qed.

Section Matcher.

Lemma is_whitespace_space : is_whitespace space = true.
Proof. reflexivity. Qed.

Lemma one_char_lit c : one_char (fun a => a = c) (exec (Lit c)).
Proof.
  intros [|a t] k r; simpl; [done|].
  destruct (Ascii.eqb a c) eqn:Ha; [|done].
  apply Ascii.eqb_eq in Ha. eauto.
Qed.

Lemma one_char_any : one_char (fun _ => True) (exec (Alt Dot (Lit newline))).
Proof.
  intros [|a t] k r; simpl; [done|].
  destruct (Ascii.eqb a newline); [eauto|].
  destruct (k t) eqn:Hk; [|done]. intros [= <-]. eauto.
Qed.

Lemma star_one_char P f fuel s k r :
  one_char P f ->
  star f fuel s k = Some r ->
  exists pre s', s = pre ++ s' /\ Forall P pre /\ k s' = Some r.
Proof.
  intros Hf. revert s. induction fuel as [|fuel IH]; intros s H; simpl in H.
  - exists [], s. auto.
  - match type of H with
    | match ?x with _ => _ end = _ => destruct x eqn:Hx
    end.
    + injection H as ->.
      apply Hf in Hx as (a & t & -> & Ha & Hx).
      destruct (List.length t <? List.length (a :: t))%nat; [|done].
      apply IH in Hx as (pre & s' & -> & Hpre & Hk).
      exists (a :: pre), s'. auto.
    + exists [], s. auto.
Qed.

Lemma upto_one_char P f n s k r :
  one_char P f ->
  upto f n s k = Some r ->
  exists body s',
    s = body ++ s' /\ (List.length body <= n)%nat /\ k s' = Some r.
Proof.
  intros Hf. revert s. induction n as [|n IH]; intros s H; simpl in H.
  - exists [], s. auto.
  - match type of H with
    | match ?x with _ => _ end = _ => destruct x eqn:Hx
    end.
    + injection H as ->.
      apply Hf in Hx as (a & t & -> & _ & Hx).
      apply IH in Hx as (body & s' & -> & Hlen & Hk).
      exists (a :: body), s'. split; [done|]. split; [simpl; lia | done].
    + exists [], s. split; [done|]. split; [simpl; lia | done].
Qed.

(** The fuel of [star] is the length of the input; for a sub-pattern that
    tests one character, such as the space of the splitting pattern, more
    fuel changes nothing. *)
Lemma star_fuel f (p : ascii -> bool) :
  (forall k, f [] k = None) ->
  (forall a t k, f (a :: t) k = if p a then k t else None) ->
  forall s n m k,
    (List.length s <= n)%nat -> (List.length s <= m)%nat ->
    star f n s k = star f m s k.
Proof.
  intros Hnil Hcons. induction s as [|a t IH]; intros n m k Hn Hm.
  - destruct n, m; simpl; rewrite ?Hnil; reflexivity.
  - destruct n as [|n]; [simpl in Hn; lia|].
    destruct m as [|m]; [simpl in Hm; lia|].
    simpl. rewrite !Hcons. destruct (p a); [|reflexivity].
    destruct (List.length t <? S (List.length t))%nat; [|reflexivity].
    rewrite (IH n m k); [reflexivity | simpl in Hn; lia | simpl in Hm; lia].
Qed.

Lemma star_spaces_fuel s n k :
  (List.length s <= n)%nat ->
  star (exec (Lit space)) n s k = exec (Star (Lit space)) s k.
Proof.
  intros Hn. cbn [exec].
  apply (star_fuel _ (fun a => Ascii.eqb a space)); auto.
Qed.








(** What [strip] returns is empty or starts with a character that is not
    whitespace; so a trimmed piece is never whitespace only. *)
Lemma lstrip_head s :
  lstrip s = [] \/ exists c t, lstrip s = c :: t /\ is_whitespace c = false.
Proof.
  induction s as [|c t IH]; simpl; [auto|].
  destruct (is_whitespace c) eqn:Hc; [exact IH | eauto].
Qed.

Lemma lstrip_snoc l c :
  is_whitespace c = false -> exists l', lstrip (l ++ [c]) = l' ++ [c].
Proof.
  intros Hc. induction l as [|a l IH]; simpl.
  - rewrite Hc. by exists [].
  - destruct (is_whitespace a); [exact IH|]. by exists (a :: l).
Qed.

Lemma strip_head s :
  strip s = [] \/ exists c t, strip s = c :: t /\ is_whitespace c = false.
Proof.
  unfold strip. destruct (lstrip_head s) as [-> | (c & t & -> & Hc)];
    [by left | right].
  unfold rstrip. cbn [rev].
  destruct (lstrip_snoc (rev t) c Hc) as [l' ->].
  rewrite rev_app_distr. cbn. eauto.
Qed.

Lemma isspace_strip s :
  isspace (String.string_of_list_ascii (strip s)) = false.
Proof.
  unfold isspace. rewrite String.list_ascii_of_string_of_list_ascii.
  destruct (strip_head s) as [-> | (c & t & -> & Hc)]; [done|].
  cbn. by rewrite Hc.
Qed.

Lemma split_text_not_whitespace_only n text :
  Forall (fun piece => isspace piece = false) (split_text n text).
Proof.
  unfold split_text. apply Forall_map, Forall_true. intros m.
  apply isspace_strip.
Qed.

End Matcher.



(** ** One synthesis: [call_tts] *)

Section EngineFacts.

Variable tts_module : TTSModule.t.
Variable process_text : string -> string.

Local Abbreviation call_tts := (TTSEngine.call_tts tts_module).
Local Abbreviation split_loop := (TTSEngine.split_loop tts_module process_text).
Local Abbreviation max_chars := (TTSModule.max_chars tts_module).

Lemma call_tts_ok self filename text split d :
  TTSModule.run tts_module text (filename +:+ ".mp3") = Some d ->
  call_tts self filename text split =
    (TTSEngine.mk
       (if split then TTSEngine.racked_up_split_length self + d
        else TTSEngine.racked_up_split_length self)%float
       (TTSEngine.max_length self)
       (TTSEngine.length self + d)%float
       d
       (<[filename +:+ ".mp3" := d]> (TTSEngine.files self))
       (TTSEngine.tts_calls self ++ [(filename +:+ ".mp3", text)]),
     true).
Proof.
  intros H. unfold TTSEngine.call_tts, TTSEngine.tts_run. rewrite H.
  cbn. rewrite lookup_insert_eq. destruct split; reflexivity.
Qed.

Lemma call_tts_fail self filename text split :
  TTSModule.run tts_module text (filename +:+ ".mp3") = None ->
  call_tts self filename text split =
    (TTSEngine.mk
       (TTSEngine.racked_up_split_length self)
       (TTSEngine.max_length self)
       (TTSEngine.length self)
       (TTSEngine.last_clip_length self)
       (delete (filename +:+ ".mp3") (TTSEngine.files self))
       (TTSEngine.tts_calls self ++ [(filename +:+ ".mp3", text)]),
     false).
Proof.
  intros H. unfold TTSEngine.call_tts, TTSEngine.tts_run. rewrite H.
  cbn. rewrite lookup_delete_eq. reflexivity.
Qed.

(** After a successful [call_tts], the file holds a clip of the duration
    recorded in [last_clip_length]: this is the clip that the chunk loop
    reopens for [split_files]. *)
Lemma call_tts_true_measured self filename text split :
  snd (call_tts self filename text split) = true ->
  TTSEngine.files (fst (call_tts self filename text split))
    !! (filename +:+ ".mp3")
  = Some (TTSEngine.last_clip_length (fst (call_tts self filename text split))).
Proof.
  destruct (TTSModule.run tts_module text (filename +:+ ".mp3")) as [d|] eqn:Hr.
  - rewrite (call_tts_ok _ _ _ _ _ Hr). cbn. intros _. apply lookup_insert_eq.
  - rewrite (call_tts_fail _ _ _ _ Hr). discriminate.
Qed.

(** The probe of [call_tts] fails exactly when the module left no
    readable clip. *)
Lemma probe_fails_iff self filename text :
  TTSEngine.files
    (TTSEngine.tts_run tts_module (filename +:+ ".mp3") text self)
    !! (filename +:+ ".mp3") = None
  <-> TTSModule.run tts_module text (filename +:+ ".mp3") = None.
Proof.
  unfold TTSEngine.tts_run.
  destruct (TTSModule.run tts_module text (filename +:+ ".mp3")) as [d|];
    cbn.
  - rewrite lookup_insert_eq. split; discriminate.
  - rewrite lookup_delete_eq. done.
Qed.

(** C10.  If reading the duration of the clip just produced fails,
    [call_tts] returns [False] and [length], [last_clip_length] and
    [racked_up_split_length] are what they were before the call: a failed
    unit adds nothing to any accumulator. *)
Theorem call_tts_failed_probe_adds_nothing
    (self : TTSEngine.t) (filename text : string) (split : bool) :
  TTSEngine.files
    (TTSEngine.tts_run tts_module (filename +:+ ".mp3") text self)
    !! (filename +:+ ".mp3") = None ->
  snd (call_tts self filename text split) = false /\
  TTSEngine.length (fst (call_tts self filename text split))
    = TTSEngine.length self /\
  TTSEngine.last_clip_length (fst (call_tts self filename text split))
    = TTSEngine.last_clip_length self /\
  TTSEngine.racked_up_split_length (fst (call_tts self filename text split))
    = TTSEngine.racked_up_split_length self.
Proof.
  intros H. apply probe_fails_iff in H.
  rewrite (call_tts_fail _ _ _ _ H). cbn. auto.
Qed.

(** ** The chunk loop of [split_post] *)

Lemma numbered_parts_cons idx n text texts :
  numbered_parts idx n (text :: texts)
  = (part_name idx n +:+ ".mp3", text) :: numbered_parts idx (n + 1) texts.
Proof.
  unfold numbered_parts. rewrite imap_cons. f_equal.
  - by rewrite Z.add_0_r.
  - apply imap_ext. intros j x _. simpl. do 3 f_equal. lia.
Qed.

(** What the loop asks of the TTS module: a prefix of the kept texts, in
    order, under consecutive part numbers; the whole of them if the loop
    runs to its end. *)
Lemma split_loop_calls pieces : forall self idx idy offset split_files,
  exists k,
    (k <= List.length (kept_texts process_text pieces))%nat /\
    TTSEngine.tts_calls (fst (split_loop self idx idy offset pieces split_files))
    = TTSEngine.tts_calls self
      ++ numbered_parts idx (idy - offset) (take k (kept_texts process_text pieces)) /\
    (forall clips,
        snd (split_loop self idx idy offset pieces split_files) = Some clips ->
        k = List.length (kept_texts process_text pieces) /\
        map fst clips
        = map fst split_files
          ++ map fst (numbered_parts idx (idy - offset) (kept_texts process_text pieces))).
Proof.
  induction pieces as [|text_cut rest IH]; intros self idx idy offset sf.
  - exists 0%nat. cbn. split; [lia|]. split; [by rewrite app_nil_r|].
    intros clips [= <-]. by rewrite app_nil_r.
  - unfold kept_texts. cbn [TTSEngine.split_loop map List.filter].
    fold (kept_texts process_text rest).
    destruct (blank (process_text text_cut)) eqn:Hb; cbn [negb].
    + destruct (IH self idx (idy + 1)%Z (offset + 1)%Z sf) as (k & Hk & Hc & Hs).
      replace (idy + 1 - (offset + 1))%Z with (idy - offset)%Z in * by lia.
      exists k. auto.
    + destruct (TTSModule.run tts_module (process_text text_cut)
                  (part_name idx (idy - offset) +:+ ".mp3")) as [d|] eqn:Hr.
      * rewrite (call_tts_ok _ _ _ _ _ Hr).
        match goal with
        | |- context [TTSEngine.split_loop _ _ ?s _ _ _ _ ?f] =>
            destruct (IH s idx (idy + 1)%Z offset f) as (k & Hk & Hc & Hs)
        end.
        replace (idy + 1 - offset)%Z with (idy - offset + 1)%Z in * by lia.
        exists (S k). split; [simpl; lia|]. split.
        -- rewrite Hc. cbn [TTSEngine.tts_calls firstn take].
           rewrite numbered_parts_cons, <- (assoc_L (++)). reflexivity.
        -- intros clips Hclips. destruct (Hs _ Hclips) as [-> Hm].
           split; [reflexivity|].
           rewrite Hm, numbered_parts_cons, map_app, <- (assoc_L (++)).
           reflexivity.
      * rewrite (call_tts_fail _ _ _ _ Hr).
        exists 1%nat. split; [simpl; lia|]. split; [|discriminate].
        cbn [TTSEngine.tts_calls fst TTSEngine.set_length firstn take].
        rewrite take_0, numbered_parts_cons. reflexivity.
Qed.

Lemma kept_texts_not_blank pieces :
  Forall (fun text => text <> String.EmptyString /\ isspace text = false)
         (kept_texts process_text pieces).
Proof.
  unfold kept_texts. apply List.Forall_forall. intros text Hin.
  apply List.filter_In in Hin as [_ Hb].
  apply negb_true_iff in Hb. unfold blank in Hb.
  apply orb_false_iff in Hb as [He Hs]. split; [|done].
  intros ->. discriminate.
Qed.

(** C8.  Whatever the state and the pieces, the parts that the loop of
    [split_post] hands to the TTS module are stored under the numbers
    [0, 1, ..., k-1], in that order: a piece that is blank after
    processing takes a slot of [enumerate] and no number.  If the loop
    runs to its end, [k] is the number of pieces that are not blank, and
    the clips collected for concatenation carry the same names. *)
Theorem split_loop_numbers_gap_free
    (self : TTSEngine.t) (idx : nat) (pieces : list string) :
  exists k,
    (k <= List.length (kept_texts process_text pieces))%nat /\
    map fst (drop (List.length (TTSEngine.tts_calls self))
               (TTSEngine.tts_calls (fst (split_loop self idx 0 0 pieces []))))
    = map (fun j => part_name idx (Z.of_nat j) +:+ ".mp3") (seq 0 k) /\
    (forall clips,
        snd (split_loop self idx 0 0 pieces []) = Some clips ->
        k = List.length (kept_texts process_text pieces) /\
        map fst clips
        = map (fun j => part_name idx (Z.of_nat j) +:+ ".mp3") (seq 0 k)).
Proof.
  destruct (split_loop_calls pieces self idx 0%Z 0%Z []) as (k & Hk & Hc & Hs).
  assert (Hnames : forall texts,
    map fst (numbered_parts idx (0 - 0) texts)
    = map (fun j => part_name idx (Z.of_nat j) +:+ ".mp3")
          (seq 0 (List.length texts))).
  { intros texts. unfold numbered_parts.
    apply list_eq. intros j.
    rewrite !list_lookup_fmap, list_lookup_imap.
    destruct (texts !! j) as [x|] eqn:Hx; simpl.
    - rewrite lookup_seq_lt by (eapply lookup_lt_Some; eauto). reflexivity.
    - rewrite lookup_seq_ge by (by apply lookup_ge_None). reflexivity. }
  exists k. split; [done|]. split.
  - rewrite Hc, drop_app_length, Hnames, length_take.
    by rewrite Nat.min_l.
  - intros clips Hclips. destruct (Hs _ Hclips) as [-> Hm].
    split; [done|]. by rewrite Hm, Hnames.
Qed.

Lemma split_text_empty n : split_text n String.EmptyString = [].
Proof. destruct n; reflexivity. Qed.

(** If processing leaves the empty text blank, a piece that trimmed to
    empty is never synthesised: dropping such pieces beforehand changes
    nothing. *)
Lemma kept_texts_without_empty pieces :
  blank (process_text String.EmptyString) = true ->
  kept_texts process_text pieces
  = kept_texts process_text
      (List.filter (fun piece => negb (String.eqb piece String.EmptyString))
                   pieces).
Proof.
  intros Hblank. unfold kept_texts.
  induction pieces as [|piece rest IH]; [done|].
  cbn [List.filter map].
  destruct (String.eqb piece String.EmptyString) eqn:He; cbn [negb].
  - apply String.eqb_eq in He. subst piece. rewrite Hblank. exact IH.
  - cbn [List.filter map]. by rewrite IH.
Qed.

(** C9.  For every text, the chunk loop synthesises only texts that are
    neither empty nor whitespace only, in the order of the pieces.  A
    trimmed piece is never whitespace only, and a piece that trimmed to
    empty is not synthesised (given that processing leaves the empty text
    blank).  On the empty text the pattern finds no piece at all, so the
    loop ends at once with no clip, no call and the state untouched. *)
Theorem split_loop_chunks_not_blank
    (self : TTSEngine.t) (idx : nat) (text : string) :
  (exists new,
      TTSEngine.tts_calls
        (fst (split_loop self idx 0 0 (split_text max_chars text) []))
      = TTSEngine.tts_calls self ++ new /\
      map snd new `prefix_of`
        kept_texts process_text (split_text max_chars text) /\
      Forall (fun call =>
                snd call <> String.EmptyString /\ isspace (snd call) = false)
             new) /\
  Forall (fun piece => isspace piece = false) (split_text max_chars text) /\
  (blank (process_text String.EmptyString) = true ->
   kept_texts process_text (split_text max_chars text)
   = kept_texts process_text
       (List.filter (fun piece => negb (String.eqb piece String.EmptyString))
                    (split_text max_chars text))) /\
  split_text max_chars String.EmptyString = [] /\
  split_loop self idx 0 0 (split_text max_chars String.EmptyString) []
  = (self, Some []).
Proof.
  split; [|split; [apply split_text_not_whitespace_only|];
           split; [apply kept_texts_without_empty|];
           rewrite split_text_empty; split; reflexivity].
  destruct (split_loop_calls (split_text max_chars text) self idx 0%Z 0%Z [])
    as (k & Hk & Hc & _).
  eexists. split; [exact Hc|].
  assert (Hsnd : forall n texts, map snd (numbered_parts idx n texts) = texts).
  { intros n texts. unfold numbered_parts. apply list_eq. intros j.
    rewrite list_lookup_fmap, list_lookup_imap.
    by destruct (texts !! j). }
  split.
  - rewrite Hsnd. apply prefix_take.
  - apply (List.Forall_map snd (fun text =>
               text <> String.EmptyString /\ isspace text = false)).
    rewrite Hsnd. apply Forall_take, kept_texts_not_blank.
Qed.

End EngineFacts.
(** ** Duration accounting over a whole run *)

Lemma add_all_app acc l1 l2 :
  add_all (add_all acc l1) l2 = add_all acc (l1 ++ l2).
Proof. unfold add_all. by rewrite foldl_app. Qed.

Lemma add_all_snoc acc l d :
  add_all acc (l ++ [d]) = (add_all acc l + d)%float.
Proof. by rewrite <- add_all_app. Qed.

Lemma add_clip_list acc clip : add_clip acc clip = add_all acc (option_list clip).
Proof. by destruct clip. Qed.

Lemma default_last_cons (prev d : float) ds :
  default prev (last (d :: ds)) = default d (last ds).
Proof.
  destruct ds as [|d' ds]; [done|].
  change (last (d :: d' :: ds)) with (last (d' :: ds)).
  destruct (last (d' :: ds)) eqn:E; [done|]. by apply last_None in E.
Qed.

Lemma default_last_app (prev : float) l1 l2 :
  default (default prev (last l1)) (last l2) = default prev (last (l1 ++ l2)).
Proof. rewrite last_app. by destruct (last l2). Qed.

(** The budget tests that [within] lists, one more comment at a time. *)
Lemma within_snoc B dss : forall acc ds,
  within B acc (dss ++ [ds])
  = within B acc dss && negb (float_gt (add_all acc (concat dss)) B).
Proof.
  induction dss as [|ds0 dss IH]; intros acc ds; cbn [within app concat].
  - by rewrite andb_true_r.
  - by rewrite IH, <- add_all_app, andb_assoc.
Qed.

(** If the total first exceeds the budget with the last comment of a list
    and the loop is entered within budget, the test passes before each
    comment of the list and fails after the last. *)
Lemma first_over_last B dss : forall acc m,
  first_over B acc dss = Some m ->
  List.length dss = S m ->
  float_gt acc B = false ->
  within B acc dss = true /\
  float_gt (add_all acc (concat dss)) B = true.
Proof.
  induction dss as [|ds rest IH]; intros acc m Hfirst Hlen Hin; [done|].
  cbn [first_over] in Hfirst. cbn [within concat]. rewrite Hin. cbn [negb].
  rewrite <- add_all_app.
  destruct (float_gt (add_all acc ds) B) eqn:Hover.
  - injection Hfirst as <-. destruct rest; [|done].
    split; [done|]. exact Hover.
  - destruct (first_over B (add_all acc ds) rest) as [m'|] eqn:Hrest; [|done].
    injection Hfirst as <-. cbn in Hlen.
    apply (IH (add_all acc ds) m'); [done | lia | done].
Qed.

Section Accounting.

Variable tts_module : TTSModule.t.
Variable process_text : string -> string.
Variable write_audiofile : list (string * float) -> float.

Local Abbreviation call_tts := (TTSEngine.call_tts tts_module).
Local Abbreviation split_loop := (TTSEngine.split_loop tts_module process_text).
Local Abbreviation split_post :=
  (TTSEngine.split_post tts_module process_text write_audiofile).
Local Abbreviation comments_loop :=
  (TTSEngine.comments_loop tts_module process_text write_audiofile).
Local Abbreviation max_chars := (TTSModule.max_chars tts_module).

(** What one synthesis does to the accumulators. *)
Lemma call_tts_state self filename text split :
  TTSEngine.length (fst (call_tts self filename text split))
  = add_clip (TTSEngine.length self) (direct_clip tts_module filename text) /\
  TTSEngine.max_length (fst (call_tts self filename text split))
  = TTSEngine.max_length self /\
  TTSEngine.last_clip_length (fst (call_tts self filename text split))
  = default (TTSEngine.last_clip_length self)
            (direct_clip tts_module filename text) /\
  TTSEngine.racked_up_split_length (fst (call_tts self filename text split))
  = (if split
     then add_clip (TTSEngine.racked_up_split_length self)
            (direct_clip tts_module filename text)
     else TTSEngine.racked_up_split_length self).
Proof.
  unfold direct_clip.
  destruct (TTSModule.run tts_module text (filename +:+ ".mp3")) as [d|] eqn:Hr.
  - rewrite (call_tts_ok _ _ _ _ _ _ Hr). cbn. by destruct split.
  - rewrite (call_tts_fail _ _ _ _ _ Hr). cbn. by destruct split.
Qed.

(** The chunk loop and the accumulators.  [length] and
    [racked_up_split_length] grow by the same durations, one part after
    the other; when a part fails, the whole of [racked_up_split_length]
    is subtracted from [length], whatever it held when the loop was
    entered, and it is left as it is. *)
Lemma split_loop_spec pieces : forall self idx idy offset split_files,
  let parts :=
    numbered_parts idx (idy - offset) (kept_texts process_text pieces) in
  let ds := fst (synthesized tts_module parts) in
  let r := split_loop self idx idy offset pieces split_files in
  TTSEngine.max_length (fst r) = TTSEngine.max_length self /\
  TTSEngine.racked_up_split_length (fst r)
  = add_all (TTSEngine.racked_up_split_length self) ds /\
  TTSEngine.last_clip_length (fst r)
  = default (TTSEngine.last_clip_length self) (last ds) /\
  if snd (synthesized tts_module parts)
  then TTSEngine.length (fst r) = add_all (TTSEngine.length self) ds /\
       exists clips, snd r = Some (split_files ++ clips) /\
                     map snd clips = ds /\ map fst clips = map fst parts
  else TTSEngine.length (fst r)
       = (add_all (TTSEngine.length self) ds
          - add_all (TTSEngine.racked_up_split_length self) ds)%float /\
       snd r = None.
Proof.
  induction pieces as [|text_cut rest IH]; intros self idx idy offset sf.
  - cbn. repeat split; try done. exists []. by rewrite app_nil_r.
  - unfold kept_texts. cbn [TTSEngine.split_loop map List.filter].
    fold (kept_texts process_text rest).
    destruct (blank (process_text text_cut)) eqn:Hb; cbn [negb].
    + specialize (IH self idx (idy + 1)%Z (offset + 1)%Z sf).
      by replace (idy + 1 - (offset + 1))%Z with (idy - offset)%Z in IH by lia.
    + rewrite numbered_parts_cons. cbn [synthesized].
      destruct (TTSModule.run tts_module (process_text text_cut)
                  (part_name idx (idy - offset) +:+ ".mp3")) as [d|] eqn:Hr.
      * rewrite (call_tts_ok _ _ _ _ _ _ Hr).
        match goal with
        | |- context [TTSEngine.split_loop _ _ ?s _ _ _ _ ?f] =>
            specialize (IH s idx (idy + 1)%Z offset f)
        end.
        replace (idy + 1 - offset)%Z with (idy - offset + 1)%Z in IH by lia.
        cbn zeta in IH |- *.
        cbn [TTSEngine.max_length TTSEngine.racked_up_split_length
             TTSEngine.last_clip_length TTSEngine.length fst snd] in IH |- *.
        destruct IH as (Hmax & Hracked & Hlast & Hrest).
        split; [done|]. split; [done|].
        split; [by rewrite default_last_cons|].
        destruct (snd (synthesized tts_module
                         (numbered_parts idx (idy - offset + 1)
                            (kept_texts process_text rest)))).
        -- destruct Hrest as (Hlen & clips & Hsnd & Hds & Hnames).
           split; [done|].
           exists ((part_name idx (idy - offset) +:+ ".mp3", d) :: clips).
           rewrite Hsnd, <- (assoc_L (++)). cbn [map fst snd app].
           by rewrite Hds, Hnames.
        -- done.
      * rewrite (call_tts_fail _ _ _ _ _ Hr). by cbn.
Qed.

Lemma part_durations_Some parts ds :
  part_durations tts_module parts = Some ds <->
  snd (synthesized tts_module parts) = true /\
  fst (synthesized tts_module parts) = ds.
Proof.
  unfold part_durations. destruct (snd (synthesized tts_module parts)).
  - split; [by intros [= <-] | by intros [_ <-]].
  - split; [done | by intros [? _]].
Qed.

(** [split_post] on a comment all of whose parts are synthesised (and
    which has at least one): the parts are added one by one, the
    speculative total is back at zero, and [last_clip_length] is the
    duration of the last part only. *)
Lemma split_post_all_ok self i c d ds :
  part_durations tts_module (parts_of tts_module process_text i c)
  = Some (d :: ds) ->
  exists self' clips,
    split_post self (comment_body c) i = Some self' /\
    TTSEngine.length self' = add_all (TTSEngine.length self) (d :: ds) /\
    TTSEngine.max_length self' = TTSEngine.max_length self /\
    TTSEngine.racked_up_split_length self' = 0%float /\
    TTSEngine.last_clip_length self'
    = default (TTSEngine.last_clip_length self) (last (d :: ds)) /\
    map snd clips = d :: ds /\
    map fst clips = map fst (parts_of tts_module process_text i c) /\
    TTSEngine.files self'
    = foldl (fun fs clip => delete (fst clip) fs)
        (<[pretty i +:+ ".mp3" := write_audiofile clips]>
           (TTSEngine.files
              (fst (split_loop self i 0 0
                      (split_text max_chars (comment_body c)) []))))
        clips.
Proof.
  intros [Hok Hds]%part_durations_Some. unfold parts_of in Hok, Hds.
  pose proof (split_loop_spec (split_text max_chars (comment_body c))
                self i 0%Z 0%Z []) as Hspec.
  cbn zeta in Hspec. change (0 - 0)%Z with 0%Z in Hspec.
  rewrite Hok, Hds in Hspec.
  destruct Hspec as (Hmax & _ & Hlast & Hlen & clips & Hsnd & Hclips & Hnames).
  unfold TTSEngine.split_post.
  destruct (split_loop self i 0 0 (split_text max_chars (comment_body c)) [])
    as [self1 res]. cbn [fst snd app] in *. subst res.
  destruct clips as [|clip clips]; [discriminate|].
  eexists _, (clip :: clips). split; [reflexivity|]. by cbn.
Qed.

(** [split_post] on a comment one of whose parts fails. *)
Lemma split_post_failed self i c :
  snd (synthesized tts_module (parts_of tts_module process_text i c)) = false ->
  let ds := fst (synthesized tts_module (parts_of tts_module process_text i c)) in
  split_post self (comment_body c) i
  = Some (fst (split_loop self i 0 0
                 (split_text max_chars (comment_body c)) [])) /\
  TTSEngine.length
    (fst (split_loop self i 0 0 (split_text max_chars (comment_body c)) []))
  = (add_all (TTSEngine.length self) ds
     - add_all (TTSEngine.racked_up_split_length self) ds)%float /\
  TTSEngine.racked_up_split_length
    (fst (split_loop self i 0 0 (split_text max_chars (comment_body c)) []))
  = add_all (TTSEngine.racked_up_split_length self) ds /\
  TTSEngine.max_length
    (fst (split_loop self i 0 0 (split_text max_chars (comment_body c)) []))
  = TTSEngine.max_length self /\
  TTSEngine.last_clip_length
    (fst (split_loop self i 0 0 (split_text max_chars (comment_body c)) []))
  = default (TTSEngine.last_clip_length self) (last ds).
Proof.
  intros Hfail. unfold parts_of in Hfail |- *. cbn zeta.
  pose proof (split_loop_spec (split_text max_chars (comment_body c))
                self i 0%Z 0%Z []) as Hspec.
  cbn zeta in Hspec. change (0 - 0)%Z with 0%Z in Hspec.
  rewrite Hfail in Hspec.
  destruct Hspec as (Hmax & Hracked & Hlast & Hlen & Hsnd).
  unfold TTSEngine.split_post.
  destruct (split_loop self i 0 0 (split_text max_chars (comment_body c)) [])
    as [self1 res]. cbn [fst snd] in *. by subst res.
Qed.

Lemma contributions_length cs : forall i dss,
  contributions tts_module process_text i cs = Some dss ->
  List.length dss = List.length cs.
Proof.
  induction cs as [|c rest IH]; intros i dss; cbn.
  - by intros [= <-].
  - destruct (comment_durations tts_module process_text i c); [|done].
    destruct (contributions tts_module process_text (S i) rest) eqn:E; [|done].
    intros [= <-]. cbn. f_equal. eauto.
Qed.

Lemma contributions_lookup cs : forall i dss j c,
  contributions tts_module process_text i cs = Some dss ->
  cs !! j = Some c ->
  exists ds, dss !! j = Some ds /\
             comment_durations tts_module process_text (i + j) c = Some ds.
Proof.
  induction cs as [|c0 rest IH]; intros i dss j c; cbn; [done|].
  destruct (comment_durations tts_module process_text i c0) as [ds0|] eqn:Hd;
    [|done].
  destruct (contributions tts_module process_text (S i) rest) as [dss'|] eqn:E;
    [|done].
  intros [= <-]. destruct j as [|j]; cbn.
  - intros [= <-]. rewrite Nat.add_0_r. eauto.
  - intros Hc. replace (i + S j)%nat with (S i + j)%nat by lia. eauto.
Qed.

(** One iteration of the comment loop, entered within budget. *)
Lemma comments_loop_step c rest self i idx ds :
  comment_durations tts_module process_text i c = Some ds ->
  float_gt (TTSEngine.length self) (TTSEngine.max_length self) = false ->
  exists self1,
    comments_loop self i (c :: rest) idx
    = comments_loop self1 (S i) rest (Some (Z.of_nat i)) /\
    TTSEngine.length self1 = add_all (TTSEngine.length self) ds /\
    TTSEngine.max_length self1 = TTSEngine.max_length self /\
    TTSEngine.last_clip_length self1
    = default (TTSEngine.last_clip_length self) (last ds).
Proof.
  intros Hd Hin. cbn [TTSEngine.comments_loop]. rewrite Hin.
  unfold comment_durations in Hd. unfold chunked in *.
  destruct (max_chars <? String.length (comment_body c))%nat.
  - destruct (part_durations tts_module
                (parts_of tts_module process_text i c))
      as [[|d1 ds1]|] eqn:Hp; try done.
    injection Hd as <-.
    destruct (split_post_all_ok self i c d1 ds1 Hp)
      as (self1 & clips & -> & Hl & Hb & _ & Hlast & _).
    exists self1. done.
  - injection Hd as <-.
    destruct (call_tts_state self (pretty i) (process_text (comment_body c))
                false) as (Hl & Hb & Hlast & _).
    eexists. split; [reflexivity|]. rewrite Hl, Hb, Hlast.
    split; [apply add_clip_list|]. split; [done|].
    by destruct (direct_clip _ _ _).
Qed.

(** The comment loop through a list of comments before each of which the
    budget test passes. *)
Lemma comments_loop_run pre : forall rest self i idx dss,
  contributions tts_module process_text i pre = Some dss ->
  within (TTSEngine.max_length self) (TTSEngine.length self) dss = true ->
  exists self',
    comments_loop self i (pre ++ rest) idx
    = comments_loop self' (i + List.length pre) rest
        (match pre with
         | [] => idx
         | _ => Some (Z.of_nat (i + List.length pre) - 1)%Z
         end) /\
    TTSEngine.length self' = add_all (TTSEngine.length self) (concat dss) /\
    TTSEngine.max_length self' = TTSEngine.max_length self /\
    TTSEngine.last_clip_length self'
    = default (TTSEngine.last_clip_length self) (last (concat dss)).
Proof.
  induction pre as [|c pre IH]; intros rest self i idx dss Hds Hin.
  - cbn in Hds. injection Hds as <-. exists self. cbn.
    by rewrite Nat.add_0_r.
  - cbn [contributions] in Hds.
    destruct (comment_durations tts_module process_text i c)
      as [ds|] eqn:Hd; [|done].
    destruct (contributions tts_module process_text (S i) pre)
      as [dss'|] eqn:Hds'; [|done].
    injection Hds as <-. cbn [within] in Hin.
    apply andb_true_iff in Hin as [Hin0%negb_true_iff Hin1].
    cbn [app].
    destruct (comments_loop_step c (pre ++ rest) self i idx ds Hd Hin0)
      as (self1 & -> & Hl & Hb & Hlast).
    destruct (IH rest self1 (S i) (Some (Z.of_nat i)) dss' Hds')
      as (self' & -> & Hl' & Hb' & Hlast'); [by rewrite Hb, Hl|].
    exists self'. cbn [List.length concat].
    replace (S i + List.length pre)%nat with (i + S (List.length pre))%nat
      by lia.
    split; [|split; [|split]].
    + f_equal. destruct pre; [|done]. cbn. f_equal. lia.
    + by rewrite Hl', Hl, add_all_app.
    + by rewrite Hb', Hb.
    + by rewrite Hlast', Hlast, default_last_app.
Qed.




End Accounting.
Section Run.

Variable tts_module : TTSModule.t.
Variable process_text : string -> string.
Variable write_audiofile : list (string * float) -> float.
Variable storymode : bool.

Local Abbreviation run :=
  (TTSEngine.run tts_module process_text write_audiofile storymode).
Local Abbreviation comments_loop :=
  (TTSEngine.comments_loop tts_module process_text write_audiofile).
Local Abbreviation head_of :=
  (head_contribution tts_module process_text storymode).
Local Abbreviation contributions := (contributions tts_module process_text).
Local Abbreviation outcomes := (outcomes tts_module process_text).

(** The state in which the comment loop starts. *)
Lemma run_head self thread :
  TTSEngine.length self = 0%float ->
  exists self0,
    run self thread
    = match comments_loop self0 0 (comments thread) None with
      | Some (final, idx) => Some (final, (TTSEngine.length final, idx))
      | None => None
      end /\
    TTSEngine.length self0 = head_of thread /\
    TTSEngine.max_length self0 = TTSEngine.max_length self /\
    TTSEngine.racked_up_split_length self0
    = TTSEngine.racked_up_split_length self.
Proof.
  intros H0. unfold TTSEngine.run, head_contribution.
  set (s0 := TTSEngine.set_files _ self).
  destruct (call_tts_state tts_module s0 "title"
              (process_text (thread_title thread)) false)
    as (Hl1 & Hb1 & _ & Hr1).
  set (s1 := fst (TTSEngine.call_tts tts_module s0 "title" _ false)) in *.
  assert (Hs0 : TTSEngine.length s0 = 0%float) by (subst s0; by cbn).
  rewrite Hs0 in Hl1.
  destruct (negb (String.eqb (process_text (thread_post thread))
                             String.EmptyString) && storymode).
  - destruct (call_tts_state tts_module s1 "posttext"
                (process_text (thread_post thread)) false)
      as (Hl2 & Hb2 & _ & Hr2).
    eexists. split; [reflexivity|]. split; [by rewrite Hl2, Hl1|].
    split; [by rewrite Hb2, Hb1|]. by rewrite Hr2, Hr1.
  - exists s1. split; [reflexivity|]. split; [done|].
    split; [by rewrite Hb1|]. by rewrite Hr1.
Qed.

(** A run whose loop goes through all comments. *)
Lemma run_to_end self thread dss :
  TTSEngine.length self = 0%float ->
  contributions 0 (comments thread) = Some dss ->
  within (TTSEngine.max_length self) (head_of thread) dss = true ->
  returns (run self thread)
    (add_all (head_of thread) (concat dss))
    (last_index (List.length (comments thread))).
Proof.
  intros H0 Hds Hin.
  destruct (run_head self thread H0) as (self0 & -> & Hl & Hb & _).
  destruct (comments_loop_run tts_module process_text write_audiofile
              (comments thread) [] self0 0 None dss Hds)
    as (self' & Hloop & Hl' & _); [by rewrite Hb, Hl|].
  rewrite app_nil_r in Hloop. rewrite Hloop. cbn [TTSEngine.comments_loop].
  exists self', (TTSEngine.length self'). split; [|by rewrite Hl', Hl].
  destruct (comments thread) as [|c cs]; [done|].
  cbn [List.length last_index Nat.add]. do 4 f_equal. lia.
Qed.

(** A run that the budget test stops one iteration after comment [m]. *)
Lemma run_budget_stop self thread dss m c :
  TTSEngine.length self = 0%float ->
  float_gt (head_of thread) (TTSEngine.max_length self) = false ->
  contributions 0 (take (S m) (comments thread)) = Some dss ->
  first_over (TTSEngine.max_length self) (head_of thread) dss = Some m ->
  (S m < List.length (comments thread))%nat ->
  comments thread !! m = Some c ->
  chunked tts_module c = false ->
  exists d,
    direct_clip tts_module (pretty m) (process_text (comment_body c)) = Some d /\
    dss !! m = Some [d] /\
    returns (run self thread)
      (add_all (head_of thread) (concat (take m dss)) + d - d)%float
      (Some (Z.of_nat m)).
Proof.
  intros H0 Hhead Hds Hfirst Hm Hc Hdirect.
  pose proof (contributions_length _ _ _ _ _ Hds) as Hlen.
  rewrite length_take, Nat.min_l in Hlen by lia.
  destruct (first_over_last _ _ _ _ Hfirst Hlen Hhead) as [Hin Hover].
  (* comment [m] and what it adds *)
  destruct (contributions_lookup _ _ _ _ _ m c Hds) as (dm & Hdm & Hcm).
  { rewrite lookup_take_lt by lia. done. }
  cbn [Nat.add] in Hcm.
  assert (Hsplit : dss = take m dss ++ [dm]).
  { rewrite <- (take_S_r _ _ _ Hdm). by rewrite take_ge by lia. }
  assert (Hbefore : float_gt (add_all (head_of thread) (concat (take m dss)))
                      (TTSEngine.max_length self) = false).
  { rewrite Hsplit, within_snoc in Hin.
    by apply andb_true_iff in Hin as [_ Hin%negb_true_iff]. }
  unfold comment_durations in Hcm. rewrite Hdirect in Hcm.
  injection Hcm as Hcm.
  destruct (direct_clip tts_module (pretty m) (process_text (comment_body c)))
    as [d|]; cbn [option_list] in Hcm; subst dm.
  2:{ rewrite Hsplit, concat_app in Hover. cbn [concat] in Hover.
      rewrite !app_nil_r in Hover. congruence. }
  exists d. split; [done|]. split; [done|].
  (* the run *)
  destruct (run_head self thread H0) as (self0 & -> & Hl & Hb & _).
  destruct (drop (S m) (comments thread)) as [|next post] eqn:Hdrop.
  { apply (f_equal List.length) in Hdrop. rewrite length_drop in Hdrop.
    cbn in Hdrop. lia. }
  destruct (comments_loop_run tts_module process_text write_audiofile
              (take (S m) (comments thread)) (next :: post) self0 0 None dss Hds)
    as (self' & Hloop & Hl' & Hb' & Hlast); [by rewrite Hb, Hl|].
  rewrite <- Hdrop, take_drop in Hloop. rewrite Hloop, Hdrop.
  cbn [TTSEngine.comments_loop].
  rewrite Hl', Hb', Hl, Hb, Hover.
  rewrite length_take, Nat.min_l by lia. cbn [Nat.add].
  eexists _, _. split.
  - do 4 f_equal. lia.
  - cbn [TTSEngine.length TTSEngine.set_length].
    assert (Hcat : concat dss = concat (take m dss) ++ [d]).
    { rewrite Hsplit at 1. rewrite concat_app. cbn [concat].
      by rewrite app_nil_r. }
    by rewrite Hlast, Hcat, last_snoc, add_all_snoc.
Qed.



(** C2, as the code has it.  Take a run on a fresh engine in which the
    title and post text stay within the budget, and look at comments
    [0 .. m] only: each of them is synthesised directly or has all its
    parts synthesised ([dss] lists what each adds to the total, in
    order), the running total, added up as the engine adds it, first
    exceeds the budget with comment [m], comment [m] is not the last
    comment of the thread and was synthesised directly.  Then comment [m]
    gave a clip, of some duration [d]; [run] returns index [m] (the
    compositor reads clips [0..m-1]); and the total it returns is the
    running total through comment [m] less [d]: [(t + d) - d], where [t]
    is the total of title, post text and comments [0..m-1].  In floating
    point this need not be [t] itself. *)
Theorem run_evicts_first_comment_over_budget
    (self : TTSEngine.t) (thread : reddit_object) (dss : list (list float))
    (m : nat) (c : comment) :
  TTSEngine.length self = 0%float ->
  float_gt (head_of thread) (TTSEngine.max_length self) = false ->
  contributions 0 (take (S m) (comments thread)) = Some dss ->
  first_over (TTSEngine.max_length self) (head_of thread) dss = Some m ->
  (S m < List.length (comments thread))%nat ->
  comments thread !! m = Some c ->
  chunked tts_module c = false ->
  exists d,
    direct_clip tts_module (pretty m) (process_text (comment_body c)) = Some d /\
    dss !! m = Some [d] /\
    returns (run self thread)
      (add_all (head_of thread) (concat (take m dss)) + d - d)%float
      (Some (Z.of_nat m)).
Proof. apply run_budget_stop. Qed.


End Run.

(** ** The examples *)

Ltac by_evaluation :=
  vm_compute; first [reflexivity | discriminate | intro; discriminate].

Ltac returns_by_evaluation :=
  eexists _, _; split; [vm_compute; reflexivity | by_evaluation].

Lemma returns_inj r total idx total' idx' :
  returns r total idx -> returns r total' idx' ->
  idx = idx' /\ total = total'.
Proof.
  intros (f & t & -> & Ht) (f' & t' & [= <- <- <-] & Ht').
  split; [done|]. by rewrite <- Ht, <- Ht'.
Qed.

(** C1, as the code has it.  Title 2.0 s, no post text, three comments of
    3.0 s, budget 7.0 s.  After the title the total is 2.0; comment 0
    takes it to 5.0 and comment 1 to 8.0; the iteration of comment 2 finds
    the budget exceeded, takes comment 1 back and stops before any
    synthesis.  [run] returns the total 5.0 and the index 1: the index of
    the comment taken back, which the compositor uses as the number of
    clips, so that comment 0 is the last one kept. *)
Theorem end_to_end_example :
  returns (short_run []) 2.0 None /\
  returns (short_run ["first"]) 5.0 (Some 0%Z) /\
  returns (short_run ["first"; "second"]) 8.0 (Some 1%Z) /\
  returns (short_run ["first"; "second"; "third"]) 5.0 (Some 1%Z) /\
  option_map TTSEngine.tts_calls
    (final_engine (short_run ["first"; "second"; "third"]))
  = Some [("title.mp3", "Title"); ("0.mp3", "first"); ("1.mp3", "second")].
Proof.
  split; [returns_by_evaluation|]. split; [returns_by_evaluation|].
  split; [returns_by_evaluation|]. split; [returns_by_evaluation|].
  vm_compute. reflexivity.
Qed.

(** C1, as the claim has it, fails: the index returned is not 0. *)
Lemma end_to_end_example_index_not_0 :
  ~ returns (short_run ["first"; "second"; "third"]) 5.0 (Some 0%Z).
Proof.
  intros H.
  assert (H1 : returns (short_run ["first"; "second"; "third"]) 5.0 (Some 1%Z))
    by returns_by_evaluation.
  destruct (returns_inj _ _ _ _ _ H H1) as [[=] _].
Qed.

(** C2, as the claim has it, fails when the comment that takes the total
    over the budget is the last one.  Title 2.0 s, comments of 3.0 s and
    3.0 s, budget 7.0 s: the total first exceeds the budget with comment
    1, every synthesis succeeds, and [run] returns 8.0, not 2.0 + 3.0:
    there is no further iteration to take comment 1 back. *)
Lemma last_comment_over_budget_is_kept :
  contributions short_tts plain_text 0
    (comments (thread_of "Title" ["first"; "second"]))
  = Some [[3.0%float]; [3.0%float]] /\
  first_over 7.0 (head_contribution short_tts plain_text false
                    (thread_of "Title" ["first"; "second"]))
    [[3.0%float]; [3.0%float]] = Some 1%nat /\
  returns (short_run ["first"; "second"]) 8.0 (Some 1%Z) /\
  ~ (exists idx, returns (short_run ["first"; "second"]) (2.0 + 3.0) idx).
Proof.
  split; [by_evaluation|]. split; [by_evaluation|].
  assert (H1 : returns (short_run ["first"; "second"]) 8.0 (Some 1%Z))
    by returns_by_evaluation.
  split; [exact H1|]. intros [idx H].
  destruct (returns_inj _ _ _ _ _ H H1) as [_ Hq].
  revert Hq. by_evaluation.
Qed.

Lemma run_evicts_first_comment_over_budget_witness :
  TTSEngine.length (TTSEngine.init ∅ 7.0 0) = 0%float /\
  float_gt (head_contribution short_tts plain_text false
              (thread_of "Title" ["first"; "second"; "third"]))
    (TTSEngine.max_length (TTSEngine.init ∅ 7.0 0)) = false /\
  contributions short_tts plain_text 0
    (take 2 (comments (thread_of "Title" ["first"; "second"; "third"])))
  = Some [[3.0%float]; [3.0%float]] /\
  first_over (TTSEngine.max_length (TTSEngine.init ∅ 7.0 0))
    (head_contribution short_tts plain_text false
       (thread_of "Title" ["first"; "second"; "third"]))
    [[3.0%float]; [3.0%float]] = Some 1%nat /\
  exists d,
    direct_clip short_tts (pretty 1%nat)
      (plain_text (comment_body (Build_comment "second"))) = Some d /\
    [[3.0%float]; [3.0%float]] !! 1%nat = Some [d] /\
    returns (short_run ["first"; "second"; "third"])
      (add_all (head_contribution short_tts plain_text false
                  (thread_of "Title" ["first"; "second"; "third"]))
         (concat (take 1 [[3.0%float]; [3.0%float]])) + d - d)%float
      (Some (Z.of_nat 1)).
Proof.
  split; [reflexivity|]. split; [by_evaluation|].
  split; [by_evaluation|]. split; [by_evaluation|].
  apply (run_evicts_first_comment_over_budget short_tts plain_text
           exact_encoder false (TTSEngine.init ∅ 7.0 0)
           (thread_of "Title" ["first"; "second"; "third"])
           [[3.0%float]; [3.0%float]] 1 (Build_comment "second")).
  - reflexivity.
  - by_evaluation.
  - by_evaluation.
  - by_evaluation.
  - simpl. lia.
  - reflexivity.
  - reflexivity.
Defined.



(** A run with a split comment that fails, in which the total comes out
    right.  Title 4.0 s; comment 0 is split and fails after a first part
    of 2.0 s; comments 1 and 2 last 1.0 s each; budget 50 s.  The total
    returned is ((4.0 + 2.0) - (0 + 2.0)) + 1.0 + 1.0 = 6.0. *)
Example failed_split_comment_is_taken_back :
  outcomes parts_tts plain_text 0
    (comments (thread_of "Title" ["aaaa. bbbb. cccc."; "x"; "x"]))
  = Some [Failed [2.0%float]; Direct (Some 1.0%float);
          Direct (Some 1.0%float)] /\
  foldl account 4.0%float
    [Failed [2.0%float]; Direct (Some 1.0%float); Direct (Some 1.0%float)]
  = 6.0%float /\
  returns (parts_run 50 ["aaaa. bbbb. cccc."; "x"; "x"]) 6.0 (Some 2%Z).
Proof.
  split; [by_evaluation|]. split; [by_evaluation|]. returns_by_evaluation.
Qed.

(** The sums are those of the floats.  Title 0.1 s, comments of 0.2 s,
    0.3 s and 0.4 s, budget 0.3 s: the title and comment 0 add up to
    0.30000000000000004, which exceeds the budget, so the iteration of
    comment 1 stops the loop; taking back the 0.2 s of comment 0 leaves
    0.10000000000000003, not the 0.1 s of the title. *)
Example budget_stop_leaves_rounding :
  head_contribution tenths_tts plain_text false tenths_thread = 0.1%float /\
  first_over 0.3 0.1 [[0.2%float]] = Some 0%nat /\
  returns tenths_run 0.10000000000000003 (Some 0%Z) /\
  ~ returns tenths_run 0.1 (Some 0%Z).
Proof.
  split; [by_evaluation|]. split; [by_evaluation|].
  assert (H1 : returns tenths_run 0.10000000000000003 (Some 0%Z))
    by returns_by_evaluation.
  split; [exact H1|]. intros H.
  destruct (returns_inj _ _ _ _ _ H H1) as [_ Hq].
  revert Hq. by_evaluation.
Qed.

(** A split comment that fails after its first part, on a fresh engine:
    the 0.2 s of the part are added to the 0.1 s of the title and
    subtracted again, which leaves 0.10000000000000003. *)
Example failed_split_comment_leaves_rounding :
  returns
    (TTSEngine.run rounding_parts_tts plain_text exact_encoder false
       (TTSEngine.init ∅ 50 0) (thread_of "Title" ["aaaa. bbbb. cccc."]))
    0.10000000000000003 (Some 0%Z) /\
  ~ returns
      (TTSEngine.run rounding_parts_tts plain_text exact_encoder false
         (TTSEngine.init ∅ 50 0) (thread_of "Title" ["aaaa. bbbb. cccc."]))
      0.1 (Some 0%Z).
Proof.
  assert (H1 : returns
                 (TTSEngine.run rounding_parts_tts plain_text exact_encoder
                    false (TTSEngine.init ∅ 50 0)
                    (thread_of "Title" ["aaaa. bbbb. cccc."]))
                 0.10000000000000003 (Some 0%Z))
    by returns_by_evaluation.
  split; [exact H1|]. intros H.
  destruct (returns_inj _ _ _ _ _ H H1) as [_ Hq].
  revert Hq. by_evaluation.
Qed.

(** C3, at a failing input.  [max_chars = 5]; comment 0 is
    ["aaaa. bbbb. cccc."] and comment 1 is ["dddd. bbbb. cccc."]; the
    module produces no clip for ["bbbb."], so both comments fail on part 2
    of 3.  Before comment 1 the total is 4.0 (the title: the first failure
    was undone).  After comment 1 it is 2.0, not 4.0: the amount left in
    [racked_up_split_length] by comment 0 is subtracted again.  The first
    parts of both comments are still in the run directory. *)
Theorem second_failed_split_comment_is_not_undone :
  returns (parts_run 50 ["aaaa. bbbb. cccc."]) 4.0 (Some 0%Z) /\
  returns (parts_run 50 ["aaaa. bbbb. cccc."; "dddd. bbbb. cccc."])
    2.0 (Some 1%Z) /\
  exists final,
    final_engine (parts_run 50 ["aaaa. bbbb. cccc."; "dddd. bbbb. cccc."])
    = Some final /\
    TTSEngine.files final !! "0-0.part.mp3" = Some 2.0%float /\
    TTSEngine.files final !! "1-0.part.mp3" = Some 3.0%float /\
    TTSEngine.files final !! "1.mp3" = None.
Proof.
  split; [returns_by_evaluation|]. split; [returns_by_evaluation|].
  eexists. split; [vm_compute; reflexivity|].
  split; [by_evaluation|]. split; by_evaluation.
Qed.

(** C4, at a failing input.  After the split comment
    ["aaaa. bbbb. cccc."] has failed on its second part,
    [racked_up_split_length] still holds the 2.0 s of the first part: the
    [return] of the failure path does not pass the reset that the success
    path performs.  The next split comment starts from that value. *)
Theorem failed_split_comment_leaves_speculative_total :
  exists final,
    final_engine (parts_run 50 ["aaaa. bbbb. cccc."]) = Some final /\
    TTSEngine.racked_up_split_length final = 2.0%float /\
    TTSEngine.racked_up_split_length final <> 0%float.
Proof.
  eexists. split; [vm_compute; reflexivity|]. split; by_evaluation.
Qed.

(** C6, at a failing input.  [max_chars = 5], budget 5.0 s, title 4.0 s;
    comment 0 is ["aaaa. cccc."], whose two parts last 2.0 s and 1.0 s and
    are both synthesised.  After it the total is 7.0 and
    [last_clip_length] is 1.0, the last part alone, not the 3.0 the
    comment added.  The iteration of comment 1 finds the budget exceeded
    and takes 1.0 back: [run] returns 6.0, where taking the whole comment
    back would give 4.0. *)
Theorem split_comment_is_taken_back_in_part :
  (exists d,
      comment_contribution parts_tts plain_text 0 (Build_comment "aaaa. cccc.")
      = Some d /\ d = 3.0%float) /\
  returns (parts_run 5 ["aaaa. cccc."]) 7.0 (Some 0%Z) /\
  (exists final,
      final_engine (parts_run 5 ["aaaa. cccc."]) = Some final /\
      TTSEngine.last_clip_length final = 1.0%float) /\
  returns (parts_run 5 ["aaaa. cccc."; "x"]) 6.0 (Some 0%Z) /\
  ~ returns (parts_run 5 ["aaaa. cccc."; "x"]) 4.0 (Some 0%Z).
Proof.
  split; [eexists; split; [vm_compute; reflexivity | by_evaluation]|].
  split; [returns_by_evaluation|].
  split; [eexists; split; [vm_compute; reflexivity | by_evaluation]|].
  assert (H1 : returns (parts_run 5 ["aaaa. cccc."; "x"]) 6.0 (Some 0%Z))
    by returns_by_evaluation.
  split; [exact H1|]. intros H.
  destruct (returns_inj _ _ _ _ _ H H1) as [_ Hq].
  revert Hq. by_evaluation.
Qed.

Lemma call_tts_failed_probe_adds_nothing_witness :
  TTSEngine.files
    (TTSEngine.tts_run silent_tts ("0" +:+ ".mp3") "hello"
       (TTSEngine.mk 1 50 4 3 ∅ []))
    !! ("0" +:+ ".mp3") = None /\
  snd (TTSEngine.call_tts silent_tts (TTSEngine.mk 1 50 4 3 ∅ [])
         "0" "hello" true) = false /\
  TTSEngine.length
    (fst (TTSEngine.call_tts silent_tts (TTSEngine.mk 1 50 4 3 ∅ [])
            "0" "hello" true))
  = TTSEngine.length (TTSEngine.mk 1 50 4 3 ∅ []) /\
  TTSEngine.last_clip_length
    (fst (TTSEngine.call_tts silent_tts (TTSEngine.mk 1 50 4 3 ∅ [])
            "0" "hello" true))
  = TTSEngine.last_clip_length (TTSEngine.mk 1 50 4 3 ∅ []) /\
  TTSEngine.racked_up_split_length
    (fst (TTSEngine.call_tts silent_tts (TTSEngine.mk 1 50 4 3 ∅ [])
            "0" "hello" true))
  = TTSEngine.racked_up_split_length (TTSEngine.mk 1 50 4 3 ∅ []).
Proof.
  split; [vm_compute; reflexivity|].
  apply (call_tts_failed_probe_adds_nothing silent_tts
           (TTSEngine.mk 1 50 4 3 ∅ []) "0" "hello" true).
  vm_compute. reflexivity.
Defined.

Lemma split_loop_chunks_not_blank_witness :
  blank (plain_text String.EmptyString) = true /\
  kept_texts plain_text
    (split_text (TTSModule.max_chars (tts_table 2 [("a.", 1.0%float)])) "a.   ")
  = kept_texts plain_text
      (List.filter (fun piece => negb (String.eqb piece String.EmptyString))
         (split_text (TTSModule.max_chars (tts_table 2 [("a.", 1.0%float)]))
            "a.   ")).
Proof.
  split; [reflexivity|].
  destruct (split_loop_chunks_not_blank (tts_table 2 [("a.", 1.0%float)])
              plain_text (TTSEngine.init ∅ 50 0) 0 "a.   ")
    as (_ & _ & Hkept & _).
  apply Hkept. reflexivity.
Defined.

Lemma split_loop_numbers_gap_free_witness :
  snd (TTSEngine.split_loop (tts_table 2 [("a.", 1.0%float)]) plain_text
         (TTSEngine.init ∅ 50 0) 7 0 0 ["a."; String.EmptyString; "a."] [])
  = Some [("7-0.part.mp3", 1.0%float); ("7-1.part.mp3", 1.0%float)] /\
  exists k,
    k = List.length
          (kept_texts plain_text ["a."; String.EmptyString; "a."]) /\
    map fst [("7-0.part.mp3", 1.0%float); ("7-1.part.mp3", 1.0%float)]
    = map (fun j => part_name 7 (Z.of_nat j) +:+ ".mp3") (seq 0 k).
Proof.
  split; [vm_compute; reflexivity|].
  destruct (split_loop_numbers_gap_free (tts_table 2 [("a.", 1.0%float)])
              plain_text (TTSEngine.init ∅ 50 0) 7
              ["a."; String.EmptyString; "a."])
    as (k & _ & _ & Hend).
  exists k. apply Hend. vm_compute. reflexivity.
Defined.

(** ** File names *)

Lemma pretty_N_char_digit x : is_digit (pretty_N_char x) = true.
Proof. unfold pretty_N_char. by repeat case_match. Qed.

Lemma pretty_N_go_digits x : forall s,
  all_digits s = true -> all_digits (pretty_N_go x s) = true.
Proof.
  induction (N.lt_wf_0 x) as [x _ IH]; intros s Hs.
  assert (x = 0 \/ 0 < x)%N as [->|Hx] by lia.
  - by rewrite pretty_N_go_0.
  - rewrite pretty_N_go_step by done. apply IH; [by apply N.div_lt|].
    cbn. by rewrite pretty_N_char_digit.
Qed.

Lemma pretty_N_go_nonempty x : forall s,
  s <> String.EmptyString -> pretty_N_go x s <> String.EmptyString.
Proof.
  induction (N.lt_wf_0 x) as [x _ IH]; intros s Hs.
  assert (x = 0 \/ 0 < x)%N as [->|Hx] by lia.
  - by rewrite pretty_N_go_0.
  - rewrite pretty_N_go_step by done. apply IH; [by apply N.div_lt | done].
Qed.

Lemma pretty_nat_digits (n : nat) : all_digits (pretty n) = true.
Proof.
  unfold pretty, pretty_nat, pretty, pretty_N.
  case_decide; [reflexivity|]. by apply pretty_N_go_digits.
Qed.

Lemma pretty_nat_nonempty (n : nat) : pretty n <> String.EmptyString.
Proof.
  unfold pretty, pretty_nat, pretty, pretty_N.
  case_decide; [discriminate|].
  assert (0 < N.of_nat n)%N as Hn by lia.
  rewrite pretty_N_go_step by done. by apply pretty_N_go_nonempty.
Qed.

Lemma string_app_assoc (a b c : string) : (a +:+ b) +:+ c = a +:+ (b +:+ c).
Proof.
  induction a as [|x a IH]; [reflexivity|].
  change (String x ((a +:+ b) +:+ c) = String x (a +:+ b +:+ c)).
  by rewrite IH.
Qed.

(** A string is cut in one way only into a run of digits, a character
    that is not a digit, and a rest. *)
Lemma digit_prefix_unique d1 : forall d2 c1 c2 r1 r2,
  all_digits d1 = true -> all_digits d2 = true ->
  is_digit c1 = false -> is_digit c2 = false ->
  d1 +:+ String c1 r1 = d2 +:+ String c2 r2 ->
  d1 = d2 /\ c1 = c2 /\ r1 = r2.
Proof.
  induction d1 as [|a d1 IH]; intros [|b d2] c1 c2 r1 r2 H1 H2 Hc1 Hc2 Heq;
    cbn in *.
  - by injection Heq as -> ->.
  - injection Heq as -> _. apply andb_true_iff in H2 as [H2 _]. congruence.
  - injection Heq as -> _. apply andb_true_iff in H1 as [H1 _]. congruence.
  - injection Heq as -> Heq.
    apply andb_true_iff in H1 as [_ H1]. apply andb_true_iff in H2 as [_ H2].
    destruct (IH d2 c1 c2 r1 r2 H1 H2 Hc1 Hc2 Heq) as (-> & -> & ->). done.
Qed.

Lemma comment_file_shape j name :
  comment_file j name ->
  exists c r, name = pretty j +:+ String c r /\ is_digit c = false.
Proof.
  intros [-> | [z ->]].
  - by exists "."%char, "mp3".
  - exists "-"%char, (pretty z +:+ ".part" +:+ ".mp3"). split; [|done].
    unfold part_name. by rewrite !string_app_assoc.
Qed.

(** A file belongs to one comment only. *)
Lemma comment_file_inj j j' name :
  comment_file j name -> comment_file j' name -> j = j'.
Proof.
  intros (c & r & -> & Hc)%comment_file_shape (c' & r' & Heq & Hc')%comment_file_shape.
  apply digit_prefix_unique in Heq as (Heq & _);
    auto using pretty_nat_digits.
  by apply (inj pretty).
Qed.

(** A name that does not start with a digit is no file of a comment. *)
Lemma not_comment_file c r j :
  is_digit c = false -> ~ comment_file j (String c r).
Proof.
  intros Hc (c' & r' & Heq & Hc')%comment_file_shape.
  change (String c r) with (String.EmptyString +:+ String c r) in Heq.
  apply digit_prefix_unique in Heq as (Heq & _);
    auto using pretty_nat_digits.
  by apply (pretty_nat_nonempty j).
Qed.

(** The concatenated clip of a comment is none of its parts. *)
Lemma clip_is_no_part j z : pretty j +:+ ".mp3" <> part_name j z +:+ ".mp3".
Proof.
  unfold part_name. rewrite !string_app_assoc. intros Heq.
  change (pretty j +:+ ".mp3") with (pretty j +:+ String "." "mp3") in Heq.
  change ("-" +:+ pretty z +:+ ".part" +:+ ".mp3")
    with (String "-" (pretty z +:+ ".part" +:+ ".mp3")) in Heq.
  apply digit_prefix_unique in Heq as (_ & [=] & _);
    auto using pretty_nat_digits.
Qed.

(** ** Files of a run *)

Section Files.

Variable tts_module : TTSModule.t.
Variable process_text : string -> string.
Variable write_audiofile : list (string * float) -> float.

Local Abbreviation call_tts := (TTSEngine.call_tts tts_module).
Local Abbreviation split_loop := (TTSEngine.split_loop tts_module process_text).
Local Abbreviation split_post :=
  (TTSEngine.split_post tts_module process_text write_audiofile).
Local Abbreviation comments_loop :=
  (TTSEngine.comments_loop tts_module process_text write_audiofile).
Local Abbreviation max_chars := (TTSModule.max_chars tts_module).

(** [call_tts] touches one file only. *)
Lemma call_tts_frame self filename text split name :
  name <> filename +:+ ".mp3" ->
  TTSEngine.files (fst (call_tts self filename text split)) !! name
  = TTSEngine.files self !! name.
Proof.
  intros Hne.
  destruct (TTSModule.run tts_module text (filename +:+ ".mp3")) as [d|] eqn:Hr.
  - rewrite (call_tts_ok _ _ _ _ _ _ Hr). cbn. by apply lookup_insert_ne.
  - rewrite (call_tts_fail _ _ _ _ _ Hr). cbn. by apply lookup_delete_ne.
Qed.

(** The chunk loop touches parts of its comment only, and the clips it
    collects are such parts. *)
Lemma split_loop_frame pieces : forall self idx idy offset split_files name,
  (forall z, name <> part_name idx z +:+ ".mp3") ->
  TTSEngine.files (fst (split_loop self idx idy offset pieces split_files))
    !! name
  = TTSEngine.files self !! name.
Proof.
  induction pieces as [|text_cut rest IH]; intros self idx idy offset sf name Hn;
    [done|].
  cbn [TTSEngine.split_loop].
  destruct (blank (process_text text_cut)); [by apply IH|].
  pose proof (call_tts_frame self (part_name idx (idy - offset))
                (process_text text_cut) true name (Hn _)) as Hf.
  destruct (call_tts self (part_name idx (idy - offset))
              (process_text text_cut) true) as [self1 [|]]; cbn in Hf |- *.
  - by rewrite IH.
  - done.
Qed.

Lemma split_loop_clips pieces : forall self idx idy offset split_files clips,
  snd (split_loop self idx idy offset pieces split_files) = Some clips ->
  Forall (fun clip => exists z, fst clip = part_name idx z +:+ ".mp3")
         split_files ->
  Forall (fun clip => exists z, fst clip = part_name idx z +:+ ".mp3") clips.
Proof.
  induction pieces as [|text_cut rest IH];
    intros self idx idy offset sf clips Hc Hsf.
  - cbn in Hc. by injection Hc as <-.
  - cbn [TTSEngine.split_loop] in Hc.
    destruct (blank (process_text text_cut)); [by eapply IH|].
    destruct (call_tts self (part_name idx (idy - offset))
                (process_text text_cut) true) as [self1 [|]]; [|done].
    eapply IH; [exact Hc|]. apply Forall_app. split; [done|].
    constructor; [|constructor]. by eexists.
Qed.

(** Unlinking a list of clips. *)
Lemma lookup_unlinked (clips : list (string * float)) :
  forall (fs : gmap string float) name,
  foldl (fun fs clip => delete (fst clip) fs) fs clips !! name
  = if bool_decide (name ∈ map fst clips) then None else fs !! name.
Proof.
  induction clips as [|clip clips IH]; intros fs name; cbn [foldl map].
  - by rewrite bool_decide_eq_false_2 by set_solver.
  - rewrite IH. destruct (decide (name = fst clip)) as [->|Hne].
    + rewrite (bool_decide_eq_true_2 (_ ∈ _ :: _))
        by (apply elem_of_cons; by left).
      case_bool_decide; [done | by rewrite lookup_delete_eq].
    + rewrite lookup_delete_ne by done.
      case_bool_decide as H1; case_bool_decide as H2; try done.
      * destruct H2. apply elem_of_cons. by right.
      * apply elem_of_cons in H2 as [?|?]; done.
Qed.

(** [split_post] touches files of its comment only. *)
Lemma split_post_frame self text idx self' name :
  ~ comment_file idx name ->
  split_post self text idx = Some self' ->
  TTSEngine.files self' !! name = TTSEngine.files self !! name.
Proof.
  intros Hn. unfold TTSEngine.split_post.
  assert (Hparts : forall z, name <> part_name idx z +:+ ".mp3")
    by (intros z ->; apply Hn; right; eauto).
  pose proof (split_loop_frame (split_text max_chars text) self idx 0%Z 0%Z []
                name Hparts) as Hf.
  pose proof (split_loop_clips (split_text max_chars text) self idx 0%Z 0%Z [])
    as Hc.
  destruct (split_loop self idx 0 0 (split_text max_chars text) [])
    as [self1 [clips|]]; cbn in Hf, Hc.
  - destruct clips as [|clip clips]; [done|].
    intros Heq. apply (inj Some) in Heq. subst self'.
    cbn [TTSEngine.files TTSEngine.set_files
         TTSEngine.set_racked_up_split_length].
    rewrite (lookup_unlinked (clip :: clips)). rewrite bool_decide_eq_false_2.
    + rewrite lookup_insert_ne; [done|]. intros <-. apply Hn. by left.
    + intros Hin. apply list_elem_of_fmap in Hin as (clip' & -> & Hin).
      specialize (Hc _ eq_refl (Forall_nil_2 _)).
      rewrite Forall_forall in Hc. destruct (Hc _ Hin) as [z Hz].
      by apply (Hparts z).
  - by intros [= <-].
Qed.

(** The comment loop, from comment [i] on, touches files of comments
    [i], [i+1], ... only. *)
Lemma comments_loop_frame cs : forall self i idx self' idx' name,
  (forall j, (i <= j)%nat -> ~ comment_file j name) ->
  comments_loop self i cs idx = Some (self', idx') ->
  TTSEngine.files self' !! name = TTSEngine.files self !! name.
Proof.
  induction cs as [|c rest IH]; intros self i idx self' idx' name Hn.
  - by intros [= <- _].
  - cbn [TTSEngine.comments_loop].
    assert (Hn' : forall j, (S i <= j)%nat -> ~ comment_file j name)
      by (intros j Hj; apply Hn; lia).
    destruct (float_gt (TTSEngine.length self) (TTSEngine.max_length self));
      [by intros [= <- _]|].
    destruct (max_chars <? String.length (comment_body c))%nat.
    + destruct (split_post self (comment_body c) i) as [self1|] eqn:Hs;
        [|done].
      intros Hl. rewrite (IH _ _ _ _ _ name Hn' Hl).
      eapply split_post_frame; [|exact Hs]. apply Hn. lia.
    + intros Hl. rewrite (IH _ _ _ _ _ name Hn' Hl).
      apply call_tts_frame. intros ->. apply (Hn i); [lia | by left].
Qed.

End Files.
(** ** Further behaviour of the engine *)

Section EngineEdges.

Variable tts_module : TTSModule.t.
Variable process_text : string -> string.
Variable write_audiofile : list (string * float) -> float.
Variable storymode : bool.

Local Abbreviation call_tts := (TTSEngine.call_tts tts_module).
Local Abbreviation split_loop := (TTSEngine.split_loop tts_module process_text).
Local Abbreviation split_post :=
  (TTSEngine.split_post tts_module process_text write_audiofile).
Local Abbreviation comments_loop :=
  (TTSEngine.comments_loop tts_module process_text write_audiofile).
Local Abbreviation run :=
  (TTSEngine.run tts_module process_text write_audiofile storymode).
Local Abbreviation head_of :=
  (head_contribution tts_module process_text storymode).
Local Abbreviation max_chars := (TTSModule.max_chars tts_module).

(** X1.  A split comment one of whose parts gives no clip: [split_post]
    returns normally, writes no clip [i.mp3] and keeps the budget.  With
    [ds] the durations of the parts synthesised before the one that
    fails, [racked_up_split_length] is left at its value on entry plus
    [ds] (it is not reset), and [length] at its value on entry plus [ds],
    less that value of [racked_up_split_length]; each sum is taken from
    the left, as the engine adds. *)
Theorem split_post_failure_law (self : TTSEngine.t) (i : nat) (c : comment) :
  part_durations tts_module (parts_of tts_module process_text i c) = None ->
  exists self',
    split_post self (comment_body c) i = Some self' /\
    TTSEngine.length self'
    = (add_all (TTSEngine.length self)
         (fst (synthesized tts_module (parts_of tts_module process_text i c)))
       - add_all (TTSEngine.racked_up_split_length self)
           (fst (synthesized tts_module
                   (parts_of tts_module process_text i c))))%float /\
    TTSEngine.racked_up_split_length self'
    = add_all (TTSEngine.racked_up_split_length self)
        (fst (synthesized tts_module (parts_of tts_module process_text i c))) /\
    TTSEngine.max_length self' = TTSEngine.max_length self /\
    TTSEngine.files self' !! (pretty i +:+ ".mp3")
    = TTSEngine.files self !! (pretty i +:+ ".mp3").
Proof.
  intros Hd.
  assert (Hfail : snd (synthesized tts_module
                         (parts_of tts_module process_text i c)) = false).
  { unfold part_durations in Hd. by destruct (snd (synthesized _ _)). }
  destruct (split_post_failed tts_module process_text write_audiofile
              self i c Hfail) as (Hpost & Hlen & Hracked & Hmax & _).
  pose proof (split_loop_frame tts_module process_text
                (split_text max_chars (comment_body c)) self i 0%Z 0%Z []
                (pretty i +:+ ".mp3") (clip_is_no_part i)) as Hframe.
  eexists. split; [exact Hpost|]. done.
Qed.

Lemma split_post_success
    (self : TTSEngine.t) (i : nat) (c : comment) (d : float) (ds : list float) :
  part_durations tts_module (parts_of tts_module process_text i c)
  = Some (d :: ds) ->
  exists self' clips,
    split_post self (comment_body c) i = Some self' /\
    map snd clips = d :: ds /\
    map fst clips = map fst (parts_of tts_module process_text i c) /\
    TTSEngine.files self' !! (pretty i +:+ ".mp3")
    = Some (write_audiofile clips) /\
    (forall part, part ∈ parts_of tts_module process_text i c ->
                  TTSEngine.files self' !! fst part = None) /\
    TTSEngine.racked_up_split_length self' = 0%float /\
    TTSEngine.length self' = add_all (TTSEngine.length self) (d :: ds) /\
    TTSEngine.last_clip_length self'
    = default (TTSEngine.last_clip_length self) (last (d :: ds)).
Proof.
  intros Hd.
  destruct (split_post_all_ok tts_module process_text write_audiofile
              self i c d ds Hd)
    as (self' & clips & Hpost & Hlen & _ & Hracked & Hlast & Hsnd & Hfst
        & Hfiles).
  exists self', clips. split; [done|]. split; [done|]. split; [done|].
  assert (Hclip : pretty i +:+ ".mp3" ∉ map fst clips).
  { rewrite Hfst. intros Hin.
    apply list_elem_of_fmap in Hin as (part & Heq' & Hin).
    unfold parts_of, numbered_parts in Hin.
    apply list_elem_of_lookup in Hin as [j Hj].
    rewrite list_lookup_imap in Hj.
    destruct (_ !! j); [|done]. injection Hj as <-. cbn in Heq'.
    by apply clip_is_no_part in Heq'. }
  split; [|split; [|done]].
  - rewrite Hfiles, (lookup_unlinked clips), bool_decide_eq_false_2 by done.
    apply lookup_insert_eq.
  - intros part Hpart.
    rewrite Hfiles, (lookup_unlinked clips), bool_decide_eq_true_2; [done|].
    rewrite Hfst. by apply list_elem_of_fmap_2.
Qed.

(** X2.  A split comment all of whose parts give a clip (and which has at
    least one part): [split_post] leaves the file [i.mp3] that
    [write_audiofile] encodes from the parts, in order and with the
    durations measured (whatever the duration of that file), none of the
    part files, the speculative total at zero, [length] with the
    durations of the parts added one by one, and [last_clip_length] at
    the duration of the last part. *)
Theorem split_post_concatenates
    (self : TTSEngine.t) (i : nat) (c : comment) (d : float) (ds : list float) :
  part_durations tts_module (parts_of tts_module process_text i c)
  = Some (d :: ds) ->
  exists self' clips,
    split_post self (comment_body c) i = Some self' /\
    map snd clips = d :: ds /\
    map fst clips = map fst (parts_of tts_module process_text i c) /\
    TTSEngine.files self' !! (pretty i +:+ ".mp3")
    = Some (write_audiofile clips) /\
    (forall part, part ∈ parts_of tts_module process_text i c ->
                  TTSEngine.files self' !! fst part = None) /\
    TTSEngine.racked_up_split_length self' = 0%float /\
    TTSEngine.length self' = add_all (TTSEngine.length self) (d :: ds) /\
    TTSEngine.last_clip_length self'
    = default (TTSEngine.last_clip_length self) (last (d :: ds)).
Proof. apply split_post_success. Qed.

Lemma call_tts_file self filename text split :
  TTSEngine.files (fst (call_tts self filename text split))
    !! (filename +:+ ".mp3")
  = TTSModule.run tts_module text (filename +:+ ".mp3").
Proof.
  destruct (TTSModule.run tts_module text (filename +:+ ".mp3")) as [d|] eqn:Hr.
  - rewrite (call_tts_ok _ _ _ _ _ _ Hr). apply lookup_insert_eq.
  - rewrite (call_tts_fail _ _ _ _ _ Hr). apply lookup_delete_eq.
Qed.

(** The engine when the comment loop starts. *)
Lemma run_head_state self thread :
  exists self0,
    run self thread
    = match comments_loop self0 0 (comments thread) None with
      | Some (final, idx) => Some (final, (TTSEngine.length final, idx))
      | None => None
      end /\
    (TTSEngine.length self = 0%float ->
     TTSEngine.length self0 = head_of thread) /\
    TTSEngine.max_length self0 = TTSEngine.max_length self /\
    TTSEngine.last_clip_length self0
    = head_last_clip tts_module process_text storymode
        (TTSEngine.last_clip_length self) thread /\
    TTSEngine.files self0 !! "title.mp3"
    = TTSModule.run tts_module (process_text (thread_title thread)) "title.mp3" /\
    (narrated process_text storymode thread = false ->
     TTSEngine.files self0 !! "posttext.mp3" = None) /\
    (forall name, name <> "title.mp3" -> name <> "posttext.mp3" ->
                  TTSEngine.files self0 !! name = TTSEngine.files self !! name).
Proof.
  unfold TTSEngine.run, head_contribution, head_last_clip, narrated.
  set (s0 := TTSEngine.set_files _ self).
  set (title := process_text (thread_title thread)).
  set (post := process_text (thread_post thread)).
  destruct (call_tts_state tts_module s0 "title" title false)
    as (Hl1 & Hb1 & Hc1 & _).
  pose proof (call_tts_file s0 "title" title false) as Hf1.
  pose proof (fun name => call_tts_frame tts_module s0 "title" title false name)
    as Hfr1.
  set (s1 := fst (TTSEngine.call_tts tts_module s0 "title" title false)) in *.
  unfold direct_clip in *.
  change ("title" +:+ ".mp3") with "title.mp3" in *.
  destruct (negb (String.eqb post String.EmptyString) && storymode).
  - destruct (call_tts_state tts_module s1 "posttext" post false)
      as (Hl2 & Hb2 & Hc2 & _).
    pose proof (fun name =>
                  call_tts_frame tts_module s1 "posttext" post false name)
      as Hfr2.
    unfold direct_clip in *.
    change ("posttext" +:+ ".mp3") with "posttext.mp3" in *.
    eexists. split; [reflexivity|].
    split; [intros H0; rewrite Hl2, Hl1; subst s0; cbn; by rewrite H0|].
    split; [by rewrite Hb2, Hb1|].
    split; [rewrite Hc2, Hc1;
            by destruct (TTSModule.run _ post _), (TTSModule.run _ title _)|].
    split; [by rewrite Hfr2|]. split; [done|].
    intros name Ht Hp. rewrite Hfr2, Hfr1 by done.
    subst s0. cbn. by apply lookup_delete_ne.
  - exists s1. split; [reflexivity|].
    split; [intros H0; rewrite Hl1; subst s0; cbn; by rewrite H0|].
    split; [by rewrite Hb1|].
    split; [rewrite Hc1; by destruct (TTSModule.run _ title _)|].
    split; [done|]. split.
    + intros _. rewrite Hfr1 by done. subst s0. cbn. apply lookup_delete_eq.
    + intros name Ht Hp. rewrite Hfr1 by done.
      subst s0. cbn. by apply lookup_delete_ne.
Qed.

(** X3.  A thread with no comment: [run] returns the total of title and
    post text and [None] as index, whatever the budget. *)
Theorem run_without_comments (self : TTSEngine.t) (thread : reddit_object) :
  TTSEngine.length self = 0%float ->
  comments thread = [] ->
  returns (run self thread) (head_of thread) None.
Proof.
  intros H0 Hcs.
  destruct (run_head_state self thread) as (self0 & -> & Hl & _).
  rewrite Hcs. cbn. exists self0, (TTSEngine.length self0).
  split; [done | by apply Hl].
Qed.

(** X4.  Title and post text alone exceed the budget, and there is a
    comment: the first iteration stops the loop.  [run] returns the index
    [-1] and the total less the last clip synthesised so far (the post
    text, else the title): the clip stays in the directory but is no
    longer counted.  No comment is synthesised: the files of every comment
    are as they were. *)
Theorem run_over_budget_before_first_comment
    (self : TTSEngine.t) (thread : reddit_object) :
  TTSEngine.length self = 0%float ->
  float_gt (head_of thread) (TTSEngine.max_length self) = true ->
  comments thread <> [] ->
  returns (run self thread)
    (head_of thread
     - head_last_clip tts_module process_text storymode
         (TTSEngine.last_clip_length self) thread)%float
    (Some (-1)%Z) /\
  forall final r j name,
    run self thread = Some (final, r) -> comment_file j name ->
    TTSEngine.files final !! name = TTSEngine.files self !! name.
Proof.
  intros H0 Hover Hcs.
  destruct (run_head_state self thread)
    as (self0 & -> & Hl & Hb & Hc & _ & _ & Hfr).
  specialize (Hl H0).
  destruct (comments thread) as [|c cs]; [done|].
  cbn [TTSEngine.comments_loop]. rewrite Hl, Hb, Hover.
  split.
  - eexists _, _. split; [reflexivity|].
    cbn [TTSEngine.length TTSEngine.set_length]. by rewrite Hc.
  - intros final r j name [= <- _] Hname. cbn. apply Hfr.
    + intros ->. by apply (not_comment_file "t" "itle.mp3" j).
    + intros ->. by apply (not_comment_file "p" "osttext.mp3" j).
Qed.

(** X5.  When the post text is not narrated, no [posttext.mp3] is in the
    run directory after [run], whatever the directory held before: the
    compositor cannot pick up a clip left by an earlier run. *)
Theorem run_removes_stale_posttext
    (self : TTSEngine.t) (thread : reddit_object)
    (final : TTSEngine.t) (r : float * option Z) :
  narrated process_text storymode thread = false ->
  run self thread = Some (final, r) ->
  TTSEngine.files final !! "posttext.mp3" = None.
Proof.
  intros Hnarr.
  destruct (run_head_state self thread)
    as (self0 & -> & _ & _ & _ & _ & Hpost & _).
  destruct (comments_loop self0 0 (comments thread) None)
    as [[final' idx]|] eqn:Hloop; [|done].
  intros [= <- _].
  rewrite (comments_loop_frame tts_module process_text write_audiofile
             _ _ _ _ _ _
             "posttext.mp3" (fun j _ => not_comment_file "p" "osttext.mp3" j
                                          eq_refl) Hloop).
  by apply Hpost.
Qed.

End EngineEdges.

(** ** The timeline of the final video *)

Section Timeline.

Import FinalVideo.

Lemma read_lengths_length mp3 clips ds :
  read_lengths mp3 clips = Some ds -> List.length ds = List.length clips.
Proof.
  revert ds. induction clips as [|a rest IH]; intros ds; cbn.
  - by intros [= <-].
  - destruct (mp3 !! a); [|done]. destruct (read_lengths mp3 rest); [|done].
    intros [= <-]. cbn. f_equal. eauto.
Qed.

Lemma read_lengths_lookup mp3 clips ds :
  read_lengths mp3 clips = Some ds ->
  forall j a, clips !! j = Some a ->
              exists d, ds !! j = Some d /\ mp3 !! a = Some d.
Proof.
  revert ds. induction clips as [|a rest IH]; intros ds; cbn; [done|].
  destruct (mp3 !! a) as [d|] eqn:Ha; [|done].
  destruct (read_lengths mp3 rest) as [ds'|]; [|done].
  intros [= <-] [|j] b; cbn.
  - intros [= <-]. eauto.
  - by apply IH.
Qed.

Lemma read_lengths_None mp3 clips :
  read_lengths mp3 clips = None <-> exists a, a ∈ clips /\ mp3 !! a = None.
Proof.
  induction clips as [|a rest IH]; cbn.
  - split; [done|]. by intros (a & Ha%elem_of_nil & _).
  - destruct (mp3 !! a) as [d|] eqn:Ha.
    + destruct (read_lengths mp3 rest) as [ds|].
      * split; [done|]. intros (b & [->|Hb]%elem_of_cons & Hn); [congruence|].
        assert (Some ds = None) by (apply IH; eauto). done.
      * split; [|done]. intros _. destruct IH as [IH _].
        destruct (IH eq_refl) as (b & Hb & Hn). exists b.
        split; [apply elem_of_cons; by right | done].
    + split; [|done]. intros _. exists a.
      split; [apply elem_of_cons; by left | done].
Qed.

(** The overlay loop over indices [k, ..., k+n-1] within range. *)
Lemma overlay_loop_spec images audios lengths n : forall k now,
  (k + n <= List.length images)%nat ->
  (k + n <= List.length audios)%nat ->
  (k + n <= List.length lengths)%nat ->
  exists ws,
    overlay_loop (seq k n) now images audios lengths = Some ws /\
    List.length ws = n /\
    contiguous now ws /\
    (forall j w, ws !! j = Some w ->
       images !! (k + j)%nat = Some (image w) /\
       audios !! (k + j)%nat = Some (audio w) /\
       exists d, lengths !! (k + j)%nat = Some d /\
                 stop w = (d + start w)%float).
Proof.
  induction n as [|n IH]; intros k now Hi Ha Hl.
  - exists []. cbn. repeat split; try done.
  - cbn [seq overlay_loop].
    destruct (lookup_lt_is_Some_2 lengths k ltac:(lia)) as [len Hlen].
    destruct (lookup_lt_is_Some_2 images k ltac:(lia)) as [ima Hima].
    destruct (lookup_lt_is_Some_2 audios k ltac:(lia)) as [aud Haud].
    rewrite Hlen, Hima, Haud.
    destruct (IH (S k) (len + now)%float ltac:(lia) ltac:(lia) ltac:(lia))
      as (ws & -> & Hn & Hcont & Hw).
    eexists. split; [reflexivity|]. split; [cbn; by rewrite Hn|].
    split; [done|].
    intros [|j] w; cbn.
    + intros [= <-]. cbn. rewrite Nat.add_0_r. eauto.
    + intros Hj. replace (k + S j)%nat with (S k + j)%nat by lia.
      by apply Hw.
Qed.

Lemma clip_lists_length n :
  List.length (audio_clips n) = S (Z.to_nat n) /\
  List.length (image_clips n) = S (Z.to_nat n).
Proof.
  unfold audio_clips, image_clips, clip_indices. cbn.
  by rewrite !length_map, !length_seq.
Qed.

(** Shape of the timeline, when all clips can be read. *)
Lemma make_final_video_spec n mp3 lengths :
  read_lengths mp3 (audio_clips n) = Some lengths ->
  exists ws,
    make_final_video n mp3 = Some ws /\
    List.length ws = S (Z.to_nat n) /\
    contiguous 0%float ws /\
    (forall j w, ws !! j = Some w ->
       image_clips n !! j = Some (image w) /\
       audio_clips n !! j = Some (audio w) /\
       exists d, mp3 !! audio w = Some d /\ stop w = (d + start w)%float).
Proof.
  intros Hread. unfold make_final_video. rewrite Hread.
  pose proof (read_lengths_length _ _ _ Hread) as Hlen.
  destruct (clip_lists_length n) as [Hau Him].
  destruct (overlay_loop_spec (image_clips n) (audio_clips n) lengths
              (List.length (image_clips n)) 0 0%float
              ltac:(lia) ltac:(lia) ltac:(lia))
    as (ws & -> & Hn & Hcont & Hw).
  exists ws. split; [done|]. split; [lia|]. split; [done|].
  intros j w Hj. destruct (Hw j w Hj) as (Hi & Ha & d & Hd & Hs).
  cbn [Nat.add] in Hi, Ha, Hd. split; [done|]. split; [done|].
  destruct (read_lengths_lookup _ _ _ Hread _ _ Ha) as (d' & Hd' & Hm).
  exists d. split; [congruence | done].
Qed.

Lemma audio_clip_elem n a :
  a ∈ audio_clips n <->
  a = "title.mp3" \/
  exists i : nat, (Z.of_nat i < n)%Z /\ a = pretty i +:+ ".mp3".
Proof.
  unfold audio_clips, clip_indices. rewrite elem_of_cons, list_elem_of_In.
  rewrite in_map_iff. setoid_rewrite in_seq.
  split; (intros [?|(i & ? & ?)]; [by left | right; exists i]).
  - split; [lia | done].
  - split; [done | lia].
Qed.



(** X7.  [make_final_video] fails exactly when a clip it needs is not in
    the directory: [title.mp3], or [i.mp3] for some [i] below
    [number_of_clips].  When all are there the index loop stays in range
    and a timeline is built. *)
Theorem make_final_video_fails_iff (number_of_clips : Z) (mp3 : gmap string float) :
  make_final_video number_of_clips mp3 = None <->
  mp3 !! "title.mp3" = None \/
  exists i : nat,
    (Z.of_nat i < number_of_clips)%Z /\ mp3 !! (pretty i +:+ ".mp3") = None.
Proof.
  destruct (read_lengths mp3 (audio_clips number_of_clips)) as [lengths|] eqn:Hr.
  - destruct (make_final_video_spec _ _ _ Hr) as (ws & -> & _).
    split; [done|]. intros Hmiss.
    assert (read_lengths mp3 (audio_clips number_of_clips) = None); [|congruence].
    apply read_lengths_None.
    destruct Hmiss as [Ht | (i & Hi & Hm)].
    + exists "title.mp3". split; [|done]. apply audio_clip_elem. by left.
    + exists (pretty i +:+ ".mp3"). split; [|done].
      apply audio_clip_elem. right. eauto.
  - split; [intros _ | intros _; unfold make_final_video; by rewrite Hr].
    apply read_lengths_None in Hr as (a & Ha & Hm).
    apply audio_clip_elem in Ha as [-> | (i & Hi & ->)]; [by left|].
    right. eauto.
Qed.

End Timeline.

(** ** From the run to the timeline *)

Section RunToTimeline.

Variable tts_module : TTSModule.t.
Variable process_text : string -> string.
Variable write_audiofile : list (string * float) -> float.
Variable storymode : bool.

Local Abbreviation comments_loop :=
  (TTSEngine.comments_loop tts_module process_text write_audiofile).
Local Abbreviation run :=
  (TTSEngine.run tts_module process_text write_audiofile storymode).
Local Abbreviation head_of :=
  (head_contribution tts_module process_text storymode).
Local Abbreviation contributions := (contributions tts_module process_text).

(** The clips of the comments that the loop has gone through are in the
    run directory when it ends. *)
Lemma comments_loop_clips cs : forall self i idx self' idx',
  comments_loop self i cs idx = Some (self', idx') ->
  forall j c v,
    idx' = Some v -> cs !! j = Some c -> (Z.of_nat (i + j) <= v)%Z ->
    gives_clip tts_module process_text (i + j) c = true ->
    is_Some (TTSEngine.files self' !! (pretty (i + j)%nat +:+ ".mp3")).
Proof.
  induction cs as [|c0 rest IH]; intros self i idx self' idx' Hloop; [done|].
  cbn [TTSEngine.comments_loop] in Hloop.
  destruct (float_gt (TTSEngine.length self) (TTSEngine.max_length self)).
  { injection Hloop as _ <-. intros j c v [= <-] _ Hv. lia. }
  assert (Hstep : exists self1,
    comments_loop self1 (S i) rest (Some (Z.of_nat i)) = Some (self', idx') /\
    (gives_clip tts_module process_text i c0 = true ->
     is_Some (TTSEngine.files self1 !! (pretty i +:+ ".mp3")))).
  { unfold gives_clip, chunked, direct_clip.
    destruct (TTSModule.max_chars tts_module
                <? String.length (comment_body c0))%nat.
    - destruct (TTSEngine.split_post tts_module process_text write_audiofile
                  self (comment_body c0) i) as [self1|] eqn:Hs; [|done].
      exists self1. split; [done|].
      destruct (part_durations tts_module
                  (parts_of tts_module process_text i c0))
        as [[|d1 ds1]|] eqn:Hp; try done.
      intros _.
      destruct (split_post_success tts_module process_text write_audiofile
                  self i c0 d1 ds1 Hp)
        as (self2 & clips & Hs' & _ & _ & Hf & _).
      assert (self2 = self1) as -> by congruence. by rewrite Hf.
    - eexists. split; [exact Hloop|]. rewrite call_tts_file.
      by destruct (TTSModule.run _ _ _). }
  destruct Hstep as (self1 & Hrest & Hfile).
  intros [|j] c v Hv Hc Hle Hgives.
  - cbn in Hc. injection Hc as <-. rewrite Nat.add_0_r in Hgives |- *.
    assert (Hlater : forall j', (S i <= j')%nat ->
              ~ comment_file j' (pretty i +:+ ".mp3")).
    { intros j' Hj' Hfile'.
      assert (comment_file i (pretty i +:+ ".mp3")) as Hi by (by left).
      pose proof (comment_file_inj _ _ _ Hfile' Hi). lia. }
    rewrite (comments_loop_frame tts_module process_text write_audiofile
               _ _ _ _ _ _ (pretty i +:+ ".mp3") Hlater Hrest).
    by apply Hfile.
  - cbn in Hc. replace (i + S j)%nat with (S i + j)%nat in * by lia.
    eapply (IH _ _ _ _ _ Hrest); [exact Hv | exact Hc | lia | done].
Qed.

(** The directory after a run that returned the index [v]. *)
Lemma run_directory self thread final total v dt :
  TTSModule.run tts_module (process_text (thread_title thread)) "title.mp3"
  = Some dt ->
  run self thread = Some (final, (total, Some v)) ->
  is_Some (TTSEngine.files final !! "title.mp3") /\
  forall j c,
    comments thread !! j = Some c -> (Z.of_nat j <= v)%Z ->
    gives_clip tts_module process_text j c = true ->
    is_Some (TTSEngine.files final !! (pretty j +:+ ".mp3")).
Proof.
  intros Htitle Hrun.
  destruct (run_head_state tts_module process_text write_audiofile storymode
              self thread) as (self0 & Heq & _ & _ & _ & Hfile & _).
  rewrite Heq in Hrun.
  destruct (comments_loop self0 0 (comments thread) None)
    as [[final' idx]|] eqn:Hloop; [|done].
  injection Hrun as -> _ ->. split.
  - rewrite (comments_loop_frame tts_module process_text write_audiofile
               _ _ _ _ _ _
               "title.mp3" (fun j _ => not_comment_file "t" "itle.mp3" j
                                         eq_refl) Hloop).
    by rewrite Hfile, Htitle.
  - intros j c Hc Hv Hgives.
    by apply (comments_loop_clips _ _ _ _ _ _ Hloop j c v).
Qed.

(** The compositor on a directory that holds the title and the clips of
    comments [0 .. n-1]: it builds [n + 1] windows, none of them over the
    clip of comment [n]. *)
Lemma video_of_directory (n : nat) (mp3 : gmap string float) :
  is_Some (mp3 !! "title.mp3") ->
  (forall j, (j < n)%nat -> is_Some (mp3 !! (pretty j +:+ ".mp3"))) ->
  exists ws,
    FinalVideo.make_final_video (Z.of_nat n) mp3 = Some ws /\
    List.length ws = S n /\
    forall w, w ∈ ws -> FinalVideo.audio w <> pretty n +:+ ".mp3".
Proof.
  intros Htitle Hclips.
  destruct (FinalVideo.read_lengths mp3 (FinalVideo.audio_clips (Z.of_nat n)))
    as [lengths|] eqn:Hread.
  - destruct (make_final_video_spec _ _ _ Hread) as (ws & Hws & Hn & _ & Hw).
    exists ws. split; [done|]. split; [by rewrite Hn, Nat2Z.id|].
    intros w Hin Haudio. apply list_elem_of_lookup in Hin as [j Hj].
    destruct (Hw j w Hj) as (_ & Ha & _). rewrite Haudio in Ha.
    apply list_elem_of_lookup_2, audio_clip_elem in Ha
      as [Ha | (i & Hi & Ha)].
    + apply (not_comment_file "t" "itle.mp3" n eq_refl).
      change (String "t" "itle.mp3") with "title.mp3". rewrite <- Ha. by left.
    + change (pretty n +:+ String "." "mp3" = pretty i +:+ String "." "mp3")
        in Ha.
      apply digit_prefix_unique in Ha as (Ha & _);
        auto using pretty_nat_digits.
      apply (inj pretty) in Ha. lia.
  - apply read_lengths_None in Hread as (a & Ha & Hnone).
    apply audio_clip_elem in Ha as [-> | (i & Hi & ->)].
    + rewrite Hnone in Htitle. by destruct Htitle.
    + destruct (Hclips i ltac:(lia)) as [d Hd]. congruence.
Qed.

(** X8.  Run, then compose, when the budget test stopped the loop after
    comment [m] (as under C2), the title and each of the comments
    [0 .. m-1] having given a clip.  [run] returns the index [m]; the
    clips that [make_final_video] reads for [m] clips are all in the run
    directory, so that, if [MP3] can read what is there, it builds the
    [m + 1] windows of the title and of comments [0 .. m-1].  The clip of
    comment [m], whose duration has been taken back from the total, is
    still in the directory and is in no window. *)
Theorem final_video_after_budget_stop
    (self : TTSEngine.t) (thread : reddit_object) (dss : list (list float))
    (dt : float) (m : nat) (c : comment) :
  TTSEngine.length self = 0%float ->
  TTSModule.run tts_module (process_text (thread_title thread)) "title.mp3"
  = Some dt ->
  float_gt (head_of thread) (TTSEngine.max_length self) = false ->
  contributions 0 (take (S m) (comments thread)) = Some dss ->
  first_over (TTSEngine.max_length self) (head_of thread) dss = Some m ->
  (S m < List.length (comments thread))%nat ->
  comments thread !! m = Some c ->
  chunked tts_module c = false ->
  (forall j cj, (j < m)%nat -> comments thread !! j = Some cj ->
                gives_clip tts_module process_text j cj = true) ->
  exists final total,
    run self thread = Some (final, (total, Some (Z.of_nat m))) /\
    is_Some (TTSEngine.files final !! (pretty m +:+ ".mp3")) /\
    forall mp3 : gmap string float,
      (forall name, is_Some (TTSEngine.files final !! name) ->
                    is_Some (mp3 !! name)) ->
      exists ws,
        FinalVideo.make_final_video (Z.of_nat m) mp3 = Some ws /\
        List.length ws = S m /\
        forall w, w ∈ ws -> FinalVideo.audio w <> pretty m +:+ ".mp3".
Proof.
  intros H0 Htitle Hhead Hds Hfirst Hm Hc Hdirect Hclips.
  destruct (run_budget_stop tts_module process_text write_audiofile storymode
              self thread dss m c H0 Hhead Hds Hfirst Hm Hc Hdirect)
    as (d & Hd & _ & final & total & Hrun & _).
  destruct (run_directory self thread final total (Z.of_nat m) dt Htitle Hrun)
    as [Hft Hfc].
  exists final, total. split; [done|]. split.
  - apply (Hfc m c Hc); [lia|].
    unfold gives_clip. by rewrite Hdirect, Hd.
  - intros mp3 Hmp3. apply video_of_directory; [by apply Hmp3|].
    intros j Hj.
    destruct (lookup_lt_is_Some_2 (comments thread) j ltac:(lia)) as [cj Hcj].
    apply Hmp3, (Hfc j cj Hcj); [lia|]. by apply (Hclips j cj).
Qed.

(** X9.  Run, then compose, when the loop ran to its end and every
    comment gave a clip.  [run] returns the index of the last comment,
    [k]; [make_final_video] reads it as a number of clips and takes
    comments [0 .. k-1].  The clip of comment [k] is in the run directory
    and its durations are in the total returned by [run], but it is in no
    window of the timeline. *)
Theorem final_video_misses_last_clip_without_stop
    (self : TTSEngine.t) (thread : reddit_object) (dss : list (list float))
    (dt : float) (k : nat) (ck : comment) :
  TTSEngine.length self = 0%float ->
  TTSModule.run tts_module (process_text (thread_title thread)) "title.mp3"
  = Some dt ->
  contributions 0 (comments thread) = Some dss ->
  within (TTSEngine.max_length self) (head_of thread) dss = true ->
  List.length (comments thread) = S k ->
  comments thread !! k = Some ck ->
  (forall j cj, comments thread !! j = Some cj ->
                gives_clip tts_module process_text j cj = true) ->
  exists final dk,
    run self thread
    = Some (final, (add_all (head_of thread) (concat dss), Some (Z.of_nat k))) /\
    is_Some (TTSEngine.files final !! (pretty k +:+ ".mp3")) /\
    dss !! k = Some dk /\ dk <> [] /\
    forall mp3 : gmap string float,
      (forall name, is_Some (TTSEngine.files final !! name) ->
                    is_Some (mp3 !! name)) ->
      exists ws,
        FinalVideo.make_final_video (Z.of_nat k) mp3 = Some ws /\
        List.length ws = S k /\
        forall w, w ∈ ws -> FinalVideo.audio w <> pretty k +:+ ".mp3".
Proof.
  intros H0 Htitle Hds Hin Hn Hk Hclips.
  destruct (run_to_end tts_module process_text write_audiofile storymode
              self thread dss H0 Hds Hin) as (final & total & Hrun & ->).
  rewrite Hn in Hrun. cbn [last_index] in Hrun.
  destruct (run_directory self thread final _ (Z.of_nat k) dt Htitle Hrun)
    as [Hft Hfc].
  destruct (contributions_lookup tts_module process_text _ _ _ k ck Hds Hk)
    as (dk & Hdk & Hck).
  exists final, dk. split; [done|]. split.
  { apply (Hfc k ck Hk); [lia|]. by apply (Hclips k ck). }
  split; [done|]. split.
  { pose proof (Hclips k ck Hk) as Hgives.
    unfold gives_clip in Hgives. unfold comment_durations in Hck.
    cbn [Nat.add] in Hck.
    destruct (chunked tts_module ck).
    - destruct (part_durations tts_module _) as [[|d ds]|]; try done.
      by injection Hck as <-.
    - destruct (direct_clip tts_module _ _); [|done].
      by injection Hck as <-. }
  intros mp3 Hmp3. apply video_of_directory; [by apply Hmp3|].
  intros j Hj.
  destruct (lookup_lt_is_Some_2 (comments thread) j ltac:(lia)) as [cj Hcj].
  apply Hmp3, (Hfc j cj Hcj); [lia|]. by apply (Hclips j cj).
Qed.

End RunToTimeline.

(** ** Choosing a submission *)

Section SubredditFacts.

Import Subreddit.

Variable min_comments : Z.
Variable top : string -> Z -> list submission.

Local Abbreviation first_undone := (Subreddit.first_undone min_comments).
Local Abbreviation get_from :=
  (Subreddit.get_subreddit_undone_from min_comments top).
Local Abbreviation get := (Subreddit.get_subreddit_undone min_comments top).
Local Abbreviation acceptable := (Subreddit.acceptable min_comments).
Local Abbreviation skipped := (Subreddit.skipped min_comments).

(** X10.  [already_done] goes through the entries in order: it returns
    [True] at the first entry with the id of the submission, raises
    [KeyError] at the first entry without an id, whichever comes first,
    and returns [False] when every entry has another id. *)
Theorem already_done_cases (done_videos : list video) (s : submission) :
  (already_done done_videos s = Return true <->
   exists pre v post,
     done_videos = pre ++ v :: post /\ Forall (other_id s) pre /\
     v !! "id" = Some (id s)) /\
  (already_done done_videos s = KeyError <->
   exists pre v post,
     done_videos = pre ++ v :: post /\ Forall (other_id s) pre /\
     v !! "id" = None) /\
  (already_done done_videos s = Return false <->
   Forall (other_id s) done_videos).
Proof.
  induction done_videos as [|v rest (IHt & IHk & IHf)].
  - cbn. repeat split; try done.
    + by intros ([|??] & ? & ? & ? & _).
    + by intros ([|??] & ? & ? & ? & _).
  - cbn [already_done]. destruct (v !! "id") as [i|] eqn:Hv.
    + destruct (String.eqb i (id s)) eqn:Hi.
      * apply String.eqb_eq in Hi. subst i. repeat split; try done.
        -- intros _. exists [], v, rest. by repeat split.
        -- intros ([|u pre] & w & post & Heq & Hpre & Hw);
             injection Heq as <- _; [congruence|].
           apply Forall_cons_1 in Hpre as [(i & Hu & Hne) _]. congruence.
        -- intros [(i & Hu & Hne) _]%Forall_cons_1. congruence.
      * apply String.eqb_neq in Hi.
        assert (Hv' : other_id s v) by (by exists i).
        split; [|split].
        -- rewrite IHt. split.
           ++ intros (pre & w & post & -> & Hpre & Hw).
              exists (v :: pre), w, post.
              split; [done|]. split; [by constructor | done].
           ++ intros ([|u pre] & w & post & Heq & Hpre & Hw);
                injection Heq as <- ->; [congruence|].
              apply Forall_cons_1 in Hpre as [_ Hpre]. eauto 10.
        -- rewrite IHk. split.
           ++ intros (pre & w & post & -> & Hpre & Hw).
              exists (v :: pre), w, post.
              split; [done|]. split; [by constructor | done].
           ++ intros ([|u pre] & w & post & Heq & Hpre & Hw);
                injection Heq as <- ->; [congruence|].
              apply Forall_cons_1 in Hpre as [_ Hpre]. eauto 10.
        -- rewrite IHf. split; [by constructor|].
           by intros [_ ?]%Forall_cons_1.
    + repeat split; try done.
      * intros ([|u pre] & w & post & Heq & Hpre & Hw);
          injection Heq as <- _; [congruence|].
        apply Forall_cons_1 in Hpre as [(i & Hu & _) _]. congruence.
      * intros _. exists [], v, rest. by repeat split.
      * intros [(i & Hu & _) _]%Forall_cons_1. congruence.
Qed.

Lemma skipped_not_acceptable done_videos s :
  skipped done_videos s -> ~ acceptable done_videos s.
Proof.
  intros [Hd | (Hd & [Ho | [Hs | Hn]])] (Hd' & Ho' & Hs' & Hn');
    try congruence. lia.
Qed.

(** The loop over the submissions. *)
Lemma first_undone_Return done_videos submissions s :
  first_undone done_videos submissions = Some (Return s) <->
  exists pre post,
    submissions = pre ++ s :: post /\
    Forall (skipped done_videos) pre /\ acceptable done_videos s.
Proof.
  induction submissions as [|x rest IH]; cbn [Subreddit.first_undone].
  - split; [done|]. by intros ([|??] & ? & ? & _).
  - assert (Hskip :
      skipped done_videos x ->
      (first_undone done_videos rest = Some (Return s) <->
       exists pre post,
         x :: rest = pre ++ s :: post /\
         Forall (skipped done_videos) pre /\ acceptable done_videos s)).
    { intros Hx. rewrite IH. split.
      - intros (pre & post & -> & Hpre & Hs).
        exists (x :: pre), post.
        split; [done|]. split; [by constructor | done].
      - intros ([|y pre] & post & Heq & Hpre & Hs); injection Heq as <- ->.
        + by destruct (skipped_not_acceptable _ _ Hx).
        + apply Forall_cons_1 in Hpre as [_ Hpre]. eauto. }
    assert (Hfail :
      (forall pre post,
          x :: rest = pre ++ s :: post ->
          Forall (skipped done_videos) pre -> acceptable done_videos s ->
          already_done done_videos x = Return true \/
          already_done done_videos x = Return false)).
    { intros [|y pre] post Heq Hpre Hs; injection Heq as <- ->.
      - right. apply Hs.
      - apply Forall_cons_1 in Hpre as [[?|[? _]] _]; auto. }
    destruct (already_done done_videos x) as [[|]| |] eqn:Hd.
    + apply Hskip. by left.
    + destruct (over_18 x) eqn:Ho; [apply Hskip; right; auto|].
      destruct (stickied x) eqn:Hs; [apply Hskip; right; auto|].
      destruct (Z.leb_spec (num_comments x) min_comments) as [Hn|Hn];
        [apply Hskip; right; auto|].
      split.
      * intros [= <-]. exists [], rest. by repeat split.
      * intros ([|y pre] & post & Heq & Hpre & Hacc); injection Heq as <- ->;
          [done|].
        apply Forall_cons_1 in Hpre as [Hx _].
        destruct (skipped_not_acceptable _ _ Hx). by repeat split.
    + split; [done|]. intros (pre & post & Heq & Hpre & Hs).
      destruct (Hfail pre post Heq Hpre Hs); congruence.
    + split; [done|]. intros (pre & post & Heq & Hpre & Hs).
      destruct (Hfail pre post Heq Hpre Hs); congruence.
Qed.

Lemma first_undone_None done_videos submissions :
  Forall (skipped done_videos) submissions ->
  first_undone done_videos submissions = None.
Proof.
  induction 1 as [|x rest Hx _ IH]; [done|].
  cbn [Subreddit.first_undone].
  destruct Hx as [-> | (-> & [-> | [Hs | Hn]])]; try done.
  - destruct (over_18 x); [done|]. by rewrite Hs.
  - destruct (over_18 x); [done|]. destruct (stickied x); [done|].
    by destruct (Z.leb_spec (num_comments x) min_comments); [|lia].
Qed.

(** The recursion, for any bound on its depth: queries are only added,
    and the file ends up holding the list that was read. *)
Lemma get_from_queries fuel : forall file queries submissions times_checked
    r queries' file',
  get_from fuel file queries submissions times_checked
  = Some (r, queries', file') ->
  queries `prefix_of` queries' /\ file' = Some (default [] file).
Proof.
  induction fuel as [|fuel IH]; intros file qs subs tc r qs' file';
    cbn [Subreddit.get_subreddit_undone_from];
    (destruct (first_undone (default [] file) subs);
     [by intros [= _ <- <-]|]);
    (destruct (py_index VALID_TIME_FILTERS (tc + 1));
     [|by intros [= _ <- <-]]); [done|].
  intros Hrec. apply IH in Hrec as [Hpre ->]. split; [|done].
  etrans; [|exact Hpre]. by apply prefix_app_r.
Qed.

Lemma get_from_sound fuel : forall file queries submissions times_checked
    s queries' file',
  get_from fuel file queries submissions times_checked
  = Some (Return s, queries', file') ->
  acceptable (default [] file) s /\
  (s ∈ submissions \/
   exists time_filter limit,
     (time_filter, limit) ∈ queries' /\ s ∈ top time_filter limit).
Proof.
  induction fuel as [|fuel IH]; intros file qs subs tc s qs' file';
    cbn [Subreddit.get_subreddit_undone_from];
    (destruct (first_undone (default [] file) subs) as [r|] eqn:Hf;
     [intros [= -> <- <-];
      apply first_undone_Return in Hf as (pre & post & -> & _ & Hs);
      split; [done|]; left;
      apply elem_of_app; right; apply elem_of_cons; by left|]);
    (destruct (py_index VALID_TIME_FILTERS (tc + 1)) as [tf|];
     [|done]); [done|].
  intros Hrec. pose proof (get_from_queries _ _ _ _ _ _ _ _ Hrec) as [Hpre _].
  apply IH in Hrec as [Hacc Hfrom]. split; [done|]. right.
  destruct Hfrom as [Hin | (tf' & limit' & Hq & Hin)]; [|eauto].
  eexists _, _. split; [|exact Hin].
  eapply elem_of_prefix; [|exact Hpre].
  apply elem_of_app. right. apply elem_of_cons. by left.
Qed.

(** Enough fuel: the recursion ends, and more fuel changes nothing. *)
Lemma get_from_fuel fuel : forall fuel' file queries submissions times_checked,
  (Z.to_nat (6 - times_checked) <= fuel)%nat ->
  (fuel <= fuel')%nat ->
  is_Some (get_from fuel file queries submissions times_checked) /\
  get_from fuel' file queries submissions times_checked
  = get_from fuel file queries submissions times_checked.
Proof.
  induction fuel as [|fuel IH]; intros fuel' file qs subs tc Hfuel Hle.
  - destruct fuel'; cbn [Subreddit.get_subreddit_undone_from];
      (destruct (first_undone (default [] file) subs); [by eauto|]);
      (assert (py_index VALID_TIME_FILTERS (tc + 1) = None) as ->;
       [unfold py_index, VALID_TIME_FILTERS;
        destruct (Z.leb_spec 0 (tc + 1)); [|lia];
        apply lookup_ge_None; cbn; lia|]); by eauto.
  - destruct fuel' as [|fuel']; [lia|].
    cbn [Subreddit.get_subreddit_undone_from].
    destruct (first_undone (default [] file) subs); [by eauto|].
    destruct (py_index VALID_TIME_FILTERS (tc + 1)); [|by eauto].
    apply IH; lia.
Qed.

(** X11.  Whatever [get_subreddit_undone] returns is a submission that
    the loop accepts: not already done, not marked over 18, not stickied,
    and with more comments than the configured minimum.  It comes from
    the list passed in or from one of the listings queried. *)
Theorem get_subreddit_undone_sound
    (file : option (list video)) (submissions : list submission)
    (times_checked : Z) (s : submission)
    (queries : list (string * Z)) (file' : option (list video)) :
  get file submissions times_checked = Some (Return s, queries, file') ->
  acceptable (default [] file) s /\
  (s ∈ submissions \/
   exists time_filter limit,
     (time_filter, limit) ∈ queries /\ s ∈ top time_filter limit).
Proof. apply get_from_sound. Qed.

(** X12.  The recursion of [get_subreddit_undone] always ends: with every
    call [times_checked] moves one step towards the end of
    [VALID_TIME_FILTERS], where indexing raises [IndexError].  The bound
    used on the depth is never hit, and a larger one gives the same
    outcome. *)
Theorem get_subreddit_undone_terminates
    (file : option (list video)) (submissions : list submission)
    (times_checked : Z) :
  is_Some (get file submissions times_checked) /\
  forall fuel,
    (Z.to_nat (6 - times_checked) <= fuel)%nat ->
    get_from fuel file [] submissions times_checked
    = get file submissions times_checked.
Proof.
  split.
  - by apply (get_from_fuel _ (Z.to_nat (6 - times_checked))).
  - intros fuel Hfuel. by apply get_from_fuel.
Qed.

(** X13.  The first submission of the list that the loop accepts is
    returned, and no listing is queried. *)
Theorem get_subreddit_undone_first
    (file : option (list video)) (pre post : list submission)
    (s : submission) (times_checked : Z) :
  Forall (skipped (default [] file)) pre ->
  acceptable (default [] file) s ->
  get file (pre ++ s :: post) times_checked
  = Some (Return s, [], Some (default [] file)).
Proof.
  intros Hpre Hs. unfold Subreddit.get_subreddit_undone.
  assert (first_undone (default [] file) (pre ++ s :: post) = Some (Return s))
    as Hf by (apply first_undone_Return; eauto).
  destruct (Z.to_nat (6 - times_checked));
    cbn [Subreddit.get_subreddit_undone_from]; by rewrite Hf.
Qed.

(** One round in which every submission is skipped. *)
Lemma get_from_skip fuel file queries submissions times_checked time_filter :
  Forall (skipped (default [] file)) submissions ->
  py_index VALID_TIME_FILTERS (times_checked + 1) = Some time_filter ->
  get_from (S fuel) file queries submissions times_checked
  = get_from fuel (Some (default [] file))
      (queries
       ++ [(time_filter,
            if (times_checked + 1 =? 0)%Z then 50%Z
            else (times_checked + 1 + 1 * 50)%Z)])
      (top time_filter
         (if (times_checked + 1 =? 0)%Z then 50%Z
          else (times_checked + 1 + 1 * 50)%Z))
      (times_checked + 1).
Proof.
  intros Hsubs Hidx. cbn [Subreddit.get_subreddit_undone_from].
  by rewrite (first_undone_None _ _ Hsubs), Hidx.
Qed.

(** X14.  When neither the list passed in nor any listing holds a
    submission that the loop accepts (and no entry of [videos.json] lacks
    its id), the default call ([times_checked = 0]) queries the top of the
    hour, month, week, year and all time, with limits 51 to 55, and then
    raises [IndexError]: the filter ["day"] is never tried, and no value
    is returned. *)
Theorem get_subreddit_undone_exhausted
    (file : option (list video)) (submissions : list submission) :
  Forall (skipped (default [] file)) submissions ->
  (forall time_filter limit,
      Forall (skipped (default [] file)) (top time_filter limit)) ->
  get file submissions 0
  = Some (IndexError,
          [("hour", 51%Z); ("month", 52%Z); ("week", 53%Z); ("year", 54%Z);
           ("all", 55%Z)],
          Some (default [] file)).
Proof.
  intros Hsubs Htop. unfold Subreddit.get_subreddit_undone.
  change (Z.to_nat (6 - 0)) with 6%nat.
  do 5 (erewrite get_from_skip;
        [| first [exact Hsubs | apply Htop] | reflexivity]).
  cbn [Subreddit.get_subreddit_undone_from].
  by rewrite (first_undone_None _ _ (Htop _ _)).
Qed.

End SubredditFacts.

(** ** Instances of the theorems above *)

Lemma split_post_failure_law_witness :
  part_durations parts_tts (parts_of parts_tts plain_text 0 split_fail_comment)
  = None /\
  exists self',
    TTSEngine.split_post parts_tts plain_text padding_encoder
      (TTSEngine.mk 1 50 4 3 ∅ []) (comment_body split_fail_comment) 0
    = Some self' /\
    TTSEngine.length self' = ((4 + 2.0) - (1 + 2.0))%float /\
    TTSEngine.racked_up_split_length self' = (1 + 2.0)%float /\
    TTSEngine.max_length self' = 50%float /\
    TTSEngine.files self' !! "0.mp3" = None.
Proof.
  assert (H : part_durations parts_tts
                (parts_of parts_tts plain_text 0 split_fail_comment) = None)
    by (vm_compute; reflexivity).
  split; [exact H|].
  exact (split_post_failure_law parts_tts plain_text padding_encoder
           (TTSEngine.mk 1 50 4 3 ∅ []) 0 split_fail_comment H).
Defined.

Lemma split_post_concatenates_witness :
  part_durations parts_tts (parts_of parts_tts plain_text 0 split_ok_comment)
  = Some [2.0%float; 1.0%float] /\
  exists self' clips,
    TTSEngine.split_post parts_tts plain_text padding_encoder
      (TTSEngine.init ∅ 50 0) (comment_body split_ok_comment) 0 = Some self' /\
    map snd clips = [2.0%float; 1.0%float] /\
    map fst clips
    = map fst (parts_of parts_tts plain_text 0 split_ok_comment) /\
    TTSEngine.files self' !! (pretty 0%nat +:+ ".mp3")
    = Some (padding_encoder clips) /\
    (forall part, part ∈ parts_of parts_tts plain_text 0 split_ok_comment ->
                  TTSEngine.files self' !! fst part = None) /\
    TTSEngine.racked_up_split_length self' = 0%float /\
    TTSEngine.length self'
    = add_all (TTSEngine.length (TTSEngine.init ∅ 50 0))
        [2.0%float; 1.0%float] /\
    TTSEngine.last_clip_length self'
    = default (TTSEngine.last_clip_length (TTSEngine.init ∅ 50 0))
        (last [2.0%float; 1.0%float]).
Proof.
  assert (H : part_durations parts_tts
                (parts_of parts_tts plain_text 0 split_ok_comment)
              = Some [2.0%float; 1.0%float]) by (vm_compute; reflexivity).
  split; [exact H|].
  exact (split_post_concatenates parts_tts plain_text padding_encoder
           (TTSEngine.init ∅ 50 0) 0 split_ok_comment 2.0%float [1.0%float] H).
Defined.

Lemma run_without_comments_witness :
  TTSEngine.length (TTSEngine.init ∅ 1.0 0) = 0%float /\
  comments (thread_of "Title" []) = [] /\
  returns (TTSEngine.run short_tts plain_text exact_encoder false
             (TTSEngine.init ∅ 1.0 0) (thread_of "Title" []))
    (head_contribution short_tts plain_text false (thread_of "Title" []))
    None.
Proof.
  split; [reflexivity|]. split; [reflexivity|].
  apply (run_without_comments short_tts plain_text exact_encoder false
           (TTSEngine.init ∅ 1.0 0) (thread_of "Title" []));
    reflexivity.
Defined.

Lemma run_over_budget_before_first_comment_witness :
  TTSEngine.length (TTSEngine.init ∅ 1.0 0) = 0%float /\
  float_gt (head_contribution short_tts plain_text false
              (thread_of "Title" ["first"]))
    (TTSEngine.max_length (TTSEngine.init ∅ 1.0 0)) = true /\
  comments (thread_of "Title" ["first"]) <> [] /\
  returns (TTSEngine.run short_tts plain_text exact_encoder false
             (TTSEngine.init ∅ 1.0 0) (thread_of "Title" ["first"]))
    (head_contribution short_tts plain_text false (thread_of "Title" ["first"])
     - head_last_clip short_tts plain_text false
         (TTSEngine.last_clip_length (TTSEngine.init ∅ 1.0 0))
         (thread_of "Title" ["first"]))%float
    (Some (-1)%Z).
Proof.
  split; [reflexivity|]. split; [by_evaluation|]. split; [discriminate|].
  apply (run_over_budget_before_first_comment short_tts plain_text
           exact_encoder false
           (TTSEngine.init ∅ 1.0 0) (thread_of "Title" ["first"]));
    [reflexivity | by_evaluation | discriminate].
Defined.

Lemma run_removes_stale_posttext_witness :
  stale_directory !! "posttext.mp3" = Some 9.0%float /\
  narrated plain_text false (thread_of "Title" ["first"]) = false /\
  exists final r,
    TTSEngine.run short_tts plain_text exact_encoder false
      (TTSEngine.init stale_directory 7.0 0) (thread_of "Title" ["first"])
    = Some (final, r) /\
    TTSEngine.files final !! "posttext.mp3" = None.
Proof.
  split; [vm_compute; reflexivity|]. split; [reflexivity|].
  destruct (TTSEngine.run short_tts plain_text exact_encoder false
              (TTSEngine.init stale_directory 7.0 0)
              (thread_of "Title" ["first"])) as [[final r]|] eqn:Hrun;
    [|vm_compute in Hrun; discriminate].
  exists final, r. split; [reflexivity|].
  apply (run_removes_stale_posttext short_tts plain_text exact_encoder false
           (TTSEngine.init stale_directory 7.0 0)
           (thread_of "Title" ["first"]) final r);
    [reflexivity | exact Hrun].
Defined.


Lemma final_video_after_budget_stop_witness :
  contributions short_tts plain_text 0
    (take 2 (comments (thread_of "Title" ["first"; "second"; "third"])))
  = Some [[3.0%float]; [3.0%float]] /\
  first_over (TTSEngine.max_length (TTSEngine.init ∅ 7.0 0))
    (head_contribution short_tts plain_text false
       (thread_of "Title" ["first"; "second"; "third"]))
    [[3.0%float]; [3.0%float]] = Some 1%nat /\
  exists final total,
    TTSEngine.run short_tts plain_text exact_encoder false
      (TTSEngine.init ∅ 7.0 0)
      (thread_of "Title" ["first"; "second"; "third"])
    = Some (final, (total, Some (Z.of_nat 1))) /\
    is_Some (TTSEngine.files final !! (pretty 1%nat +:+ ".mp3")) /\
    forall mp3 : gmap string float,
      (forall name, is_Some (TTSEngine.files final !! name) ->
                    is_Some (mp3 !! name)) ->
      exists ws,
        FinalVideo.make_final_video (Z.of_nat 1) mp3 = Some ws /\
        List.length ws = 2%nat /\
        forall w, w ∈ ws -> FinalVideo.audio w <> pretty 1%nat +:+ ".mp3".
Proof.
  split; [vm_compute; reflexivity|]. split; [vm_compute; reflexivity|].
  apply (final_video_after_budget_stop short_tts plain_text exact_encoder
           false (TTSEngine.init ∅ 7.0 0)
           (thread_of "Title" ["first"; "second"; "third"])
           [[3.0%float]; [3.0%float]] 2.0%float 1 (Build_comment "second")).
  - reflexivity.
  - vm_compute. reflexivity.
  - by_evaluation.
  - vm_compute. reflexivity.
  - vm_compute. reflexivity.
  - simpl. lia.
  - reflexivity.
  - reflexivity.
  - intros j cj Hj Hcj. assert (j = 0%nat) as -> by lia.
    injection Hcj as <-. vm_compute. reflexivity.
Defined.

Lemma final_video_misses_last_clip_without_stop_witness :
  contributions short_tts plain_text 0
    (comments (thread_of "Title" ["first"])) = Some [[3.0%float]] /\
  within (TTSEngine.max_length (TTSEngine.init ∅ 7.0 0))
    (head_contribution short_tts plain_text false (thread_of "Title" ["first"]))
    [[3.0%float]] = true /\
  exists final dk,
    TTSEngine.run short_tts plain_text exact_encoder false
      (TTSEngine.init ∅ 7.0 0) (thread_of "Title" ["first"])
    = Some (final,
            (add_all (head_contribution short_tts plain_text false
                        (thread_of "Title" ["first"]))
               (concat [[3.0%float]]),
             Some (Z.of_nat 0))) /\
    is_Some (TTSEngine.files final !! (pretty 0%nat +:+ ".mp3")) /\
    [[3.0%float]] !! 0%nat = Some dk /\ dk <> [] /\
    forall mp3 : gmap string float,
      (forall name, is_Some (TTSEngine.files final !! name) ->
                    is_Some (mp3 !! name)) ->
      exists ws,
        FinalVideo.make_final_video (Z.of_nat 0) mp3 = Some ws /\
        List.length ws = 1%nat /\
        forall w, w ∈ ws -> FinalVideo.audio w <> pretty 0%nat +:+ ".mp3".
Proof.
  split; [vm_compute; reflexivity|]. split; [vm_compute; reflexivity|].
  apply (final_video_misses_last_clip_without_stop short_tts plain_text
           exact_encoder false (TTSEngine.init ∅ 7.0 0)
           (thread_of "Title" ["first"]) [[3.0%float]] 2.0%float 0
           (Build_comment "first")).
  - reflexivity.
  - vm_compute. reflexivity.
  - vm_compute. reflexivity.
  - vm_compute. reflexivity.
  - reflexivity.
  - reflexivity.
  - intros j cj Hcj. destruct j as [|j]; [|done].
    injection Hcj as <-. vm_compute. reflexivity.
Defined.

Lemma get_subreddit_undone_sound_witness :
  Subreddit.get_subreddit_undone 10 no_listing None
    [nsfw_submission; fresh_submission] 0
  = Some (Subreddit.Return fresh_submission, [], Some []) /\
  Subreddit.acceptable 10 (default [] None) fresh_submission /\
  (fresh_submission ∈ [nsfw_submission; fresh_submission] \/
   exists time_filter limit,
     (time_filter, limit) ∈ @nil (string * Z) /\
     fresh_submission ∈ no_listing time_filter limit).
Proof.
  split; [vm_compute; reflexivity|].
  apply (get_subreddit_undone_sound 10 no_listing None
           [nsfw_submission; fresh_submission] 0 fresh_submission [] (Some [])).
  vm_compute. reflexivity.
Defined.

Lemma get_subreddit_undone_first_witness :
  Forall (Subreddit.skipped 10 (default [] None)) [nsfw_submission] /\
  Subreddit.acceptable 10 (default [] None) fresh_submission /\
  Subreddit.get_subreddit_undone 10 no_listing None
    ([nsfw_submission] ++ fresh_submission :: []) 3
  = Some (Subreddit.Return fresh_submission, [], Some (default [] None)).
Proof.
  assert (H1 : Forall (Subreddit.skipped 10 (default [] None)) [nsfw_submission]).
  { constructor; [|constructor]. right. split; [reflexivity|]. by left. }
  assert (H2 : Subreddit.acceptable 10 (default [] None) fresh_submission).
  { repeat split. }
  split; [exact H1|]. split; [exact H2|].
  apply (get_subreddit_undone_first 10 no_listing None [nsfw_submission] []
           fresh_submission 3 H1 H2).
Defined.

Lemma get_subreddit_undone_exhausted_witness :
  Forall (Subreddit.skipped 10 (default [] None)) [nsfw_submission] /\
  Subreddit.get_subreddit_undone 10 no_listing None [nsfw_submission] 0
  = Some (Subreddit.IndexError,
          [("hour", 51%Z); ("month", 52%Z); ("week", 53%Z); ("year", 54%Z);
           ("all", 55%Z)],
          Some (default [] None)).
Proof.
  assert (H1 : Forall (Subreddit.skipped 10 (default [] None)) [nsfw_submission]).
  { constructor; [|constructor]. right. split; [reflexivity|]. by left. }
  split; [exact H1|].
  apply (get_subreddit_undone_exhausted 10 no_listing None [nsfw_submission] H1).
  intros time_filter limit. constructor.
Defined.

(** ** Sanitised names *)

Lemma chars_of_list l : chars (String.string_of_list_ascii l) = l.
Proof. apply String.list_ascii_of_string_of_list_ascii. Qed.

Lemma forallb_filter_id (p : ascii -> bool) l :
  forallb p l = true -> List.filter p l = l.
Proof.
  induction l as [|c l IH]; cbn; [done|].
  intros [-> Hl]%andb_true_iff. by rewrite IH.
Qed.

Lemma forallb_filter (p q : ascii -> bool) l :
  forallb p l = true -> forallb p (List.filter q l) = true.
Proof.
  induction l as [|c l IH]; cbn; [done|].
  intros [Hc Hl]%andb_true_iff. destruct (q c); cbn; [rewrite Hc|]; auto.
Qed.

Lemma forallb_filter_self (p : ascii -> bool) l :
  forallb p (List.filter p l) = true.
Proof.
  induction l as [|c l IH]; cbn; [done|].
  destruct (p c) eqn:Hc; cbn; [rewrite Hc|]; auto.
Qed.

Lemma kept_is_clean c : kept_by_strip c = true -> clean c = true.
Proof.
  destruct c as [[] [] [] [] [] [] [] []]; vm_compute; congruence.
Qed.

(** X15.  [redditid] (and every other use of the same substitution) is
    made of word characters, whitespace and hyphens only; in particular it
    holds no slash, no backslash and no full stop, so that
    [path + redditid + "/mp3"] never leaves [path] through the id.  An id
    made of such characters only, like the base-36 ids of Reddit, is left
    as it is, and stripping twice is stripping once. *)
Theorem redditid_is_one_path_component (thread_id : string) :
  (forall c, c ∈ chars (redditid thread_id) ->
             kept_by_strip c = true /\ c ∈ chars thread_id /\
             c <> slash /\ c <> full_stop /\ c <> Ascii.ascii_of_nat 92) /\
  (forallb kept_by_strip (chars thread_id) = true ->
   redditid thread_id = thread_id) /\
  redditid (redditid thread_id) = redditid thread_id.
Proof.
  unfold redditid, strip_special. fold (chars thread_id).
  split; [|split].
  - intros c. rewrite chars_of_list, list_elem_of_In, filter_In.
    intros [Hin Hc]. split; [done|]. split; [by apply list_elem_of_In|].
    repeat split; intros ->; discriminate.
  - intros Hall. rewrite forallb_filter_id by done.
    apply String.string_of_list_ascii_of_string.
  - fold (chars (String.string_of_list_ascii
                   (List.filter kept_by_strip (chars thread_id)))).
    rewrite chars_of_list.
    by rewrite (forallb_filter_id _ _ (forallb_filter_self _ _)).
Qed.

(** ** The matcher with groups *)

Section ReFacts.

Import Re.

Lemma plus_ways (Q : list ascii -> captures -> list ascii * captures -> Prop)
    (f : list ascii -> captures -> ways) :
  (forall s caps way, way ∈ f s caps -> Q s caps way) ->
  (forall s caps w1 w2, Q s caps w1 -> Q (fst w1) (snd w1) w2 -> Q s caps w2) ->
  forall fuel s caps way, way ∈ plus f fuel s caps -> Q s caps way.
Proof.
  intros Hf Htrans. induction fuel as [|fuel IH]; intros s caps way;
    cbn [plus].
  - by intros ?%elem_of_nil.
  - rewrite list_elem_of_In, in_flat_map.
    intros (w1 & Hw1%list_elem_of_In & Hin%list_elem_of_In).
    apply elem_of_app in Hin as [Hin | Hin%list_elem_of_singleton].
    + destruct (List.length (fst w1) <? List.length s)%nat;
        [|by apply elem_of_nil in Hin].
      eapply Htrans; [by apply Hf | by apply IH].
    + subst way. by apply Hf.
Qed.

(** What is left after a match is a suffix of the input. *)
Lemma run_suffix r : forall s caps way,
  way ∈ run r s caps -> fst way `suffix_of` s.
Proof.
  induction r as [c|p|r1 IH1 r2 IH2|r1 IH1|r1 IH1|i r1 IH1];
    intros s caps way; cbn [run].
  - destruct s as [|a rest]; [by intros ?%elem_of_nil|].
    destruct (Ascii.eqb a c); [|by intros ?%elem_of_nil].
    intros ->%list_elem_of_singleton. by apply suffix_cons_r.
  - destruct s as [|a rest]; [by intros ?%elem_of_nil|].
    destruct (p a); [|by intros ?%elem_of_nil].
    intros ->%list_elem_of_singleton. by apply suffix_cons_r.
  - rewrite list_elem_of_In, in_flat_map.
    intros (w1 & Hw1%list_elem_of_In & Hin%list_elem_of_In).
    etrans; [by eapply IH2 | by eapply IH1].
  - intros [Hin | ->%list_elem_of_singleton]%elem_of_app; [by eapply IH1|done].
  - apply (plus_ways (fun s _ way => fst way `suffix_of` s)); [exact IH1|].
    intros s0 caps0 w1 w2 H1 H2. by etrans.
  - rewrite list_elem_of_In, in_map_iff.
    intros (w1 & <- & Hw1%list_elem_of_In). cbn. by eapply IH1.
Qed.

Lemma forallb_suffix (p : ascii -> bool) l1 l2 :
  l1 `suffix_of` l2 -> forallb p l2 = true -> forallb p l1 = true.
Proof.
  intros [k ->]. rewrite forallb_app. by intros [_ ?]%andb_true_iff.
Qed.

Lemma forallb_take (p : ascii -> bool) n l :
  forallb p l = true -> forallb p (take n l) = true.
Proof.
  revert n. induction l as [|c l IH]; intros [|n]; cbn; try done.
  intros [-> Hl]%andb_true_iff. by apply IH.
Qed.

(** Captured texts are made of characters of the input. *)
Lemma run_captures (p : ascii -> bool) r : forall s caps way,
  forallb p s = true -> captures_within p caps ->
  way ∈ run r s caps -> captures_within p (snd way).
Proof.
  induction r as [c|q|r1 IH1 r2 IH2|r1 IH1|r1 IH1|i r1 IH1];
    intros s caps way Hs Hcaps; cbn [run].
  - destruct s as [|a rest]; [by intros ?%elem_of_nil|].
    destruct (Ascii.eqb a c); [|by intros ?%elem_of_nil].
    by intros ->%list_elem_of_singleton.
  - destruct s as [|a rest]; [by intros ?%elem_of_nil|].
    destruct (q a); [|by intros ?%elem_of_nil].
    by intros ->%list_elem_of_singleton.
  - rewrite list_elem_of_In, in_flat_map.
    intros (w1 & Hw1%list_elem_of_In & Hin%list_elem_of_In).
    eapply IH2; [|by eapply IH1|exact Hin].
    eapply forallb_suffix; [by eapply run_suffix | done].
  - intros [Hin | ->%list_elem_of_singleton]%elem_of_app; [by eapply IH1|done].
  - intros Hin.
    assert (Hboth : forallb p s = true -> captures_within p caps ->
              forallb p (fst way) = true /\ captures_within p (snd way));
      [|by apply Hboth].
    revert Hin.
    apply (plus_ways
             (fun s caps way =>
                forallb p s = true -> captures_within p caps ->
                forallb p (fst way) = true /\ captures_within p (snd way))
             (run r1)).
    + intros s0 caps0 w Hw Hs0 Hc0. split; [|by eapply IH1].
      eapply forallb_suffix; [by eapply run_suffix | done].
    + intros s0 caps0 w1 w2 H1 H2 Hs0 Hc0.
      destruct (H1 Hs0 Hc0). by apply H2.
  - rewrite list_elem_of_In, in_map_iff.
    intros (w1 & <- & Hw1%list_elem_of_In). cbn.
    constructor; [cbn; by apply forallb_take | by eapply IH1].
Qed.

Lemma group_within p caps i :
  captures_within p caps -> forallb p (group caps i) = true.
Proof.
  intros Hcaps. unfold group.
  destruct (List.find _ caps) as [cap|] eqn:Hf; [|done].
  apply find_some in Hf as [Hin _].
  unfold captures_within in Hcaps. rewrite List.Forall_forall in Hcaps.
  by apply Hcaps.
Qed.

Lemma expand_within p repl caps :
  forallb p (literal_chars repl) = true -> captures_within p caps ->
  forallb p (expand repl caps) = true.
Proof.
  intros Hrepl Hcaps. induction repl as [|[txt|i] repl IH];
    cbn in Hrepl |- *; [done|..].
  - rewrite forallb_app in Hrepl |- *.
    apply andb_true_iff in Hrepl as [-> Hrepl]. by apply IH.
  - rewrite forallb_app, (group_within _ _ _ Hcaps). by apply IH.
Qed.

(** A substitution whose replacement text satisfies [p] keeps [p]. *)
Lemma sub_within p r repl s :
  forallb p (literal_chars repl) = true ->
  forallb p s = true -> forallb p (sub r repl s) = true.
Proof.
  intros Hrepl. unfold sub. generalize 0%nat as skip.
  induction s as [|a rest IH]; intros skip Hs.
  - by destruct skip.
  - pose proof Hs as Hs'. cbn in Hs'. apply andb_true_iff in Hs' as [Ha Hrest].
    destruct skip as [|skip]; cbn [sub_scan]; [|by apply IH].
    destruct (run r (a :: rest) []) as [|[s' caps] ways] eqn:Hrun.
    + cbn. rewrite Ha. by apply IH.
    + destruct (List.length (a :: rest) - List.length s')%nat.
      * cbn. rewrite Ha. by apply IH.
      * rewrite forallb_app, IH by done. rewrite andb_true_r.
        apply expand_within; [done|].
        apply (run_captures p r (a :: rest) [] (s', caps) Hs);
          [constructor|].
        rewrite Hrun. apply elem_of_cons. by left.
Qed.

(** Deleting the characters of a class, or one character. *)
Lemma sub_class p s :
  sub (Class p) [] s = List.filter (fun c => negb (p c)) s.
Proof.
  unfold sub. induction s as [|a rest IH]; [done|].
  cbn [sub_scan run List.filter]. destruct (p a); cbn [negb].
  - replace (List.length (a :: rest) - List.length rest)%nat with 1%nat
      by (cbn; lia).
    exact IH.
  - by rewrite IH.
Qed.

Lemma sub_lit c s :
  sub (Lit c) [] s = List.filter (fun a => negb (Ascii.eqb a c)) s.
Proof.
  unfold sub. induction s as [|a rest IH]; [done|].
  cbn [sub_scan run List.filter]. destruct (Ascii.eqb a c); cbn [negb].
  - replace (List.length (a :: rest) - List.length rest)%nat with 1%nat
      by (cbn; lia).
    exact IH.
  - by rewrite IH.
Qed.

(** A pattern that needs a character finds nothing where it is absent. *)
Lemma needs_no_way c r : forall s caps,
  needs c r = true -> c ∉ s -> run r s caps = [].
Proof.
  induction r as [c'|p|r1 IH1 r2 IH2|r1 IH1|r1 IH1|i r1 IH1];
    intros s caps Hneeds Hc; cbn [run needs] in *; try done.
  - destruct s as [|a rest]; [done|].
    destruct (Ascii.eqb a c') eqn:Ha; [|done].
    apply Ascii.eqb_eq in Ha. apply Ascii.eqb_eq in Hneeds. subst.
    destruct Hc. apply elem_of_cons. by left.
  - apply orb_true_iff in Hneeds as [H1 | H2].
    + by rewrite IH1.
    + assert (Hall : forall way, way ∈ run r1 s caps ->
                run r2 (fst way) (snd way) = []).
      { intros way Hway. apply IH2; [done|].
        intros Hin. apply Hc.
        destruct (run_suffix _ _ _ _ Hway) as [k ->].
        apply elem_of_app. by right. }
      induction (run r1 s caps) as [|w ws IHws]; [done|]. cbn.
      rewrite (Hall w) by (apply elem_of_cons; by left). cbn.
      apply IHws. intros way Hway. apply Hall. apply elem_of_cons. by right.
  - destruct (List.length s) as [|fuel]; [done|]. cbn. by rewrite IH1.
  - by rewrite IH1.
Qed.

(** The patterns of [name_normalize] never match the empty string, so
    [sub_scan] always passes a match over. *)
Lemma run_consumes r : forall s caps way,
  consumes r = true -> way ∈ run r s caps ->
  (List.length (fst way) < List.length s)%nat.
Proof.
  induction r as [c|p|r1 IH1 r2 IH2|r1 IH1|r1 IH1|i r1 IH1];
    intros s caps way Hcons; cbn [run consumes] in *; try done.
  - destruct s as [|a rest]; [by intros ?%elem_of_nil|].
    destruct (Ascii.eqb a c); [|by intros ?%elem_of_nil].
    intros ->%list_elem_of_singleton. cbn. lia.
  - destruct s as [|a rest]; [by intros ?%elem_of_nil|].
    destruct (p a); [|by intros ?%elem_of_nil].
    intros ->%list_elem_of_singleton. cbn. lia.
  - rewrite list_elem_of_In, in_flat_map.
    intros (w1 & Hw1%list_elem_of_In & Hin%list_elem_of_In).
    pose proof (suffix_length _ _ (run_suffix _ _ _ _ Hw1)) as Hle1.
    pose proof (suffix_length _ _ (run_suffix _ _ _ _ Hin)) as Hle2.
    apply orb_true_iff in Hcons as [H1 | H2].
    + pose proof (IH1 _ _ _ H1 Hw1). lia.
    + pose proof (IH2 _ _ _ H2 Hin). lia.
  - apply (plus_ways
             (fun s _ way => (List.length (fst way) < List.length s)%nat)).
    + intros s0 caps0 w Hw. by eapply IH1.
    + intros s0 caps0 w1 w2 H1 H2. lia.
  - rewrite list_elem_of_In, in_map_iff.
    intros (w1 & <- & Hw1%list_elem_of_In). cbn. by eapply IH1.
Qed.

Lemma name_normalize_patterns_consume :
  Forall (fun r => consumes r = true)
    [Class forbidden_in_name; without_pattern; with_pattern;
     ratio_pattern is_digit; ratio_pattern is_word; Lit slash].
Proof. repeat constructor. Qed.

Lemma sub_without_match c r repl s :
  needs c r = true -> c ∉ s -> sub r repl s = s.
Proof.
  intros Hneeds. unfold sub. induction s as [|a rest IH]; intros Hc; [done|].
  cbn [sub_scan]. rewrite (needs_no_way c r _ _ Hneeds Hc).
  rewrite IH; [done|]. intros Hin. apply Hc. apply elem_of_cons. by right.
Qed.

End ReFacts.

(** ** [name_normalize] *)

Section NameNormalizeFacts.

Variable translate : string -> string.

Lemma forallb_and_filter (p q : ascii -> bool) l :
  forallb p l = true ->
  forallb (fun c => p c && q c) (List.filter q l) = true.
Proof.
  induction l as [|c l IH]; cbn; [done|].
  intros [Hc Hl]%andb_true_iff. destruct (q c) eqn:Hq; cbn; [|by apply IH].
  rewrite Hc, Hq. by apply IH.
Qed.

Lemma forallb_elem (p : ascii -> bool) l c :
  forallb p l = true -> c ∈ l -> p c = true.
Proof.
  rewrite forallb_forall. intros Hall Hin. apply Hall. by apply list_elem_of_In.
Qed.

Lemma clean_no_slash l : forallb clean l = true -> slash ∉ l.
Proof. intros Hall Hin. by pose proof (forallb_elem _ _ _ Hall Hin). Qed.

Lemma clean_not_forbidden l :
  forallb clean l = true ->
  forallb (fun c => negb (forbidden_in_name c)) l = true.
Proof.
  rewrite !forallb_forall. intros Hall c Hc.
  apply Hall in Hc. unfold clean in Hc. by apply andb_true_iff in Hc as [? _].
Qed.

Lemma clean_not_slash l :
  forallb clean l = true ->
  forallb (fun c => negb (Ascii.eqb c slash)) l = true.
Proof.
  rewrite !forallb_forall. intros Hall c Hc.
  apply Hall in Hc. unfold clean in Hc. by apply andb_true_iff in Hc as [_ ?].
Qed.

(** The six substitutions leave a clean text as it is. *)
Lemma name_normalize_clean (name : string) :
  forallb clean (chars name) = true ->
  name_normalize false translate name = name.
Proof.
  intros Hclean. unfold name_normalize.
  pose proof (clean_no_slash _ Hclean) as Hslash.
  rewrite sub_class, (forallb_filter_id _ _ (clean_not_forbidden _ Hclean)).
  rewrite (sub_without_match slash without_pattern) by done.
  rewrite (sub_without_match slash with_pattern) by done.
  rewrite (sub_without_match slash (ratio_pattern is_digit)) by done.
  rewrite (sub_without_match slash (ratio_pattern is_word)) by done.
  rewrite sub_lit, (forallb_filter_id _ _ (clean_not_slash _ Hclean)).
  apply String.string_of_list_ascii_of_string.
Qed.

(** X16.  Without translation, the name that [name_normalize] returns
    holds none of the characters question mark, backslash, double quote,
    percent, asterisk, colon, bar, less-than, greater-than, and no slash:
    the text put in by the replacements and the groups copied from the
    name bring none of them back. *)
Theorem name_normalize_has_no_forbidden_character (name : string) (c : ascii) :
  c ∈ chars (name_normalize false translate name) ->
  forbidden_in_name c = false /\ c <> slash.
Proof.
  intros Hin.
  assert (Hall : forallb clean (chars (name_normalize false translate name))
                 = true).
  { unfold name_normalize. rewrite chars_of_list, sub_lit.
    apply (forallb_and_filter (fun c => negb (forbidden_in_name c))).
    do 4 (apply sub_within; [reflexivity|]).
    rewrite sub_class. apply forallb_filter_self. }
  pose proof (forallb_elem _ _ _ Hall Hin) as Hc. unfold clean in Hc.
  apply andb_true_iff in Hc as [Hf Hs]. split.
  - by destruct (forbidden_in_name c).
  - intros ->. discriminate.
Qed.

(** X17.  Without translation, a name that holds no slash and none of
    the nine forbidden characters is returned as it is, whatever its
    length: the statement [name[:30]] shortens nothing. *)
Theorem name_normalize_keeps_clean_name (name : string) :
  (forall c, c ∈ chars name -> forbidden_in_name c = false /\ c <> slash) ->
  name_normalize false translate name = name.
Proof.
  intros Hname. apply name_normalize_clean.
  apply forallb_forall. intros c Hc%list_elem_of_In.
  destruct (Hname c Hc) as [Hf Hs]. unfold clean. rewrite Hf. cbn.
  destruct (Ascii.eqb c slash) eqn:Heq; [|done].
  by apply Ascii.eqb_eq in Heq.
Qed.

Lemma string_length_chars s : String.length s = List.length (chars s).
Proof. induction s as [|c s IH]; cbn; [done|]. by rewrite IH. Qed.

Lemma chars_append s1 s2 : chars (s1 +:+ s2) = chars s1 ++ chars s2.
Proof.
  induction s1 as [|c s1 IH]; [done|].
  change (c :: chars (s1 +:+ s2) = c :: (chars s1 ++ chars s2)).
  by rewrite IH.
Qed.

(** X18.  In [make_final_video] the title is stripped of special
    characters before it is normalised, so without translation none of
    the substitutions of [name_normalize] changes it: the file name is the
    stripped title cut at 251 characters, with [.mp4]; it has at most 255
    characters, and no slash, backslash or dot apart from the
    extension. *)
Theorem video_filename_is_stripped_title (thread_title : string) :
  let stem := take 251 (chars (strip_special thread_title)) in
  video_filename false translate thread_title
  = String.string_of_list_ascii stem +:+ ".mp4" /\
  (String.length (video_filename false translate thread_title) <= 255)%nat /\
  forallb kept_by_strip stem = true.
Proof.
  assert (Hkept : forallb kept_by_strip (chars (strip_special thread_title))
                  = true).
  { unfold strip_special. rewrite chars_of_list. apply forallb_filter_self. }
  assert (Hnorm : name_normalize false translate (strip_special thread_title)
                  = strip_special thread_title).
  { apply name_normalize_clean. apply forallb_forall. intros c Hc.
    apply kept_is_clean. revert c Hc. by apply forallb_forall. }
  cbn zeta. unfold video_filename. rewrite Hnorm. split; [done|]. split.
  - rewrite string_length_chars, chars_append, chars_of_list, length_app.
    rewrite length_take.
    change (List.length (chars ".mp4")) with 4%nat. lia.
  - by apply forallb_take.
Qed.

End NameNormalizeFacts.

(** A name with a ratio and a forbidden character, and a clean one. *)
Lemma name_normalize_keeps_clean_name_witness :
  (forall c, c ∈ chars "What is 2 + 2 - really" ->
             forbidden_in_name c = false /\ c <> slash) /\
  name_normalize false (fun s => s) "What is 2 + 2 - really"
  = "What is 2 + 2 - really".
Proof.
  assert (H : forall c, c ∈ chars "What is 2 + 2 - really" ->
                        forbidden_in_name c = false /\ c <> slash).
  { intros c Hc. apply list_elem_of_In in Hc. cbn in Hc.
    repeat (destruct Hc as [<- | Hc]; [split; [reflexivity | discriminate]|]).
    destruct Hc. }
  split; [exact H|].
  exact (name_normalize_keeps_clean_name (fun s => s) _ H).
Defined.

Lemma name_normalize_has_no_forbidden_character_witness :
  "o"%char ∈ chars (name_normalize false (fun s => s) "is 1/2 w/o a/b?") /\
  (forbidden_in_name "o" = false /\ "o"%char <> slash).
Proof.
  assert (H : "o"%char
              ∈ chars (name_normalize false (fun s => s) "is 1/2 w/o a/b?")).
  { apply list_elem_of_In. vm_compute. tauto. }
  split; [exact H|].
  exact (name_normalize_has_no_forbidden_character (fun s => s) _ _ H).
Defined.

Lemma redditid_is_one_path_component_witness :
  forallb kept_by_strip (chars "uxk2p9") = true /\
  redditid "uxk2p9" = "uxk2p9".
Proof.
  split; [reflexivity|].
  exact (proj1 (proj2 (redditid_is_one_path_component "uxk2p9")) eq_refl).
Defined.

(** ** Screenshots *)

Section ScreenshotFacts.

Import Screenshots.

Variable title_shot : option exn.
Variable story_shot : option exn.
Variable screenshot : page -> nat -> option exn.

Local Abbreviation loop := (comment_loop screenshot).
Local Abbreviation download :=
  (download_screenshots_of_reddit_posts title_shot story_shot screenshot).

Lemma goto_same s : goto (at_page s) s = s.
Proof. by destruct s. Qed.

Lemma add_files_nil s : add_files [] s = s.
Proof. destruct s. unfold add_files. cbn. by rewrite app_nil_r. Qed.

Lemma add_files_cons pg1 pg2 f fs s :
  goto pg2 (add_files fs (goto pg1 (add_file f s)))
  = goto pg2 (add_files (f :: fs) s).
Proof.
  destruct s. unfold goto, add_files, add_file. cbn. by rewrite <- app_assoc.
Qed.

Lemma comment_png_inj i j : comment_png i = comment_png j -> i = j.
Proof.
  unfold comment_png. intros Heq.
  apply (inj (String.append "comment_")) in Heq.
  apply digit_prefix_unique in Heq as (Heq & _);
    auto using pretty_nat_digits.
  by apply (inj pretty).
Qed.

Lemma comment_png_not_title i : comment_png i <> "title.png".
Proof. unfold comment_png. cbn. discriminate. Qed.

(** One iteration for a comment that can be captured. *)
Lemma loop_capturable_step c rest idx s :
  capturable screenshot idx -> (Z.of_nat idx < screenshot_num s)%Z ->
  exists pg, (pg = at_page s \/ pg = ThreadPage) /\
    loop (c :: rest) idx s
    = loop rest (S idx) (goto pg (add_file (comment_png idx) s)).
Proof.
  intros Hcap Hlt. cbn [comment_loop].
  destruct (Z.leb_spec (screenshot_num s) (Z.of_nat idx)); [lia|].
  destruct (screenshot (at_page s) idx) eqn:H1.
  - destruct (Hcap (at_page s)) as [H2 | H2]; [congruence|].
    cbn zeta. rewrite H2. exists ThreadPage. split; [by right|].
    by destruct s.
  - exists (at_page s). split; [by left|]. by destruct s.
Qed.

(** One iteration for a comment whose screenshot times out. *)
Lemma loop_times_out c rest t s :
  times_out screenshot t -> (Z.of_nat t < screenshot_num s)%Z ->
  loop (c :: rest) t s =
  if has_comments s
  then loop rest (S t) (skip_comment (goto (CommentPage t) s))
  else Raised KeyError (goto (CommentPage t) s).
Proof.
  intros [H1 H2] Hlt. cbn [comment_loop].
  destruct (Z.leb_spec (screenshot_num s) (Z.of_nat t)); [lia|].
  destruct (screenshot (at_page s) t) eqn:E; [|by apply H1 in E].
  cbn zeta. by rewrite H2.
Qed.

(** The loop over comments that can all be captured. *)
Lemma loop_capturable comments : forall idx s,
  (forall j, idx <= j < idx + List.length comments ->
             capturable screenshot j) ->
  exists pg, (pg = at_page s \/ pg = ThreadPage) /\
    loop comments idx s
    = Returned
        (goto pg
           (add_files
              (map comment_png
                 (seq idx
                    (Nat.min (List.length comments)
                       (Z.to_nat (screenshot_num s - Z.of_nat idx)))))
              s)).
Proof.
  induction comments as [|c rest IH]; intros idx s Hcap.
  - exists (at_page s). split; [by left|]. cbn.
    by rewrite add_files_nil, goto_same.
  - destruct (Z.le_gt_cases (screenshot_num s) (Z.of_nat idx)) as [Hle | Hgt].
    + exists (at_page s). split; [by left|]. cbn [comment_loop].
      destruct (Z.leb_spec (screenshot_num s) (Z.of_nat idx)); [|lia].
      replace (Z.to_nat (screenshot_num s - Z.of_nat idx)) with 0%nat by lia.
      rewrite Nat.min_0_r. cbn [seq map].
      by rewrite add_files_nil, goto_same.
    + destruct (loop_capturable_step c rest idx s) as (pg1 & Hpg1 & ->);
        [apply Hcap; cbn; lia | lia |].
      destruct (IH (S idx) (goto pg1 (add_file (comment_png idx) s)))
        as (pg2 & Hpg2 & ->); [intros j Hj; apply Hcap; cbn; lia|].
      exists pg2. split.
      { cbn in Hpg2. destruct Hpg2 as [-> | ->]; [done | by right]. }
      cbn [screenshot_num goto add_file].
      replace (Z.to_nat (screenshot_num s - Z.of_nat idx))
        with (S (Z.to_nat (screenshot_num s - Z.of_nat (S idx)))) by lia.
      cbn [List.length Nat.min seq map]. by rewrite add_files_cons.
Qed.

(** The loop up to a comment [t] within the budget, when the comments
    before it can be captured. *)
Lemma loop_until t comments : forall idx s,
  idx <= t -> t < idx + List.length comments ->
  (Z.of_nat t < screenshot_num s)%Z ->
  (forall j, idx <= j < t -> capturable screenshot j) ->
  exists pg c rest, (pg = at_page s \/ pg = ThreadPage) /\
    drop (t - idx) comments = c :: rest /\
    loop comments idx s
    = loop (c :: rest) t
        (goto pg (add_files (map comment_png (seq idx (t - idx))) s)).
Proof.
  induction comments as [|c rest IH]; intros idx s Hle Hlt Hnum Hcap.
  - cbn in Hlt. lia.
  - destruct (decide (idx = t)) as [-> | Hne].
    + exists (at_page s), c, rest. split; [by left|].
      rewrite Nat.sub_diag. cbn [drop seq map].
      by rewrite add_files_nil, goto_same.
    + destruct (loop_capturable_step c rest idx s) as (pg1 & Hpg1 & ->);
        [apply Hcap; lia | lia |].
      destruct (IH (S idx) (goto pg1 (add_file (comment_png idx) s)))
        as (pg2 & c' & rest' & Hpg2 & Hdrop & ->);
        [lia | cbn in Hlt; lia | done | intros j Hj; apply Hcap; lia |].
      exists pg2, c', rest'. split.
      { cbn in Hpg2. destruct Hpg2 as [-> | ->]; [done | by right]. }
      replace (t - idx)%nat with (S (t - S idx)) by lia.
      cbn [drop seq map]. by rewrite add_files_cons.
Qed.

(** An invariant of the loop, whatever the browser does. *)
Lemma loop_invariant n comments : forall idx s,
  screenshot_num s = (if has_comments s then n else n + 1)%Z ->
  let s' := final_state (loop comments idx s) in
  screenshot_num s' = (if has_comments s' then n else n + 1)%Z /\
  forall f, f ∈ written s' ->
    f ∈ written s \/
    exists j, f = comment_png j /\ idx <= j < idx + List.length comments /\
              (Z.of_nat j <= n)%Z.
Proof.
  induction comments as [|c rest IH]; intros idx s Hnum; cbn zeta.
  - cbn. split; [done|]. by left.
  - cbn [comment_loop].
    destruct (Z.leb_spec (screenshot_num s) (Z.of_nat idx)) as [Hbreak|Hgo].
    { cbn. split; [done|]. by left. }
    assert (Hidx : (Z.of_nat idx <= n)%Z)
      by (destruct (has_comments s); lia).
    assert (Hnew : forall s1,
      written s1 = written s ++ [comment_png idx] ->
      screenshot_num s1 = screenshot_num s ->
      has_comments s1 = has_comments s ->
      let s' := final_state (loop rest (S idx) s1) in
      screenshot_num s' = (if has_comments s' then n else n + 1)%Z /\
      forall f, f ∈ written s' ->
        f ∈ written s \/
        exists j, f = comment_png j /\
                  idx <= j < idx + List.length (c :: rest) /\
                  (Z.of_nat j <= n)%Z).
    { intros s1 Hw Hn Hc. cbn zeta.
      destruct (IH (S idx) s1) as [Hinv Hfiles]; [by rewrite Hn, Hc|].
      split; [done|]. intros f Hf.
      destruct (Hfiles f Hf) as [Hin | (j & -> & Hj & Hjn)].
      - rewrite Hw in Hin. apply elem_of_app in Hin as [Hin | Hin];
          [by left|]. apply list_elem_of_singleton in Hin as ->.
        right. exists idx. cbn. split; [done|]. split; [lia | done].
      - right. exists j. cbn. split; [done|]. split; [lia | done]. }
    destruct (screenshot (at_page s) idx) as [e1|].
    + cbn zeta. destruct (screenshot (CommentPage idx) idx) as [[| |]|].
      * cbn [has_comments goto]. destruct (has_comments s) eqn:Hc.
        -- destruct (IH (S idx) (skip_comment (goto (CommentPage idx) s)))
             as [Hinv Hfiles]; [cbn; lia|].
           split; [done|]. intros f Hf.
           destruct (Hfiles f Hf) as [Hin | (j & -> & Hj & Hjn)];
             [by left|].
           right. exists j. cbn. split; [done|]. split; [lia | done].
        -- cbn. rewrite Hc. split; [done|]. by left.
      * cbn. split; [done|]. by left.
      * cbn. split; [done|]. by left.
      * by apply Hnew.
    + by apply Hnew.
Qed.

(** X19.  When the title and every comment can be captured (where the
    browser is, or on the comment's own page), the function returns and
    the screenshots taken are, in order, exactly the images that
    [make_final_video] reads for [min(screenshot_num, len(comments))]
    clips; [screenshot_num] and the comments of [reddit_object] are
    untouched and the browser is back on the thread's page. *)
Theorem screenshots_are_the_images_of_the_video
    (thread : reddit_object) (n : Z) :
  title_shot = None ->
  (forall j, j < List.length (comments thread) -> capturable screenshot j) ->
  exists s,
    download thread n = Returned s /\
    written s
    = FinalVideo.image_clips
        (Z.min n (Z.of_nat (List.length (comments thread)))) /\
    screenshot_num s = n /\ has_comments s = true /\ at_page s = ThreadPage.
Proof.
  intros Htitle Hcap. unfold download_screenshots_of_reddit_posts.
  rewrite Htitle. cbn [storymode].
  destruct (loop_capturable (comments thread) 0
              (add_file "title.png"
                 {| written := []; screenshot_num := n; has_comments := true;
                    at_page := ThreadPage |}))
    as (pg & Hpg & ->); [intros j Hj; apply Hcap; lia|].
  eexists. split; [reflexivity|]. cbn in Hpg |- *.
  split; [|by destruct Hpg as [-> | ->]].
  unfold FinalVideo.image_clips, FinalVideo.clip_indices. do 3 f_equal. lia.
Qed.

(** X20.  One comment [t] within the budget whose screenshot raises
    [TimeoutError] also on its own page, all others being capturable:
    the function returns, [screenshot_num] is one larger and the key
    [comments] is gone from [reddit_object]; the screenshots are those of
    the first [screenshot_num + 1] comments but [t], under their own
    indices.  So [comment_t.png], which [make_final_video] reads for
    [screenshot_num] clips, has not been written. *)
Theorem one_timeout_leaves_a_hole (thread : reddit_object) (n : Z) (t : nat) :
  title_shot = None ->
  t < List.length (comments thread) -> (Z.of_nat t < n)%Z ->
  times_out screenshot t ->
  (forall j, j < List.length (comments thread) -> j <> t ->
             capturable screenshot j) ->
  exists s,
    download thread n = Returned s /\
    written s
    = "title.png"
        :: map comment_png
             (seq 0 t
              ++ seq (S t)
                   (Nat.min (List.length (comments thread)) (Z.to_nat (n + 1))
                    - S t)) /\
    screenshot_num s = (n + 1)%Z /\ has_comments s = false /\
    comment_png t ∈ FinalVideo.image_clips n /\
    comment_png t ∉ written s.
Proof.
  intros Htitle Hlen Hn Htime Hcap.
  unfold download_screenshots_of_reddit_posts. rewrite Htitle.
  cbn [storymode].
  set (s0 := add_file "title.png" _).
  destruct (loop_until t (comments thread) 0 s0)
    as (pg & c & rest & Hpg & Hdrop & ->);
    [lia | lia | done | intros j Hj; apply Hcap; lia |].
  rewrite loop_times_out by done. cbn [has_comments goto add_files s0 add_file].
  assert (Hrest : List.length rest = (List.length (comments thread) - S t)%nat).
  { apply (f_equal List.length) in Hdrop.
    rewrite length_drop in Hdrop. cbn in Hdrop. lia. }
  match goal with
  | |- context [comment_loop screenshot rest (S t) ?s1] =>
      destruct (loop_capturable rest (S t) s1) as (pg' & Hpg' & ->);
        [intros j Hj; apply Hcap; lia|]
  end.
  eexists. split; [reflexivity|]. subst s0.
  cbn [written screenshot_num has_comments at_page goto add_files
       skip_comment add_file].
  match goal with
  | |- ?w = ?target /\ _ => assert (Hwritten : w = target)
  end.
  { rewrite Nat.sub_0_r, map_app, Hrest. cbn [app]. do 4 f_equal. lia. }
  rewrite Hwritten. split; [done|]. split; [done|]. split; [done|]. split.
  - unfold FinalVideo.image_clips, FinalVideo.clip_indices.
    apply elem_of_cons. right. apply list_elem_of_In, in_map_iff.
    exists t. split; [done|]. apply in_seq. lia.
  - intros [Heq | Hin]%elem_of_cons; [by apply comment_png_not_title in Heq|].
    apply list_elem_of_In, in_map_iff in Hin as (j & Heq & Hj).
    apply comment_png_inj in Heq as ->.
    apply in_app_iff in Hj as [Hj | Hj]; apply in_seq in Hj; lia.
Qed.

(** X21.  A second comment whose screenshot raises [TimeoutError] on its
    own page makes the function raise [KeyError]: the key [comments] was
    deleted at the first one.  The screenshots taken so far are those of
    the comments before the second one, but the first; no later comment is
    visited. *)
Theorem second_timeout_raises_KeyError
    (thread : reddit_object) (n : Z) (t1 t2 : nat) :
  title_shot = None ->
  t1 < t2 -> t2 < List.length (comments thread) -> (Z.of_nat t2 <= n)%Z ->
  times_out screenshot t1 -> times_out screenshot t2 ->
  (forall j, j < t2 -> j <> t1 -> capturable screenshot j) ->
  exists s,
    download thread n = Raised KeyError s /\
    written s
    = "title.png"
        :: map comment_png (seq 0 t1 ++ seq (S t1) (t2 - S t1)) /\
    screenshot_num s = (n + 1)%Z /\ at_page s = CommentPage t2.
Proof.
  intros Htitle Ht Hlen Hn Htime1 Htime2 Hcap.
  unfold download_screenshots_of_reddit_posts. rewrite Htitle.
  cbn [storymode].
  set (s0 := add_file "title.png" _).
  destruct (loop_until t1 (comments thread) 0 s0)
    as (pg & c & rest & Hpg & Hdrop & ->);
    [lia | lia | cbn; lia | intros j Hj; apply Hcap; lia |].
  rewrite loop_times_out by (done || (cbn; lia)).
  cbn [has_comments goto add_files s0 add_file].
  assert (Hrest : List.length rest = (List.length (comments thread) - S t1)%nat).
  { apply (f_equal List.length) in Hdrop.
    rewrite length_drop in Hdrop. cbn in Hdrop. lia. }
  match goal with
  | |- context [comment_loop screenshot rest (S t1) ?s1] =>
      destruct (loop_until t2 rest (S t1) s1)
        as (pg' & c' & rest' & Hpg' & Hdrop' & ->);
        [lia | lia | cbn; lia | intros j Hj; apply Hcap; lia |]
  end.
  rewrite loop_times_out by (done || (cbn; lia)).
  cbn [has_comments goto add_files skip_comment].
  eexists. split; [reflexivity|]. subst s0.
  cbn [written screenshot_num has_comments at_page goto add_files
       skip_comment add_file].
  split; [|done].
  rewrite Nat.sub_0_r, map_app. cbn [app]. done.
Qed.

(** X22.  Whatever the browser does, and whether the function returns or
    raises: [screenshot_num] ends at its initial value, or at one more
    when the key [comments] has been deleted, never beyond; and every
    screenshot taken is [title.png] or [comment_j.png] for a comment [j]
    of the thread with [j <= screenshot_num]. *)
Theorem screenshots_stay_within_budget_plus_one
    (thread : reddit_object) (n : Z) :
  let s := final_state (download thread n) in
  screenshot_num s = (if has_comments s then n else n + 1)%Z /\
  forall f, f ∈ written s ->
    f = "title.png" \/
    exists j, f = comment_png j /\ j < List.length (comments thread) /\
              (Z.of_nat j <= n)%Z.
Proof.
  cbn zeta. unfold download_screenshots_of_reddit_posts.
  destruct title_shot as [e|].
  - cbn. split; [done|]. by intros f ?%elem_of_nil.
  - cbn [storymode].
    set (s0 := add_file "title.png" _).
    destruct (loop_invariant n (comments thread) 0 s0) as [Hinv Hfiles];
      [done|].
    split; [done|]. intros f Hf.
    destruct (Hfiles f Hf) as [Hin | (j & -> & Hj & Hjn)].
    + left. cbn in Hin. by apply list_elem_of_singleton in Hin.
    + right. exists j. split; [done|]. split; [lia | done].
Qed.

End ScreenshotFacts.

(** Four comments, a budget of two, every comment found. *)
Lemma screenshots_are_the_images_of_the_video_witness :
  (None : option Screenshots.exn) = None /\
  (forall j, j < List.length (comments four_comments) ->
             Screenshots.capturable all_found j) /\
  exists s,
    Screenshots.download_screenshots_of_reddit_posts None None all_found
      four_comments 2
    = Screenshots.Returned s /\
    Screenshots.written s
    = FinalVideo.image_clips
        (Z.min 2 (Z.of_nat (List.length (comments four_comments)))) /\
    Screenshots.screenshot_num s = 2%Z /\
    Screenshots.has_comments s = true /\
    Screenshots.at_page s = Screenshots.ThreadPage.
Proof.
  assert (H : forall j, j < List.length (comments four_comments) ->
                        Screenshots.capturable all_found j).
  { intros j _ p. by left. }
  split; [reflexivity|]. split; [exact H|].
  exact (screenshots_are_the_images_of_the_video None None all_found
           four_comments 2 eq_refl H).
Defined.

(** Four comments, a budget of two, the second comment lost. *)
Lemma one_timeout_leaves_a_hole_witness :
  (None : option Screenshots.exn) = None /\
  1 < List.length (comments four_comments) /\ (Z.of_nat 1 < 2)%Z /\
  Screenshots.times_out second_lost 1 /\
  (forall j, j < List.length (comments four_comments) -> j <> 1 ->
             Screenshots.capturable second_lost j) /\
  exists s,
    Screenshots.download_screenshots_of_reddit_posts None None second_lost
      four_comments 2
    = Screenshots.Returned s /\
    Screenshots.written s
    = "title.png"
        :: map Screenshots.comment_png
             (seq 0 1
              ++ seq 2
                   (Nat.min (List.length (comments four_comments))
                      (Z.to_nat (2 + 1)) - 2)) /\
    Screenshots.screenshot_num s = (2 + 1)%Z /\
    Screenshots.has_comments s = false /\
    Screenshots.comment_png 1 ∈ FinalVideo.image_clips 2 /\
    Screenshots.comment_png 1 ∉ Screenshots.written s.
Proof.
  assert (Hlen : 1 < List.length (comments four_comments)) by (cbn; lia).
  assert (Hn : (Z.of_nat 1 < 2)%Z) by lia.
  assert (Htime : Screenshots.times_out second_lost 1)
    by (split; [intros p; discriminate | reflexivity]).
  assert (Hcap : forall j, j < List.length (comments four_comments) ->
                           j <> 1 -> Screenshots.capturable second_lost j).
  { intros j _ Hj p. left. unfold second_lost.
    destruct (Nat.eqb_spec j 1); [done | reflexivity]. }
  split; [reflexivity|]. split; [exact Hlen|]. split; [exact Hn|].
  split; [exact Htime|]. split; [exact Hcap|].
  exact (one_timeout_leaves_a_hole None None second_lost four_comments 2 1
           eq_refl Hlen Hn Htime Hcap).
Defined.

(** Four comments, a budget of two, the second and the third lost. *)
Lemma second_timeout_raises_KeyError_witness :
  (None : option Screenshots.exn) = None /\
  1 < 2 /\ 2 < List.length (comments four_comments) /\ (Z.of_nat 2 <= 2)%Z /\
  Screenshots.times_out second_and_third_lost 1 /\
  Screenshots.times_out second_and_third_lost 2 /\
  (forall j, j < 2 -> j <> 1 ->
             Screenshots.capturable second_and_third_lost j) /\
  exists s,
    Screenshots.download_screenshots_of_reddit_posts None None
      second_and_third_lost four_comments 2
    = Screenshots.Raised Screenshots.KeyError s /\
    Screenshots.written s
    = "title.png"
        :: map Screenshots.comment_png (seq 0 1 ++ seq 2 (2 - 2)) /\
    Screenshots.screenshot_num s = (2 + 1)%Z /\
    Screenshots.at_page s = Screenshots.CommentPage 2.
Proof.
  assert (Hlt : 1 < 2) by lia.
  assert (Hlen : 2 < List.length (comments four_comments)) by (cbn; lia).
  assert (Hn : (Z.of_nat 2 <= 2)%Z) by lia.
  assert (Htime1 : Screenshots.times_out second_and_third_lost 1)
    by (split; [intros p; discriminate | reflexivity]).
  assert (Htime2 : Screenshots.times_out second_and_third_lost 2)
    by (split; [intros p; discriminate | reflexivity]).
  assert (Hcap : forall j, j < 2 -> j <> 1 ->
                           Screenshots.capturable second_and_third_lost j).
  { intros j Hj Hne p. left. assert (j = 0) as -> by lia. reflexivity. }
  split; [reflexivity|]. split; [exact Hlt|]. split; [exact Hlen|].
  split; [exact Hn|]. split; [exact Htime1|]. split; [exact Htime2|].
  split; [exact Hcap|].
  exact (second_timeout_raises_KeyError None None second_and_third_lost
           four_comments 2 1 2 eq_refl Hlt Hlen Hn Htime1 Htime2 Hcap).
Defined.

(** ** What [split_text] keeps and what it drops *)

Section Coverage.

Lemma any_char_step a t k :
  exec (Alt Dot (Lit newline)) (a :: t) k = k t.
Proof.
  cbn [exec]. destruct (Ascii.eqb a newline); [done|]. by destruct (k t).
Qed.

Lemma upto_nil f n k :
  (forall k', f [] k' = None) -> upto f n [] k = k [].
Proof. intros Hf. destruct n; cbn [upto]; [done|]. by rewrite Hf. Qed.

(** The repetition finds a way when the rest of the pattern matches after
    some number of characters within the bound. *)
Lemma upto_complete n : forall s k i,
  i <= n -> i <= List.length s -> is_Some (k (drop i s)) ->
  is_Some (upto (exec (Alt Dot (Lit newline))) n s k).
Proof.
  induction n as [|n IH]; intros s k i Hn Hlen Hk.
  - assert (i = 0) as -> by lia. by rewrite drop_0 in Hk.
  - cbn [upto]. destruct s as [|a t].
    + assert (i = 0) as -> by (cbn in Hlen; lia). cbn [exec]. by cbn in Hk.
    + rewrite any_char_step. destruct i as [|i].
      * rewrite drop_0 in Hk. by destruct (upto _ n t k).
      * cbn [drop] in Hk. cbn in Hlen.
        destruct (IH t k i) as [r ->]; [lia | lia | done | done].
Qed.

Lemma star_complete f fuel s k :
  is_Some (k s) -> is_Some (star f fuel s k).
Proof. intros Hk. destruct fuel; cbn [star]; [done|]. by destruct (f s _). Qed.

Lemma terminator_complete c r :
  c = full_stop \/ (r = [] /\ c <> newline) ->
  exec (Alt (Lit full_stop) (Cat Dot Eos)) (c :: r) Some = Some r.
Proof.
  intros [-> | [-> Hc]]; simpl; [done|].
  destruct (Ascii.eqb c full_stop); [done|].
  destruct (Ascii.eqb c newline) eqn:Heq; [|done].
  by apply Ascii.eqb_eq in Heq.
Qed.

Lemma terminator_kind s r :
  exec (Alt (Lit full_stop) (Cat Dot Eos)) s Some = Some r ->
  exists c, s = c :: r /\ (c = full_stop \/ r = [] \/ r = [newline]).
Proof.
  destruct s as [|a t]; simpl; [done|].
  destruct (Ascii.eqb a full_stop) eqn:Ha.
  - intros [= <-]. apply Ascii.eqb_eq in Ha. eauto.
  - destruct (Ascii.eqb a newline); [done|].
    destruct t as [|b [|b' t']]; simpl.
    + intros [= <-]. eauto.
    + destruct (Ascii.eqb b newline) eqn:Hb; [|done].
      intros [= <-]. apply Ascii.eqb_eq in Hb as ->. eauto.
    + done.
Qed.

(** Shape of a match, with the way it ends. *)
Lemma match_here_kind max_chars s r :
  match_here (split_regex max_chars) s = Some r ->
  exists j body c,
    s = repeat space j ++ body ++ c :: r /\
    (List.length body <= max_chars)%nat /\
    (c = full_stop \/ r = [] \/ r = [newline]).
Proof.
  unfold match_here, split_regex. cbn [exec]. intros H.
  apply (star_one_char _ _ _ _ _ _ (one_char_lit space)) in H
    as (pre & s1 & -> & Hpre & H).
  apply (upto_one_char _ _ _ _ _ _ one_char_any) in H
    as (body & s2 & -> & Hlen & H).
  apply terminator_kind in H as (c & -> & Hkind).
  exists (List.length pre), body, c. split; [|done].
  f_equal. clear -Hpre.
  induction Hpre as [|a pre -> _ IH]; simpl; congruence.
Qed.

Lemma reach_stop max_chars s :
  existsb (fun c => Ascii.eqb c full_stop) (take (max_chars + 1) s) = true ->
  exists i, i <= max_chars /\ drop i s = full_stop :: drop (S i) s.
Proof.
  intros (c & Hin & Hc)%existsb_exists. apply Ascii.eqb_eq in Hc as ->.
  apply list_elem_of_In, list_elem_of_lookup in Hin as [i Hi].
  apply lookup_take_Some in Hi as [Hi Hlt].
  exists i. split; [lia|]. by apply drop_S.
Qed.

Lemma match_here_unfold max_chars s :
  match_here (split_regex max_chars) s
  = star (exec (Lit space)) (List.length s) s
      (fun s1 =>
         upto (exec (Alt Dot (Lit newline))) max_chars s1
           (fun s2 => exec (Alt (Lit full_stop) (Cat Dot Eos)) s2 Some)).
Proof. reflexivity. Qed.

(** Where a stop is within reach, the pattern matches. *)
Lemma match_here_complete max_chars s :
  reach max_chars s = true -> s <> [] -> last s <> Some newline ->
  is_Some (match_here (split_regex max_chars) s).
Proof.
  intros Hreach Hne Hlast. rewrite match_here_unfold.
  apply star_complete.
  destruct (existsb (fun c => Ascii.eqb c full_stop) (take (max_chars + 1) s))
    eqn:Hstop.
  - apply reach_stop in Hstop as (i & Hi & Hdrop).
    apply (upto_complete _ _ _ i); [done| |].
    + apply (f_equal List.length) in Hdrop. rewrite length_drop in Hdrop.
      cbn in Hdrop. lia.
    + cbv beta. rewrite Hdrop, terminator_complete; [done | by left].
  - unfold reach in Hreach. rewrite Hstop, orb_false_r in Hreach.
    apply Nat.leb_le in Hreach.
    destruct (exists_last Hne) as (body & c & ->).
    rewrite last_snoc in Hlast. rewrite length_app in Hreach. cbn in Hreach.
    apply (upto_complete _ _ _ (List.length body)); [lia| |].
    + rewrite length_app. lia.
    + cbv beta. rewrite drop_app_length, terminator_complete; [done|].
      right. split; [done|]. congruence.
Qed.

Lemma scan_skip r l rest : scan r (l ++ rest) (List.length l) = scan r rest 0.
Proof. induction l as [|a l IH]; [done|]. exact IH. Qed.

Lemma dense_suffix max_chars l rest :
  dense max_chars (l ++ rest) = true -> dense max_chars rest = true.
Proof.
  induction l as [|a l IH]; [done|]. cbn [app dense].
  intros [_ H]%andb_true_iff. by apply IH.
Qed.

(** On a dense text the matches follow each other without a gap. *)
Lemma scan_dense max_chars : forall n s,
  List.length s <= n ->
  dense max_chars s = true -> last s <> Some newline ->
  concat (scan (split_regex max_chars) s 0) = s.
Proof.
  induction n as [|n IH]; intros s Hn Hdense Hlast.
  - destruct s; [|cbn in Hn; lia].
    cbn [scan]. by destruct (match_here _ []).
  - destruct s as [|a t].
    { cbn [scan]. by destruct (match_here _ []). }
    pose proof Hdense as Hd. cbn [dense] in Hd.
    apply andb_true_iff in Hd as [Hreach _].
    destruct (match_here_complete max_chars (a :: t) Hreach) as [rest Hm];
      [done | done |].
    pose proof Hm as Hshape.
    apply match_here_kind in Hshape as (j & body & c & Hs & _ & _).
    assert (Hcut : exists m, a :: t = (a :: m) ++ rest).
    { replace (repeat space j ++ body ++ c :: rest)
        with ((repeat space j ++ body ++ [c]) ++ rest) in Hs
        by (rewrite <- !(assoc_L (++)); reflexivity).
      destruct (repeat space j ++ body ++ [c]) as [|a' m] eqn:Hm'.
      - destruct j, body; discriminate.
      - injection Hs as -> ->. by exists m. }
    destruct Hcut as (m & Hcut).
    cbn [scan]. rewrite Hm. cbn zeta.
    rewrite Hcut at 1 2. rewrite length_app, Nat.add_sub, take_app_length.
    injection Hcut as ->. cbn [List.length].
    replace (S (List.length (m ++ rest)) - List.length rest - 1)%nat
      with (List.length m) by (rewrite length_app; lia).
    rewrite scan_skip.
    cbn [concat]. rewrite IH; [done | | |].
    + cbn in Hn. rewrite length_app in Hn. lia.
    + by apply (dense_suffix _ (a :: m)).
    + intros Hrest. apply Hlast.
      change (a :: m ++ rest) with ((a :: m) ++ rest).
      by rewrite last_app, Hrest.
Qed.

(** X23.  Where every position of the text has a full stop among the
    next [max_chars + 1] characters or the end of the text within them
    (and the text does not end in a newline), the matches of the splitting
    pattern follow each other without a gap: the chunks of [split_text]
    are the text cut into pieces, each piece stripped, and no character
    but whitespace at a cut is left out. *)
Theorem split_text_covers_dense_text (max_chars : nat) (text : string) :
  dense max_chars (String.list_ascii_of_string text) = true ->
  last (String.list_ascii_of_string text) <> Some newline ->
  exists pieces,
    concat pieces = String.list_ascii_of_string text /\
    split_text max_chars text
    = map (fun m => String.string_of_list_ascii (strip m)) pieces.
Proof.
  intros Hdense Hlast.
  exists (finditer (split_regex max_chars) (String.list_ascii_of_string text)).
  split; [|done]. unfold finditer.
  by apply (scan_dense max_chars
              (List.length (String.list_ascii_of_string text))).
Qed.

(** X24.  Where the text starts with a character other than a space and
    has no full stop among its first [max_chars + 1] characters, nor its
    end within them, no match starts at the first character: the chunks
    are those of the text without it, and the character is in none. *)
Theorem split_text_drops_first_character
    (max_chars : nat) (c : ascii) (text : string) :
  c <> space ->
  reach max_chars (c :: String.list_ascii_of_string text) = false ->
  last (c :: String.list_ascii_of_string text) <> Some newline ->
  split_text max_chars (String c text) = split_text max_chars text.
Proof.
  intros Hc Hreach Hlast. unfold split_text, finditer. f_equal.
  change (String.list_ascii_of_string (String c text))
    with (c :: String.list_ascii_of_string text).
  set (s := String.list_ascii_of_string text) in *.
  cbn [scan].
  destruct (match_here (split_regex max_chars) (c :: s)) as [rest|] eqn:Hm;
    [exfalso | done].
  apply match_here_kind in Hm as (j & body & c' & Hs & Hlen & Hkind).
  destruct j as [|j]; [|cbn in Hs; congruence].
  cbn [repeat app] in Hs.
  apply orb_false_iff in Hreach as [Hlong Hstop].
  apply Nat.leb_gt in Hlong.
  destruct Hkind as [-> | [-> | ->]].
  - assert (Hin : existsb (fun c => Ascii.eqb c full_stop)
                    (take (max_chars + 1) (c :: s)) = true); [|congruence].
    apply existsb_exists. exists full_stop. split; [|done].
    apply list_elem_of_In, (list_elem_of_lookup_2 _ (List.length body)).
    rewrite Hs. apply lookup_take_Some. split; [|lia].
    by rewrite lookup_app_r, Nat.sub_diag.
  - rewrite Hs, length_app in Hlong. cbn in Hlong. lia.
  - apply Hlast. rewrite Hs.
    change (body ++ [c'; newline]) with (body ++ [c'] ++ [newline]).
    by rewrite (assoc_L (++)), last_snoc.
Qed.











End Coverage.

(** The text of the first sanity check: its first sentence is one
    character too long. *)
Lemma split_text_drops_first_character_witness :
  "H"%char <> space /\
  reach 10 ("H"%char :: String.list_ascii_of_string "ello world. This is it")
  = false /\
  last ("H"%char :: String.list_ascii_of_string "ello world. This is it")
  <> Some newline /\
  split_text 10 "Hello world. This is it"
  = split_text 10 "ello world. This is it".
Proof.
  assert (H1 : "H"%char <> space) by discriminate.
  assert (H2 : reach 10
                 ("H"%char
                  :: String.list_ascii_of_string "ello world. This is it")
               = false) by reflexivity.
  assert (H3 : last ("H"%char
                     :: String.list_ascii_of_string "ello world. This is it")
               <> Some newline) by discriminate.
  split; [exact H1|]. split; [exact H2|]. split; [exact H3|].
  exact (split_text_drops_first_character 10 "H" "ello world. This is it"
           H1 H2 H3).
Defined.

Lemma split_text_covers_dense_text_witness :
  dense 10 (String.list_ascii_of_string "Hello. This is it") = true /\
  last (String.list_ascii_of_string "Hello. This is it") <> Some newline /\
  exists pieces,
    concat pieces = String.list_ascii_of_string "Hello. This is it" /\
    split_text 10 "Hello. This is it"
    = map (fun m => String.string_of_list_ascii (strip m)) pieces.
Proof.
  assert (H1 : dense 10 (String.list_ascii_of_string "Hello. This is it")
               = true) by reflexivity.
  assert (H2 : last (String.list_ascii_of_string "Hello. This is it")
               <> Some newline) by discriminate.
  split; [exact H1|]. split; [exact H2|].
  exact (split_text_covers_dense_text 10 "Hello. This is it" H1 H2).
Defined.

(** ** Ratios in names *)

Section RatioFacts.

Import Re.

Variable translate : string -> string.

Lemma plus_stops (p : ascii -> bool) f fuel r caps :
  (forall s caps,
     f s caps = match s with
                | x :: t => if p x then [(t, caps)] else []
                | [] => []
                end) ->
  (forall c r', r = c :: r' -> p c = false) ->
  plus f fuel r caps = [].
Proof.
  intros Hf Hr. destruct fuel; [done|]. cbn [plus]. rewrite Hf.
  destruct r as [|c r']; [done|]. by rewrite (Hr c r' eq_refl).
Qed.

(** A greedy repetition of a class first takes the whole run. *)
Lemma plus_greedy (p : ascii -> bool) f :
  (forall s caps,
     f s caps = match s with
                | x :: t => if p x then [(t, caps)] else []
                | [] => []
                end) ->
  forall a fuel r caps,
    forallb p a = true -> a <> [] -> List.length a <= fuel ->
    (forall c r', r = c :: r' -> p c = false) ->
    exists ways, plus f fuel (a ++ r) caps = (r, caps) :: ways.
Proof.
  intros Hf. induction a as [|x a IH]; [done|].
  intros fuel r caps Hall _ Hfuel Hr.
  destruct fuel as [|fuel]; [cbn in Hfuel; lia|].
  cbn [forallb] in Hall. apply andb_true_iff in Hall as [Hx Hall].
  cbn [plus app]. rewrite Hf, Hx. cbn [flat_map fst snd].
  destruct (Nat.ltb_spec (List.length (a ++ r)) (List.length (x :: a ++ r)))
    as [_|Hge]; [|cbn in Hge; lia].
  destruct a as [|y a].
  - cbn [app]. rewrite (plus_stops p) by done. by eexists.
  - destruct (IH fuel r caps) as [ways ->];
      [done | done | cbn in Hfuel |- *; lia | done |].
    by eexists.
Qed.

Lemma group_plus_first i p a r caps :
  forallb p a = true -> a <> [] ->
  (forall c r', r = c :: r' -> p c = false) ->
  first_way (Group i (Plus (Class p))) (a ++ r) caps (r, (i, a) :: caps).
Proof.
  intros Hall Ha Hr. unfold first_way.
  change (run (Group i (Plus (Class p))) (a ++ r) caps)
    with (map (fun way : list ascii * captures =>
                 (fst way,
                  (i, take (List.length (a ++ r) - List.length (fst way))
                        (a ++ r)) :: snd way))
            (plus (run (Class p)) (List.length (a ++ r)) (a ++ r) caps)).
  destruct (plus_greedy p (run (Class p)) (fun _ _ => eq_refl) a
              (List.length (a ++ r)) r caps) as [ways ->];
    [done | done | rewrite length_app; lia | done |].
  cbn [map fst snd]. rewrite length_app, Nat.add_sub, take_app_length.
  by eexists.
Qed.

Lemma seq_first r1 r2 s caps w w' :
  first_way r1 s caps w -> first_way r2 (fst w) (snd w) w' ->
  first_way (Seq r1 r2) s caps w'.
Proof.
  intros [ws1 H1] [ws2 H2]. unfold first_way. cbn [run].
  rewrite H1. cbn [flat_map]. rewrite H2. by eexists.
Qed.

Lemma opt_first_skip r1 s caps :
  run r1 s caps = [] -> first_way (Opt r1) s caps (s, caps).
Proof. intros H. unfold first_way. cbn [run]. rewrite H. by eexists. Qed.

Lemma lit_first c t caps : first_way (Lit c) (c :: t) caps (t, caps).
Proof.
  unfold first_way. cbn [run]. rewrite Ascii.eqb_refl. by eexists.
Qed.

Lemma class_none p s caps :
  (forall c t, s = c :: t -> p c = false) -> run (Class p) s caps = [].
Proof.
  intros Hs. cbn [run]. destruct s as [|c t]; [done|].
  by rewrite (Hs c t eq_refl).
Qed.

Lemma seq_none r1 r2 s caps :
  run r1 s caps = [] -> run (Seq r1 r2) s caps = [].
Proof. intros H. cbn [run]. by rewrite H. Qed.

Lemma group_none i r1 s caps :
  run r1 s caps = [] -> run (Group i r1) s caps = [].
Proof. intros H. cbn [run]. by rewrite H. Qed.

Lemma plus_class_none p s caps :
  (forall c t, s = c :: t -> p c = false) ->
  run (Plus (Class p)) s caps = [].
Proof.
  intros Hs.
  change (run (Plus (Class p)) s caps)
    with (plus (run (Class p)) (List.length s) s caps).
  by apply (plus_stops p).
Qed.

Lemma ratio_none class s caps :
  (forall c t, s = c :: t -> class c = false) ->
  run (ratio_pattern class) s caps = [].
Proof.
  intros Hs. unfold ratio_pattern.
  by apply seq_none, group_none, plus_class_none.
Qed.

(** The first way in which a ratio pattern matches a ratio. *)
Lemma ratio_first class a b :
  (forall c, class c = true -> is_whitespace c = false /\ c <> slash) ->
  forallb class a = true -> a <> [] ->
  forallb class b = true -> b <> [] ->
  first_way (ratio_pattern class) (a ++ slash :: b) [] ([], [(2, b); (1, a)]).
Proof.
  intros Hclass Ha Hane Hb Hbne. unfold ratio_pattern.
  assert (Hslash : class slash = false).
  { destruct (class slash) eqn:E; [|done]. by destruct (Hclass _ E). }
  eapply seq_first.
  { apply group_plus_first; [done | done |]. by intros c r' [= <- <-]. }
  cbn [fst snd]. eapply seq_first.
  { apply opt_first_skip, class_none. by intros c t [= <- <-]. }
  cbn [fst snd]. eapply seq_first; [apply lit_first|].
  cbn [fst snd]. eapply seq_first.
  { apply opt_first_skip, class_none. intros c t ->.
    cbn [forallb] in Hb. apply andb_true_iff in Hb as [Hc _].
    by destruct (Hclass _ Hc). }
  cbn [fst snd].
  pose proof (group_plus_first 2 class b [] [(1, a)] Hb Hbne) as H.
  rewrite app_nil_r in H. apply H. by intros c r' [=].
Qed.

Lemma sub_scan_skip_all r repl l : sub_scan r repl l (List.length l) = [].
Proof. induction l as [|x l IH]; [done|]. exact IH. Qed.

(** A match of the whole text is replaced as a whole. *)
Lemma sub_whole r repl s caps :
  s <> [] -> first_way r s [] ([], caps) -> sub r repl s = expand repl caps.
Proof.
  intros Hs [ways Hrun]. unfold sub. destruct s as [|x t]; [done|].
  cbn [sub_scan]. rewrite Hrun. cbn [List.length Nat.sub].
  by rewrite sub_scan_skip_all, app_nil_r.
Qed.

(** No match anywhere: the text is left as it is. *)
Lemma sub_none r repl s :
  (forall l1 l2, s = l1 ++ l2 -> run r l2 [] = []) -> sub r repl s = s.
Proof.
  unfold sub. induction s as [|x t IH]; intros Hnone; [done|].
  cbn [sub_scan]. rewrite (Hnone [] (x :: t) eq_refl).
  rewrite IH; [done|]. intros l1 l2 ->. by apply (Hnone (x :: l1) l2).
Qed.

Lemma word_not_separator c :
  is_word c = true ->
  is_whitespace c = false /\ c <> slash /\ c <> space /\
  forbidden_in_name c = false.
Proof.
  destruct c as [[] [] [] [] [] [] [] []]; vm_compute;
    intros H; try discriminate H; repeat split; discriminate.
Qed.

Lemma digit_is_word c : is_digit c = true -> is_word c = true.
Proof.
  destruct c as [[] [] [] [] [] [] [] []]; vm_compute; congruence.
Qed.

Lemma forallb_impl (p q : ascii -> bool) l :
  (forall c, p c = true -> q c = true) ->
  forallb p l = true -> forallb q l = true.
Proof.
  intros Hpq. rewrite !forallb_forall. intros Hall c Hc. by apply Hpq, Hall.
Qed.

(** The substitutions before the ratios leave [a/b] as it is. *)
Lemma ratio_reaches_fourth a b :
  forallb is_word a = true -> forallb is_word b = true ->
  sub with_pattern [Text (chars " with")]
    (sub without_pattern [Text (chars " without")]
       (sub (Class forbidden_in_name) [] (a ++ slash :: b)))
  = a ++ slash :: b.
Proof.
  intros Ha Hb.
  assert (Hword : forall c, c ∈ a ++ slash :: b -> c = slash \/ is_word c = true).
  { intros c [Hc | Hc]%elem_of_app.
    - right. by apply (forallb_elem _ a).
    - apply elem_of_cons in Hc as [-> | Hc]; [by left|].
      right. by apply (forallb_elem _ b). }
  rewrite sub_class, forallb_filter_id.
  - assert (Hspace : space ∉ a ++ slash :: b).
    { intros [Heq | Hw]%Hword; [discriminate|].
      by destruct (word_not_separator _ Hw) as (_ & _ & ? & _). }
    rewrite (sub_without_match space without_pattern) by done.
    by rewrite (sub_without_match space with_pattern).
  - apply forallb_forall. intros c [-> | Hw]%list_elem_of_In%Hword; [done|].
    by destruct (word_not_separator _ Hw) as (_ & _ & _ & ->).
Qed.

(** The substitutions after a ratio has been spelt out change nothing. *)
Lemma ratio_spelt_stays a b word :
  forallb is_word a = true -> forallb is_word b = true ->
  slash ∉ word ->
  sub (Lit slash) [] (a ++ word ++ b) = a ++ word ++ b /\
  sub (ratio_pattern is_word) [Ref 1; Text (chars " or "); Ref 2]
    (a ++ word ++ b) = a ++ word ++ b.
Proof.
  intros Ha Hb Hword.
  assert (Hslash : slash ∉ a ++ word ++ b).
  { intros [Hc | [Hc | Hc]%elem_of_app]%elem_of_app; [|done|].
    - pose proof (forallb_elem _ _ _ Ha Hc) as Hw.
      by destruct (word_not_separator _ Hw) as (_ & ? & _).
    - pose proof (forallb_elem _ _ _ Hb Hc) as Hw.
      by destruct (word_not_separator _ Hw) as (_ & ? & _). }
  split.
  - rewrite sub_lit. apply forallb_filter_id, forallb_forall.
    intros c Hc%list_elem_of_In. destruct (Ascii.eqb_spec c slash); [|done].
    by subst.
  - by apply (sub_without_match slash).
Qed.

Lemma chars_nonempty a : a <> String.EmptyString -> chars a <> [].
Proof. by destruct a. Qed.

Lemma word_class c :
  is_word c = true -> is_whitespace c = false /\ c <> slash.
Proof. intros Hw. by destruct (word_not_separator _ Hw) as (? & ? & _). Qed.

Lemma digit_class c :
  is_digit c = true -> is_whitespace c = false /\ c <> slash.
Proof. intros Hd. by apply word_class, digit_is_word. Qed.

Lemma spelt_string a word b :
  String.string_of_list_ascii (chars a ++ chars word ++ chars b)
  = a +:+ word +:+ b.
Proof.
  rewrite <- !chars_append. apply String.string_of_list_ascii_of_string.
Qed.

(** X25.  Without translation, a name that is a ratio of two numbers,
    [a/b] with [a] and [b] made of digits, becomes [a of b]: the fourth
    substitution matches the whole name, with all of [a] and all of [b]
    in its groups, and no other substitution applies. *)
Theorem name_normalize_spells_out_number_ratio (a b : string) :
  a <> String.EmptyString -> b <> String.EmptyString ->
  forallb is_digit (chars a) = true -> forallb is_digit (chars b) = true ->
  name_normalize false translate (a +:+ "/" +:+ b) = a +:+ " of " +:+ b.
Proof.
  intros Hane Hbne Ha Hb. unfold name_normalize.
  assert (Hwa : forallb is_word (chars a) = true)
    by (eapply forallb_impl; [apply digit_is_word | done]).
  assert (Hwb : forallb is_word (chars b) = true)
    by (eapply forallb_impl; [apply digit_is_word | done]).
  rewrite !chars_append. change (chars "/") with [slash]. cbn [app].
  rewrite ratio_reaches_fourth by done.
  rewrite (sub_whole (ratio_pattern is_digit) _ _
             [(2, chars b); (1, chars a)]).
  - cbn [expand flat_map group List.find fst snd Nat.eqb].
    rewrite app_nil_r.
    destruct (ratio_spelt_stays (chars a) (chars b) (chars " of ") Hwa Hwb)
      as [Hlit Hor].
    { intros Hin%list_elem_of_In. cbn in Hin.
      repeat (destruct Hin as [Hin | Hin]; [discriminate Hin|]). done. }
    rewrite Hor, Hlit. apply spelt_string.
  - by destruct (chars a).
  - apply ratio_first; auto using digit_class, chars_nonempty.
Qed.

(** X26.  Without translation, a name [a/b] of two words without digits
    becomes [a or b]: the substitution for numbers finds nothing, and the
    fifth substitution matches the whole name. *)
Theorem name_normalize_spells_out_word_ratio (a b : string) :
  a <> String.EmptyString -> b <> String.EmptyString ->
  forallb is_letter (chars a) = true -> forallb is_letter (chars b) = true ->
  name_normalize false translate (a +:+ "/" +:+ b) = a +:+ " or " +:+ b.
Proof.
  intros Hane Hbne Ha Hb. unfold name_normalize.
  assert (Hletter : forall c, is_letter c = true ->
                              is_word c = true /\ is_digit c = false).
  { intros c [Hw Hd%negb_true_iff]%andb_true_iff. done. }
  assert (Hwa : forallb is_word (chars a) = true)
    by (eapply forallb_impl; [apply Hletter | done]).
  assert (Hwb : forallb is_word (chars b) = true)
    by (eapply forallb_impl; [apply Hletter | done]).
  rewrite !chars_append. change (chars "/") with [slash]. cbn [app].
  rewrite ratio_reaches_fourth by done.
  rewrite (sub_none (ratio_pattern is_digit)).
  - rewrite (sub_whole (ratio_pattern is_word) _ _
               [(2, chars b); (1, chars a)]).
    + cbn [expand flat_map group List.find fst snd Nat.eqb].
      rewrite app_nil_r.
      destruct (ratio_spelt_stays (chars a) (chars b) (chars " or ") Hwa Hwb)
        as [Hlit _].
      { intros Hin%list_elem_of_In. cbn in Hin.
        repeat (destruct Hin as [Hin | Hin]; [discriminate Hin|]). done. }
      rewrite Hlit. apply spelt_string.
    + by destruct (chars a).
    + apply ratio_first; auto using word_class, chars_nonempty.
  - intros l1 l2 Heq. apply ratio_none. intros c t ->.
    assert (Hc : c ∈ chars a ++ slash :: chars b).
    { rewrite Heq. apply elem_of_app. right. apply elem_of_cons. by left. }
    apply elem_of_app in Hc as [Hc | Hc].
    + by destruct (Hletter c (forallb_elem _ _ _ Ha Hc)).
    + apply elem_of_cons in Hc as [-> | Hc]; [done|].
      by destruct (Hletter c (forallb_elem _ _ _ Hb Hc)).
Qed.

End RatioFacts.

Lemma name_normalize_spells_out_number_ratio_witness :
  "16" <> String.EmptyString /\ "9" <> String.EmptyString /\
  forallb is_digit (chars "16") = true /\
  forallb is_digit (chars "9") = true /\
  name_normalize false (fun s => s) ("16" +:+ "/" +:+ "9")
  = "16" +:+ " of " +:+ "9".
Proof.
  assert (H1 : "16" <> String.EmptyString) by discriminate.
  assert (H2 : "9" <> String.EmptyString) by discriminate.
  split; [exact H1|]. split; [exact H2|].
  split; [reflexivity|]. split; [reflexivity|].
  exact (name_normalize_spells_out_number_ratio (fun s => s) "16" "9"
           H1 H2 eq_refl eq_refl).
Defined.

Lemma name_normalize_spells_out_word_ratio_witness :
  "cats" <> String.EmptyString /\ "dogs" <> String.EmptyString /\
  forallb is_letter (chars "cats") = true /\
  forallb is_letter (chars "dogs") = true /\
  name_normalize false (fun s => s) ("cats" +:+ "/" +:+ "dogs")
  = "cats" +:+ " or " +:+ "dogs".
Proof.
  assert (H1 : "cats" <> String.EmptyString) by discriminate.
  assert (H2 : "dogs" <> String.EmptyString) by discriminate.
  split; [exact H1|]. split; [exact H2|].
  split; [reflexivity|]. split; [reflexivity|].
  exact (name_normalize_spells_out_word_ratio (fun s => s) "cats" "dogs"
           H1 H2 eq_refl eq_refl).
Defined.
